(** * Athome property scraper: extraction, ranking and listing store

    A shallow embedding of the Python sources

      - [src/ranking.py]         (class [PropertyRanker]),
      - [src/database.py]        (class [PropertyDatabase]),
      - [src/athome_scraper.py]  (class [AthomeScraper]),
      - [config/athome_scraper_config.py] (the default rubric),

    followed by the properties of the pipeline that were checked against it.

    Conventions of the embedding.
      - A Python [str] is the list of its code points ([pystr]); literals are
        written as UTF-8 text and decoded once by [u].
      - A Python [int] is an integer and a finite [float] is the rational it
        denotes, both read in [Q]; [inf] and [nan] are not values of the
        embedding. Where the ranking divides, formats or parses a number
        the binary64 rounding and overflow of the interpreter are modelled
        ([Float]); the scores and areas computed elsewhere are kept exact.
      - A Python [dict] with string keys is a [gmap string _].
      - A Python exception is a value of [result]; [try]/[except] is a match
        on it. *)

From Stdlib Require Import ZArith NArith QArith Qround Qpower List String Ascii Bool Lia Lqa.
From Stdlib Require Import Sorted Permutation.
From stdpp Require Import base option list gmap strings.

Open Scope N_scope.
Open Scope Z_scope.
Open Scope list_scope.

(** ** Python strings *)

Definition codepoint := N.
Definition pystr := list codepoint.

Module Utf8.

Definition byte_of (a : ascii) : N := N_of_ascii a.

(** Continuation bytes [10xxxxxx] carry six payload bits. *)
Definition payload (b : N) : N := N.land b 63.

Fixpoint decode_bytes (fuel : nat) (bs : list N) : pystr :=
  match fuel with
  | O => []
  | S fuel' =>
      match bs with
      | [] => []
      | b0 :: r0 =>
          if (b0 <? 128)%N then b0 :: decode_bytes fuel' r0
          else if (b0 <? 224)%N then
            match r0 with
            | b1 :: r1 =>
                (N.land b0 31 * 64 + payload b1)%N :: decode_bytes fuel' r1
            | _ => []
            end
          else if (b0 <? 240)%N then
            match r0 with
            | b1 :: b2 :: r2 =>
                (N.land b0 15 * 4096 + payload b1 * 64 + payload b2)%N
                  :: decode_bytes fuel' r2
            | _ => []
            end
          else
            match r0 with
            | b1 :: b2 :: b3 :: r3 =>
                (N.land b0 7 * 262144 + payload b1 * 4096
                 + payload b2 * 64 + payload b3)%N :: decode_bytes fuel' r3
            | _ => []
            end
      end
  end.

Fixpoint bytes_of_string (s : string) : list N :=
  match s with
  | EmptyString => []
  | String a s' => byte_of a :: bytes_of_string s'
  end.

Definition decode (s : string) : pystr :=
  let bs := bytes_of_string s in decode_bytes (List.length bs) bs.

(** The UTF-8 bytes of a string without surrogates. *)
Definition encode_cp (c : codepoint) : list N :=
  if (c <? 128)%N then [c]
  else if (c <? 2048)%N then
    [192 + N.shiftr c 6; 128 + N.land c 63]%N
  else if (c <? 65536)%N then
    [224 + N.shiftr c 12; 128 + N.land (N.shiftr c 6) 63; 128 + N.land c 63]%N
  else
    [240 + N.shiftr c 18; 128 + N.land (N.shiftr c 12) 63;
     128 + N.land (N.shiftr c 6) 63; 128 + N.land c 63]%N.

Definition encode (s : pystr) : list N := List.concat (List.map encode_cp s).

End Utf8.

(** Literal text, written as it is in the sources. *)
Definition u (s : string) : pystr := Utf8.decode s.

Module Str.

Definition eqb (a b : pystr) : bool := bool_decide (a = b).

Fixpoint startswith (p s : pystr) : bool :=
  match p, s with
  | [], _ => true
  | c :: p', d :: s' => (c =? d)%N && startswith p' s'
  | _ :: _, [] => false
  end.

(** [needle in hay] on two strings. *)
Fixpoint contains (needle hay : pystr) : bool :=
  startswith needle hay
  || match hay with
     | [] => false
     | _ :: hay' => contains needle hay'
     end.

(** [s.replace(c, '')] for a one-character [c]. *)
Definition remove_char (c : codepoint) (s : pystr) : pystr :=
  List.filter (fun d => negb (d =? c)%N) s.

(** [s.find(c)]: index of the first occurrence. *)
Fixpoint find (c : codepoint) (s : pystr) : option nat :=
  match s with
  | [] => None
  | d :: s' => if (d =? c)%N then Some O else S <$> find c s'
  end.

(** Index of the first character satisfying [p]. *)
Fixpoint find_if (p : codepoint -> bool) (s : pystr) : option nat :=
  match s with
  | [] => None
  | d :: s' => if p d then Some O else S <$> find_if p s'
  end.

End Str.

(** ** Character classes of [re] on [str] patterns *)

Module Unicode.

(** The code points of the digit zero of every decimal-digit script
    (general category Nd); the nine following code points are 1..9. *)
Definition zeros : list N :=
  [0x30; 0x660; 0x6f0; 0x7c0; 0x966; 0x9e6; 0xa66; 0xae6; 0xb66; 0xbe6;
   0xc66; 0xce6; 0xd66; 0xde6; 0xe50; 0xed0; 0xf20; 0x1040; 0x1090;
   0x17e0; 0x1810; 0x1946; 0x19d0; 0x1a80; 0x1a90; 0x1b50; 0x1bb0;
   0x1c40; 0x1c50; 0xa620; 0xa8d0; 0xa900; 0xa9d0; 0xa9f0; 0xaa50;
   0xabf0; 0xff10; 0x104a0; 0x10d30; 0x11066; 0x110f0; 0x11136;
   0x111d0; 0x112f0; 0x11450; 0x114d0; 0x11650; 0x116c0; 0x11730;
   0x118e0; 0x11950; 0x11c50; 0x11d50; 0x11da0; 0x16a60; 0x16ac0;
   0x16b50; 0x1d7ce; 0x1d7d8; 0x1d7e2; 0x1d7ec; 0x1d7f6; 0x1e140;
   0x1e2f0; 0x1e950; 0x1fbf0]%N.

Definition in_run (c z : N) : bool := (z <=? c)%N && (c <? z + 10)%N.

(** The value of a decimal digit, [None] for any other character. *)
Definition digit_value (c : codepoint) : option Z :=
  match List.find (in_run c) zeros with
  | Some z => Some (Z.of_N (c - z))
  | None => None
  end.

(** [\d] *)
Definition is_digit (c : codepoint) : bool :=
  match digit_value c with Some _ => true | None => false end.

(** [\s] *)
Definition is_space (c : codepoint) : bool :=
  ((0x9 <=? c) && (c <=? 0xd) || (0x1c <=? c) && (c <=? 0x20)
   || (c =? 0x85) || (c =? 0xa0) || (c =? 0x1680)
   || (0x2000 <=? c) && (c <=? 0x200a)
   || (c =? 0x2028) || (c =? 0x2029) || (c =? 0x202f) || (c =? 0x205f)
   || (c =? 0x3000))%N.

End Unicode.

(** ** A backtracking matcher for the patterns handed to [re.search] *)

Module Re.

Inductive regex : Type :=
| Lit (s : pystr)                        (* literal text *)
| Cls (p : codepoint -> bool)            (* one character of a class *)
| Rep (p : codepoint -> bool) (min : nat) (* greedy class{min,} *)
| Opt (r : regex)                        (* greedy r? *)
| Cat (r1 r2 : regex)
| Alt (r1 r2 : regex)                    (* r1|r2, r1 tried first *)
| Grp (r : regex).                       (* capturing group 1 *)

(** A match object: the matched text and the text of group 1, [None]
    when the group did not take part in the match. *)
Record match_ := { group0 : pystr; group1 : option pystr }.

Section Matcher.
Context {R : Type}.

(** Greedy repetition: take as many as possible, give back one at a
    time while the rest of the pattern fails. *)
Fixpoint rep (p : codepoint -> bool) (min : nat) (n : nat) (s : pystr)
         (k : pystr -> option R) : option R :=
  let stop := if (min <=? n)%nat then k s else None in
  match s with
  | c :: s' =>
      if p c then
        match rep p min (S n) s' k with
        | Some r => Some r
        | None => stop
        end
      else stop
  | [] => stop
  end.

(** [go r s g k]: match [r] at the head of [s] with group state [g],
    then continue with [k] on the rest. *)
Fixpoint go (r : regex) (s : pystr) (g : option pystr)
         (k : pystr -> option pystr -> option R) : option R :=
  match r with
  | Lit l =>
      if Str.startswith l s then k (List.skipn (List.length l) s) g
      else None
  | Cls p =>
      match s with
      | c :: s' => if p c then k s' g else None
      | [] => None
      end
  | Rep p min => rep p min O s (fun s' => k s' g)
  | Opt r1 =>
      match go r1 s g k with
      | Some x => Some x
      | None => k s g
      end
  | Cat r1 r2 => go r1 s g (fun s' g' => go r2 s' g' k)
  | Alt r1 r2 =>
      match go r1 s g k with
      | Some x => Some x
      | None => go r2 s g k
      end
  | Grp r1 =>
      go r1 s g
         (fun s' _ =>
            k s' (Some (List.firstn (List.length s - List.length s') s)))
  end.
End Matcher.

(** [re.match]: anchored at the start of [s]. *)
Definition match_at (r : regex) (s : pystr) : option match_ :=
  go r s None
     (fun s' g =>
        Some {| group0 := List.firstn (List.length s - List.length s') s;
                group1 := g |}).

(** [re.search]: the match at the leftmost position that has one. *)
Fixpoint search (r : regex) (s : pystr) : option match_ :=
  match match_at r s with
  | Some m => Some m
  | None =>
      match s with
      | [] => None
      | _ :: s' => search r s'
      end
  end.

End Re.

(** ** [hashlib.md5] *)

Module MD5.

Definition K : list Z :=
  [0xd76aa478; 0xe8c7b756; 0x242070db; 0xc1bdceee;
   0xf57c0faf; 0x4787c62a; 0xa8304613; 0xfd469501;
   0x698098d8; 0x8b44f7af; 0xffff5bb1; 0x895cd7be;
   0x6b901122; 0xfd987193; 0xa679438e; 0x49b40821;
   0xf61e2562; 0xc040b340; 0x265e5a51; 0xe9b6c7aa;
   0xd62f105d; 0x02441453; 0xd8a1e681; 0xe7d3fbc8;
   0x21e1cde6; 0xc33707d6; 0xf4d50d87; 0x455a14ed;
   0xa9e3e905; 0xfcefa3f8; 0x676f02d9; 0x8d2a4c8a;
   0xfffa3942; 0x8771f681; 0x6d9d6122; 0xfde5380c;
   0xa4beea44; 0x4bdecfa9; 0xf6bb4b60; 0xbebfbc70;
   0x289b7ec6; 0xeaa127fa; 0xd4ef3085; 0x04881d05;
   0xd9d4d039; 0xe6db99e5; 0x1fa27cf8; 0xc4ac5665;
   0xf4292244; 0x432aff97; 0xab9423a7; 0xfc93a039;
   0x655b59c3; 0x8f0ccc92; 0xffeff47d; 0x85845dd1;
   0x6fa87e4f; 0xfe2ce6e0; 0xa3014314; 0x4e0811a1;
   0xf7537e82; 0xbd3af235; 0x2ad7d2bb; 0xeb86d391].

Definition shifts : list Z :=
  [7; 12; 17; 22; 7; 12; 17; 22; 7; 12; 17; 22; 7; 12; 17; 22;
   5; 9; 14; 20; 5; 9; 14; 20; 5; 9; 14; 20; 5; 9; 14; 20;
   4; 11; 16; 23; 4; 11; 16; 23; 4; 11; 16; 23; 4; 11; 16; 23;
   6; 10; 15; 21; 6; 10; 15; 21; 6; 10; 15; 21; 6; 10; 15; 21].

(** 32-bit words as [Z], reduced after every addition and rotation. *)
Definition wrap (x : Z) : Z := x mod 2 ^ 32.
Definition not32 (x : Z) : Z := Z.lxor x 0xffffffff.
Definition rotl (x c : Z) : Z :=
  wrap (Z.lor (Z.shiftl x c) (Z.shiftr x (32 - c))).

Definition nthZ (l : list Z) (i : Z) : Z := List.nth (Z.to_nat i) l 0.

(** Message padding: a 1 bit, zeros up to 56 mod 64, the bit length as
    a 64-bit little-endian number. *)
Definition le_bytes (n : nat) (x : Z) : list Z :=
  List.map (fun i => Z.shiftr x (8 * Z.of_nat i) mod 256) (List.seq 0 n).

Definition pad (msg : list Z) : list Z :=
  let len := Z.of_nat (List.length msg) in
  msg ++ [0x80] ++ List.repeat 0 (Z.to_nat ((55 - len) mod 64))
      ++ le_bytes 8 ((8 * len) mod 2 ^ 64).

Definition word_of (bs : list Z) : Z :=
  nthZ bs 0 + 256 * nthZ bs 1 + 65536 * nthZ bs 2 + 16777216 * nthZ bs 3.

Definition words_of (block : list Z) : list Z :=
  List.map (fun i => word_of (List.skipn (4 * i) block)) (List.seq 0 16).

Definition step (M : list Z) (st : Z * Z * Z * Z) (i : Z) : Z * Z * Z * Z :=
  let '(a, b, c, d) := st in
  let '(f, g) :=
    if i <? 16 then (Z.lor (Z.land b c) (Z.land (not32 b) d), i)
    else if i <? 32 then
      (Z.lor (Z.land d b) (Z.land (not32 d) c), (5 * i + 1) mod 16)
    else if i <? 48 then (Z.lxor b (Z.lxor c d), (3 * i + 5) mod 16)
    else (Z.lxor c (Z.lor b (not32 d)), (7 * i) mod 16) in
  let f' := wrap (f + a + nthZ K i + nthZ M g) in
  (d, wrap (b + rotl f' (nthZ shifts i)), b, c).

Definition compress (st : Z * Z * Z * Z) (block : list Z) : Z * Z * Z * Z :=
  let M := words_of block in
  let '(a, b, c, d) :=
    List.fold_left (step M) (List.map Z.of_nat (List.seq 0 64)) st in
  let '(a0, b0, c0, d0) := st in
  (wrap (a0 + a), wrap (b0 + b), wrap (c0 + c), wrap (d0 + d)).

Fixpoint blocks (n : nat) (bs : list Z) (st : Z * Z * Z * Z) : Z * Z * Z * Z :=
  match n with
  | O => st
  | S n' => blocks n' (List.skipn 64 bs) (compress st (List.firstn 64 bs))
  end.

Definition init : Z * Z * Z * Z :=
  (0x67452301, 0xefcdab89, 0x98badcfe, 0x10325476).

(** [md5(msg).digest()]: sixteen bytes. *)
Definition digest (msg : list Z) : list Z :=
  let p := pad msg in
  let '(a, b, c, d) := blocks (List.length p / 64)%nat p init in
  le_bytes 4 a ++ le_bytes 4 b ++ le_bytes 4 c ++ le_bytes 4 d.

Definition hex_digit (x : Z) : codepoint :=
  Z.to_N (if x <? 10 then 48 + x else 87 + x).

Definition hex_byte (b : Z) : pystr := [hex_digit (b / 16); hex_digit (b mod 16)].

(** [md5(msg).hexdigest()]: thirty-two lowercase hexadecimal digits. *)
Definition hexdigest (msg : list N) : pystr :=
  List.concat (List.map hex_byte (digest (List.map Z.of_N msg))).

End MD5.

(** ** Python exceptions *)

Record exn := Exn { exn_class : string; exn_msg : pystr }.

Inductive result (A : Type) : Type :=
| Ok (a : A)
| Raise (e : exn).
Arguments Ok {A} a.
Arguments Raise {A} e.

Definition rbind {A B} (m : result A) (f : A -> result B) : result B :=
  match m with
  | Ok a => f a
  | Raise e => Raise e
  end.

Declare Scope result_scope.
Delimit Scope result_scope with result.
Notation "x <- m ;; k" := (rbind m (fun x => k))
  (at level 100, m at next level, right associativity) : result_scope.

Definition TypeError : exn := Exn "TypeError" [].
Definition ValueError : exn := Exn "ValueError" [].
Definition AttributeError : exn := Exn "AttributeError" [].
Definition OverflowError : exn := Exn "OverflowError" [].
Definition ZeroDivisionError : exn := Exn "ZeroDivisionError" [].
Definition UnicodeEncodeError : exn := Exn "UnicodeEncodeError" [].

(** [s.encode()]: a lone surrogate has no UTF-8 form. *)
Definition is_surrogate (c : codepoint) : bool :=
  ((0xd800 <=? c) && (c <=? 0xdfff))%N.

Definition encode (s : pystr) : result (list N) :=
  if List.existsb is_surrogate s then Raise UnicodeEncodeError
  else Ok (Utf8.encode s).

(** ** [urllib.parse.urlparse(url).path]

    The splitting steps of [urlsplit] and [urlparse] that decide the
    path, and the tests on the network location that make them raise
    [ValueError]. A location in ASCII without brackets passes them, one
    with a single kind of bracket fails; what the library asks of the
    others (an IP literal between the brackets, no delimiter under NFKC
    normalisation) is its own business and comes as the parameter
    [strict]. *)

Module Url.

Definition is_c0_or_space (c : codepoint) : bool := (c <=? 0x20)%N.
Definition is_unsafe (c : codepoint) : bool :=
  (c =? 9)%N || (c =? 13)%N || (c =? 10)%N.

Definition is_ascii_alpha (c : codepoint) : bool :=
  ((65 <=? c) && (c <=? 90) || (97 <=? c) && (c <=? 122))%N.
Definition is_scheme_char (c : codepoint) : bool :=
  is_ascii_alpha c || ((48 <=? c) && (c <=? 57))%N
  || (c =? 43)%N || (c =? 45)%N || (c =? 46)%N.
Definition lower (c : codepoint) : codepoint :=
  if ((65 <=? c) && (c <=? 90))%N then (c + 32)%N else c.

Fixpoint lstrip (s : pystr) : pystr :=
  match s with
  | c :: s' => if is_c0_or_space c then lstrip s' else s
  | [] => []
  end.

Definition uses_params : list pystr :=
  List.map u [""; "ftp"; "hdl"; "prospero"; "http"; "imap"; "https";
              "shttp"; "rtsp"; "rtspu"; "sip"; "sips"; "mms"; "sftp";
              "tel"]%string.

(** [(scheme, rest)] *)
Definition split_scheme (url : pystr) : pystr * pystr :=
  match Str.find 58%N url, url with
  | Some (S i), c0 :: _ =>
      if is_ascii_alpha c0 && List.forallb is_scheme_char (List.firstn (S i) url)
      then (List.map lower (List.firstn (S i) url), List.skipn (S (S i)) url)
      else ([], url)
  | _, _ => ([], url)
  end.

Definition is_delim (c : codepoint) : bool :=
  (c =? 47)%N || (c =? 63)%N || (c =? 35)%N.

(** What is left after the network location. *)
Definition drop_netloc (url : pystr) : pystr :=
  if Str.startswith (u "//") url then
    let r := List.skipn 2 url in
    match Str.find_if is_delim r with
    | Some d => List.skipn d r
    | None => []
    end
  else url.

(** [s.split(c, 1)[0]] *)
Definition before (c : codepoint) (s : pystr) : pystr :=
  match Str.find c s with
  | Some i => List.firstn i s
  | None => s
  end.

(** [s.rfind(c)] *)
Fixpoint rfind (c : codepoint) (s : pystr) : option nat :=
  match s with
  | [] => None
  | d :: s' =>
      match rfind c s' with
      | Some i => Some (S i)
      | None => if (d =? c)%N then Some O else None
      end
  end.

Definition splitparams (url : pystr) : pystr :=
  match rfind 47%N url with
  | Some j =>
      match Str.find 59%N (List.skipn j url) with
      | Some i => List.firstn (j + i) url
      | None => url
      end
  | None => before 59%N url
  end.

(** The network location: what stands between [//] and the path. *)
Definition netloc (url : pystr) : pystr :=
  if Str.startswith (u "//") url then
    let r := List.skipn 2 url in
    match Str.find_if is_delim r with
    | Some d => List.firstn d r
    | None => r
    end
  else [].

Definition has (c : codepoint) (s : pystr) : bool :=
  List.existsb (fun d => (d =? c)%N) s.

Definition is_ascii (c : codepoint) : bool := (c <? 128)%N.

Definition netloc_ok (strict : pystr -> bool) (netloc : pystr) : bool :=
  let opening := has 91%N netloc in
  let closing := has 93%N netloc in
  if (opening && negb closing) || (closing && negb opening) then false
  else if negb opening && List.forallb is_ascii netloc then true
  else strict netloc.

Definition path (strict : pystr -> bool) (url0 : pystr) : result pystr :=
  let url := List.filter (fun c => negb (is_unsafe c)) (lstrip url0) in
  let '(scheme, rest) := split_scheme url in
  if netloc_ok strict (netloc rest) then
    let p := before 63%N (before 35%N (drop_netloc rest)) in
    Ok (if bool_decide (scheme ∈ uses_params) && bool_decide (59%N ∈ p)
        then splitparams p else p)
  else Raise ValueError.

End Url.

(** ** Python values *)

(** A [datetime] object, observed through its position on the time line
    (seconds) and its [isoformat()] text [YYYY-MM-DDTHH:MM:SS.ffffff]. *)
Record datetime := { seconds : Q; isoformat : pystr }.

(** [(b - a).total_seconds()] *)
Definition total_seconds (b a : datetime) : Q := (seconds b - seconds a)%Q.

Inductive pyval : Type :=
| PNone
| PBool (b : bool)
| PInt (z : Z)
| PFloat (q : Q)
| PStr (s : pystr)
| PDatetime (d : datetime)
| PList (l : list pystr)                     (* a list of strings *)
| PDict (d : list (string * option pystr)).  (* a dict of optional strings *)

(** A [dict] with string keys; [d.get(k, v)]. *)
Abbreviation pydict := (gmap string pyval).

Definition get (d : pydict) (k : string) (dflt : pyval) : pyval :=
  match d !! k with
  | Some v => v
  | None => dflt
  end.

(** The numeric value of a number; comparing anything else with a number
    raises [TypeError]. *)
Definition as_num (v : pyval) : result Q :=
  match v with
  | PBool b => Ok (if b then 1%Q else 0%Q)
  | PInt z => Ok (inject_Z z)
  | PFloat q => Ok q
  | _ => Raise TypeError
  end.

Module Parse.

(** The value of a run of decimal digits, most significant first. *)
Fixpoint digits (acc : Z) (s : pystr) : option Z :=
  match s with
  | [] => Some acc
  | c :: s' =>
      match Unicode.digit_value c with
      | Some d => digits (10 * acc + d) s'
      | None => None
      end
  end.

(** The interpreter's default limit on the length of a decimal text
    that [int] converts. *)
Definition max_str_digits : nat := 4300.

(** [int(s)] on the texts that the patterns capture (digits only):
    an empty text, a foreign character or more digits than the limit
    is a [ValueError]. *)
Definition int (s : pystr) : result Z :=
  match s with
  | [] => Raise ValueError
  | _ =>
      if (max_str_digits <? List.length s)%nat then Raise ValueError else
      match digits 0 s with
      | Some z => Ok z
      | None => Raise ValueError
      end
  end.

(** [float(s)] on the texts that the patterns capture: digits, an
    optional point, digits; at least one digit is required. *)
Definition float (s : pystr) : result Q :=
  let ip := Url.before 46%N s in
  let fp := List.skipn (S (List.length ip)) s in
  match ip ++ fp with
  | [] => Raise ValueError
  | _ =>
      match digits 0 ip, digits 0 fp with
      | Some a, Some b =>
          Ok (inject_Z a + inject_Z b / inject_Z (10 ^ Z.of_nat (List.length fp)))%Q
      | _, _ => Raise ValueError
      end
  end.

End Parse.

(** ** [json.dumps] on lists of strings and dicts of optional strings *)

Module Json.

Definition hex4 (x : N) : pystr :=
  List.map (fun i => MD5.hex_digit (Z.of_N (N.shiftr x (4 * i)) mod 16))
           [3; 2; 1; 0]%N.

Definition uescape (x : N) : pystr := [92; 117]%N ++ hex4 x.

Definition escape (c : codepoint) : pystr :=
  if (c =? 34)%N then [92; 34]%N
  else if (c =? 92)%N then [92; 92]%N
  else if (c =? 10)%N then [92; 110]%N
  else if (c =? 13)%N then [92; 114]%N
  else if (c =? 9)%N then [92; 116]%N
  else if (c =? 8)%N then [92; 98]%N
  else if (c =? 12)%N then [92; 102]%N
  else if ((32 <=? c) && (c <=? 126))%N then [c]
  else if (c <? 65536)%N then uescape c
  else
    let n := (c - 65536)%N in
    uescape (N.lor 0xd800 (N.land (N.shiftr n 10) 0x3ff))
    ++ uescape (N.lor 0xdc00 (N.land n 0x3ff)).

Definition str (s : pystr) : pystr :=
  [34%N] ++ List.concat (List.map escape s) ++ [34%N].

Fixpoint join (sep : pystr) (l : list pystr) : pystr :=
  match l with
  | [] => []
  | [x] => x
  | x :: l' => x ++ sep ++ join sep l'
  end.

Definition opt_str (v : option pystr) : pystr :=
  match v with
  | Some s => str s
  | None => u "null"
  end.

Definition dumps_list (l : list pystr) : pystr :=
  u "[" ++ join (u ", ") (List.map str l) ++ u "]".

Definition dumps_dict (d : list (string * option pystr)) : pystr :=
  u "{" ++ join (u ", ")
             (List.map (fun kv => str (u kv.1) ++ u ": " ++ opt_str kv.2) d)
    ++ u "}".

End Json.

(** [x in container]: substring on a string, membership on a list, key
    membership on a dict; [TypeError] on anything else. *)
Definition py_in (x : pystr) (c : pyval) : result bool :=
  match c with
  | PStr s => Ok (Str.contains x s)
  | PList l => Ok (bool_decide (x ∈ l))
  | PDict d => Ok (bool_decide (x ∈ List.map (fun kv => u kv.1) d))
  | _ => Raise TypeError
  end.

(** [round(x, 2)]: to the nearest multiple of 1/100, ties to even. *)
Definition round_half_even (q : Q) : Z :=
  let fl := Qfloor q in
  match (q - inject_Z fl ?= 1 # 2)%Q with
  | Lt => fl
  | Gt => fl + 1
  | Eq => if Z.even fl then fl else fl + 1
  end.

Definition round2 (q : Q) : Q := (inject_Z (round_half_even (q * 100)) / 100)%Q.

(** ** Python floats

    A [float] is an IEEE 754 binary64 number: 53 significant bits, the
    exponent of the last bit between -1074 and 971. An operation
    returns the double nearest to its exact result, ties to even, and an
    infinity when that lies beyond the largest double. *)

Module Float.

Inductive double : Type :=
| Finite (q : Q)
| Infinity (negative : bool).

(** [floor (log2 q)] for a positive [q]. *)
Definition ilog2 (q : Q) : Z :=
  let k := Z.log2 (Qnum q) - Z.log2 (Zpos (Qden q)) in
  if Qle_bool (2 ^ k) q then k else k - 1.

(** The doubles around a positive [q] are the multiples of
    [2 ^ ulp_exp q]. *)
Definition ulp_exp (q : Q) : Z := Z.max (ilog2 q) (-1022) - 52.

Definition round_pos (q : Q) : Q :=
  let ulp := (2 ^ ulp_exp q)%Q in
  Qred (inject_Z (round_half_even (q / ulp)) * ulp).

(** The largest double. *)
Definition max_value : Q := inject_Z (2 ^ 1024 - 2 ^ 971).

Definition round (q : Q) : double :=
  match (q ?= 0)%Q with
  | Eq => Finite 0
  | Gt =>
      let r := round_pos q in
      if Qle_bool r max_value then Finite r else Infinity false
  | Lt =>
      let r := round_pos (- q) in
      if Qle_bool r max_value then Finite (- r) else Infinity true
  end.

(** [x <= t] for a float [x] and a finite number [t]. *)
Definition le (x : double) (t : Q) : bool :=
  match x with
  | Finite q => Qle_bool q t
  | Infinity negative => negative
  end.

(** [x <= y] on two floats. *)
Definition leb (x y : double) : bool :=
  match x, y with
  | Infinity true, _ => true
  | _, Infinity false => true
  | Finite a, Finite b => Qle_bool a b
  | _, _ => false
  end.

Local Open Scope result_scope.

(** [float(n)] for an [int]: too large an integer is an
    [OverflowError]. *)
Definition of_int (z : Z) : result Q :=
  match round (inject_Z z) with
  | Finite q => Ok q
  | Infinity _ => Raise OverflowError
  end.

Inductive number : Type :=
| Int (z : Z)
| Flt (q : Q).

(** A [bool] is an [int]. *)
Definition number_of (v : pyval) : result number :=
  match v with
  | PBool b => Ok (Int (if b then 1 else 0))
  | PInt z => Ok (Int z)
  | PFloat q => Ok (Flt q)
  | _ => Raise TypeError
  end.

(** [x / y] on two floats. *)
Definition fdiv (x y : Q) : result double :=
  if Qeq_bool y 0 then Raise ZeroDivisionError else Ok (round (x / y)).

Definition value (n : number) : Q :=
  match n with
  | Int z => inject_Z z
  | Flt q => q
  end.

(** [a / b]: two integers give the double nearest to their quotient,
    or an [OverflowError]; otherwise an integer operand is converted to
    a float first. *)
Definition divide (a b : number) : result double :=
  match a, b with
  | Int x, Int y =>
      if (y =? 0)%Z then Raise ZeroDivisionError else
      match round (inject_Z x / inject_Z y) with
      | Finite q => Ok (Finite q)
      | Infinity _ => Raise OverflowError
      end
  | Int x, Flt y => x' <- of_int x;; fdiv x' y
  | Flt x, Int y => y' <- of_int y;; fdiv x y'
  | Flt x, Flt y => fdiv x y
  end.

Definition truediv (a b : pyval) : result double :=
  a <- number_of a;;
  b <- number_of b;;
  divide a b.

(** What can go wrong in [f"{v:.1f}"]: an [int] is converted to a
    float before it is formatted. *)
Definition format_fixed (v : pyval) : result unit :=
  match v with
  | PInt z => _ <- of_int z;; Ok tt
  | PBool _ | PFloat _ => Ok tt
  | PStr _ => Raise ValueError
  | _ => Raise TypeError
  end.

End Float.

(** * src/ranking.py *)

Module Ranking.

Record criteria := Criteria
  { excellent : Q; very_good : Q; good : Q; fair : Q; poor : Q }.

Record thresholds := Thresholds
  { th_S : Q; th_A : Q; th_B : Q; th_C : Q; th_D : Q }.

Record ranking_weights := Weights
  { w_price : Q; w_location : Q; w_area : Q; w_investment : Q }.

(** The fields set by [PropertyRanker.__init__]. The two tables of
    [investment_criteria] are the items (threshold, score) of its
    entries for the building-coverage and the floor-area ratio; a
    missing entry is the empty table. *)
Record PropertyRanker := Ranker
  { rank_thresholds : thresholds;
    weights : ranking_weights;
    price_criteria : criteria;
    premium_areas : list pystr;
    station_criteria : criteria;
    area_criteria : criteria;
    coverage_table : list (Q * Q);
    ratio_table : list (Q * Q) }.

(** [a <= b], [a >= b], [a > b] on numbers. *)
Definition le (a b : Q) : bool := Qle_bool a b.
Definition ge (a b : Q) : bool := Qle_bool b a.
Definition gt (a b : Q) : bool := negb (Qle_bool a b).

(** [try: ... except Exception: return dflt] *)
Definition or_default (dflt : Q) (r : result Q) : Q :=
  match r with
  | Ok x => x
  | Raise _ => dflt
  end.

Section Ranker.
Variable self : PropertyRanker.
Local Open Scope result_scope.

(** The ascending cascade of [_evaluate_price] and of the station
    distance. *)
Definition ascending_bands (c : criteria) (x : Q) : Q :=
  if le x (excellent c) then 100%Q
  else if le x (very_good c) then 80%Q
  else if le x (good c) then 60%Q
  else if le x (fair c) then 40%Q
  else if le x (poor c) then 20%Q
  else 10%Q.

(** The cascade of [_evaluate_price] on the quotient, a float. *)
Definition price_bands (c : criteria) (x : Float.double) : Q :=
  if Float.le x (excellent c) then 100%Q
  else if Float.le x (very_good c) then 80%Q
  else if Float.le x (good c) then 60%Q
  else if Float.le x (fair c) then 40%Q
  else if Float.le x (poor c) then 20%Q
  else 10%Q.

Definition _evaluate_price (property_data : pydict) : Q :=
  or_default 50%Q
    (let price_numeric := get property_data "price_numeric" (PInt 0) in
     let land_area_tsubo := get property_data "land_area_tsubo" (PInt 0) in
     p <- as_num price_numeric;;
     if le p 0 then Ok 50%Q else
     a <- as_num land_area_tsubo;;
     if le a 0 then Ok 50%Q else
     price_per_tsubo <- Float.truediv price_numeric land_area_tsubo;;
     Ok (price_bands (price_criteria self) price_per_tsubo)).

(** The [for premium_area in self.premium_areas] loop with its
    [break]. *)
Fixpoint premium_area_score (areas : list pystr) (address : pyval) : result Q :=
  match areas with
  | [] => Ok 50%Q
  | premium_area :: rest =>
      hit <- py_in premium_area address;;
      if hit then Ok 100%Q else premium_area_score rest address
  end.

Definition station_score (walk_minutes : pyval) : result Q :=
  match walk_minutes with
  | PNone => Ok 30%Q
  | _ =>
      m <- as_num walk_minutes;;
      Ok (ascending_bands (station_criteria self) m)
  end.

Definition _evaluate_location (property_data : pydict) : Q :=
  or_default 50%Q
    (let address := get property_data "address" (PStr []) in
     let walk_minutes := get property_data "walk_minutes" PNone in
     area_score <- premium_area_score (premium_areas self) address;;
     station <- station_score walk_minutes;;
     Ok (area_score * 0.5 + station * 0.5)%Q).

(** The descending cascade of [_evaluate_area]. *)
Definition descending_bands (c : criteria) (x : Q) : Q :=
  if ge x (excellent c) then 100%Q
  else if ge x (very_good c) then 80%Q
  else if ge x (good c) then 60%Q
  else if ge x (fair c) then 40%Q
  else if ge x (poor c) then 20%Q
  else 10%Q.

(** The score is computed first; the debug line that follows formats
    the area with [.1f], still inside the [try]. *)
Definition _evaluate_area (property_data : pydict) : Q :=
  or_default 30%Q
    (let land_area_tsubo := get property_data "land_area_tsubo" (PInt 0) in
     a <- as_num land_area_tsubo;;
     if le a 0 then Ok 30%Q else
     let score := descending_bands (area_criteria self) a in
     _ <- Float.format_fixed land_area_tsubo;;
     Ok score).

(** [sorted(table.items(), reverse=True)]: descending pairs. *)
Definition pair_ge (a b : Q * Q) : bool :=
  gt a.1 b.1 || (Qeq_bool a.1 b.1 && ge a.2 b.2).

Fixpoint insert_desc (x : Q * Q) (l : list (Q * Q)) : list (Q * Q) :=
  match l with
  | [] => [x]
  | y :: l' => if pair_ge x y then x :: l else y :: insert_desc x l'
  end.

Definition sorted_desc (l : list (Q * Q)) : list (Q * Q) :=
  List.fold_right insert_desc [] l.

(** The threshold loop with its [break]: the score of the highest
    threshold that the value reaches, 50 when it reaches none. *)
Definition table_score (table : list (Q * Q)) (value : Q) : Q :=
  match List.find (fun ts => ge value ts.1) (sorted_desc table) with
  | Some ts => ts.2
  | None => 50%Q
  end.

(** The chain of containment tests on the zoning text. *)
Definition usage_score (usage_area : pyval) : result Q :=
  c1 <- py_in (u "商業") usage_area;;
  if c1 then Ok 90%Q else
  c2 <- py_in (u "近隣商業") usage_area;;
  if c2 then Ok 80%Q else
  c3 <- py_in (u "準工業") usage_area;;
  if c3 then Ok 70%Q else
  c4 <- py_in (u "第一種住居") usage_area;;
  c4' <- (if c4 then Ok true else py_in (u "第二種住居") usage_area);;
  if c4' then Ok 60%Q else
  c5 <- py_in (u "第一種低層") usage_area;;
  c5' <- (if c5 then Ok true else py_in (u "第二種低層") usage_area);;
  if c5' then Ok 40%Q else
  Ok 50%Q.

(** The list [scores] just before the average is taken. *)
Definition investment_scores (property_data : pydict) : result (list Q) :=
  let building_coverage := get property_data "building_coverage" (PInt 0) in
  let floor_area_ratio := get property_data "floor_area_ratio" (PInt 0) in
  let usage_area := get property_data "usage_area" (PStr []) in
  bc <- as_num building_coverage;;
  let scores1 :=
    if gt bc 0 then [table_score (coverage_table self) bc] else [] in
  far <- as_num floor_area_ratio;;
  let scores2 :=
    if gt far 0 then scores1 ++ [table_score (ratio_table self) far]
    else scores1 in
  us <- usage_score usage_area;;
  Ok (scores2 ++ [us]).

Definition sum (l : list Q) : Q := List.fold_left Qplus l 0%Q.

Definition _evaluate_investment (property_data : pydict) : Q :=
  or_default 50%Q
    (scores <- investment_scores property_data;;
     match scores with
     | [] => Ok 50%Q
     | _ => Ok (sum scores / inject_Z (Z.of_nat (List.length scores)))%Q
     end).

Definition _determine_grade (total_score : Q) : pystr :=
  if ge total_score (th_S (rank_thresholds self)) then u "S"
  else if ge total_score (th_A (rank_thresholds self)) then u "A"
  else if ge total_score (th_B (rank_thresholds self)) then u "B"
  else if ge total_score (th_C (rank_thresholds self)) then u "C"
  else u "D".

(** The weighted sum computed by [calculate_rank]. *)
Definition total_score (property_data : pydict) : Q :=
  (_evaluate_price property_data * w_price (weights self)
   + _evaluate_location property_data * w_location (weights self)
   + _evaluate_area property_data * w_area (weights self)
   + _evaluate_investment property_data * w_investment (weights self))%Q.

Definition calculate_rank (property_data : pydict) : pydict :=
  let price_score := _evaluate_price property_data in
  let location_score := _evaluate_location property_data in
  let area_score := _evaluate_area property_data in
  let investment_score := _evaluate_investment property_data in
  let total := total_score property_data in
  let rank_grade := _determine_grade total in
  <["ranking_score" := PFloat (round2 total)]>
  (<["ranking_grade" := PStr rank_grade]>
  (<["price_evaluation" := PFloat (round2 price_score)]>
  (<["location_evaluation" := PFloat (round2 location_score)]>
  (<["area_evaluation" := PFloat (round2 area_score)]>
  (<["investment_evaluation" := PFloat (round2 investment_score)]> ∅))))).

End Ranker.

(** The pattern [ [\d,]+ ], the default of [parse_numeric_value]. *)
Definition numeric_pattern : Re.regex :=
  Re.Rep (fun c => Unicode.is_digit c || (c =? 44)%N) 1.

(** [parse_numeric_value] called with its default pattern. A text
    that is empty or [None] gives [None]; whatever is raised further
    on (a value without [replace], a text that [float] refuses) is
    swallowed by the bare [except] and gives [None] as well. [float]
    returns the double nearest to the number written, an infinity when
    the number is beyond the doubles. *)
Definition parse_numeric_value (text : pyval) : option Float.double :=
  match text with
  | PStr (c :: s) =>
      match Re.search numeric_pattern (Str.remove_char 44%N (c :: s)) with
      | Some m =>
          match Parse.float (Re.group0 m) with
          | Ok x => Some (Float.round x)
          | Raise _ => None
          end
      | None => None
      end
  | _ => None
  end.

End Ranking.

(** * config/athome_scraper_config.py *)

Module Config.
Import Ranking.

Definition RANK_THRESHOLDS : thresholds := Thresholds 90 80 70 60 0.
Definition RANKING_WEIGHTS : ranking_weights := Weights 0.30 0.30 0.20 0.20.
Definition PRICE_CRITERIA : criteria := Criteria 10 15 20 25 30.
Definition PREMIUM_AREAS : list pystr :=
  List.map u ["中央町"; "府内町"; "都町"; "金池町"; "末広町";
              "千代町"; "大手町"; "荷揚町"; "長浜町"; "錦町";
              "城崎町"; "東大道"; "西大道"; "大道町"; "萩原"]%string.
Definition STATION_DISTANCE_CRITERIA : criteria := Criteria 5 10 15 20 30.
Definition AREA_CRITERIA : criteria := Criteria 100 70 50 30 20.
Definition INVESTMENT_CRITERIA_coverage : list (Q * Q) :=
  [(80, 100); (70, 80); (60, 60); (50, 40)]%Q.
Definition INVESTMENT_CRITERIA_ratio : list (Q * Q) :=
  [(400, 100); (300, 80); (200, 60); (150, 40)]%Q.

Definition config : PropertyRanker :=
  Ranker RANK_THRESHOLDS RANKING_WEIGHTS PRICE_CRITERIA PREMIUM_AREAS
         STATION_DISTANCE_CRITERIA AREA_CRITERIA
         INVESTMENT_CRITERIA_coverage INVESTMENT_CRITERIA_ratio.

End Config.

(** * src/database.py

    The SQLite file is the value [PropertyDatabase]: the rows of the two
    tables that the class writes, in rowid order, a row being the map
    from its column names to their values.

    The statements of [upsert_property] and [log_scraping] are built
    from the keys of the incoming dict. The model reads a key as a
    column name only when it is spelled as the schema spells the
    column, and it stores a value as it was bound. SQLite itself reads
    a key as a piece of SQL (so that it also accepts other spellings of
    a column) and converts a bound value by the type affinity of its
    column; [column_affinity] records the affinities of the schema, and
    the statements about stored values are made for the dicts whose
    values SQLite stores as bound ([DatabaseSpec.stored_as_bound]), as
    it does with all that the scraper builds. *)

Module Database.

Inductive sqlval : Type :=
| VNull
| VInt (z : Z)
| VReal (q : Q)
| VText (s : pystr).

Abbreviation row := (gmap string sqlval).

Definition col (r : row) (c : string) : sqlval :=
  match r !! c with
  | Some v => v
  | None => VNull
  end.

Record PropertyDatabase := Db
  { properties : list row;
    properties_seq : Z;        (* AUTOINCREMENT counter of [properties] *)
    scraping_logs : list row;
    scraping_logs_seq : Z }.

(** The rowid given to a row inserted without one: one more than the
    largest rowid that the table holds or has ever handed out. *)
Definition max_id (rows : list row) : Z :=
  List.fold_right (fun r acc =>
                     match col r "id" with
                     | VInt n => Z.max n acc
                     | _ => acc
                     end) 0 rows.

Definition next_rowid (seq : Z) (rows : list row) : Z :=
  Z.max seq (max_id rows) + 1.

Definition properties_columns : list string :=
  ["id"; "property_id"; "url"; "title"; "price"; "price_numeric";
   "address"; "land_area"; "land_area_tsubo"; "land_area_m2";
   "nearest_station"; "walk_time"; "walk_minutes"; "building_coverage";
   "floor_area_ratio"; "land_rights"; "city_planning"; "usage_area";
   "contact_info"; "features"; "description"; "image_urls";
   "ranking_score"; "ranking_grade"; "price_evaluation";
   "location_evaluation"; "area_evaluation"; "investment_evaluation";
   "scraped_at"; "updated_at"; "is_active"; "raw_data"]%string.

Definition scraping_logs_columns : list string :=
  ["id"; "execution_time"; "total_properties"; "new_properties";
   "updated_properties"; "deactivated_properties"; "errors"; "status";
   "message"; "duration_seconds"]%string.



Definition OperationalError : exn := Exn "sqlite3.OperationalError" [].
Definition IntegrityError : exn := Exn "sqlite3.IntegrityError" [].
Definition ProgrammingError : exn := Exn "sqlite3.ProgrammingError" [].

(** The text bound for a [datetime] parameter: [isoformat(" ")]. *)
Definition adapt_datetime (d : datetime) : pystr :=
  List.firstn 10 (isoformat d) ++ [32%N] ++ List.skipn 11 (isoformat d).

(** Binding of a Python value to a statement parameter. *)
Definition adapt (v : pyval) : result sqlval :=
  match v with
  | PNone => Ok VNull
  | PBool b => Ok (VInt (if b then 1 else 0))
  | PInt z =>
      if (- 2 ^ 63 <=? z) && (z <? 2 ^ 63) then Ok (VInt z)
      else Raise OverflowError
  | PFloat q => Ok (VReal q)
  | PStr s => Ok (VText s)
  | PDatetime d => Ok (VText (adapt_datetime d))
  | PList _ | PDict _ => Raise ProgrammingError
  end.

(** [a = b] in a WHERE clause; NULL compares equal to nothing. *)
Definition sql_eq (a b : sqlval) : bool :=
  match a, b with
  | VInt x, VInt y => x =? y
  | VInt x, VReal y => Qeq_bool (inject_Z x) y
  | VReal x, VInt y => Qeq_bool x (inject_Z y)
  | VReal x, VReal y => Qeq_bool x y
  | VText x, VText y => Str.eqb x y
  | _, _ => false
  end.

(** [x NOT IN (?, ..., ?)] with text parameters. *)
Definition sql_not_in (x : sqlval) (ids : list pystr) : bool :=
  match x with
  | VNull => false
  | VText s => negb (bool_decide (s ∈ ids))
  | _ => true
  end.

Definition is_null (v : sqlval) : bool :=
  match v with VNull => true | _ => false end.

(** The constraints of the table [properties]: NOT NULL on
    [property_id], [url], [title]; an integer primary key [id];
    UNIQUE on [id] and on [property_id]. *)
Definition row_ok (r : row) : bool :=
  negb (is_null (col r "property_id")) && negb (is_null (col r "url"))
  && negb (is_null (col r "title"))
  && match col r "id" with VInt _ => true | _ => false end.

Fixpoint distinct_on (c : string) (rows : list row) : bool :=
  match rows with
  | [] => true
  | r :: rest =>
      negb (List.existsb (fun r' => sql_eq (col r c) (col r' c)) rest)
      && distinct_on c rest
  end.

Definition constraints_ok (rows : list row) : bool :=
  List.forallb row_ok rows && distinct_on "id" rows
  && distinct_on "property_id" rows.

(** The two conversions to JSON text at the head of [upsert_property];
    they are written back into the caller's dict. *)
Definition jsonify (property_data : pydict) : pydict :=
  let d1 :=
    match property_data !! "image_urls" with
    | Some (PList l) => <["image_urls" := PStr (Json.dumps_list l)]> property_data
    | _ => property_data
    end in
  match d1 !! "raw_data" with
  | Some (PDict d) => <["raw_data" := PStr (Json.dumps_dict d)]> d1
  | _ => d1
  end.

Local Open Scope result_scope.

(** Preparing and binding [col = ?, ...] or [(col, ...) VALUES (?, ...)]
    for the items of a dict: unknown column names are rejected when the
    statement is prepared, unsupported values when they are bound. *)
Fixpoint bind_all (items : list (string * pyval)) : result (list (string * sqlval)) :=
  match items with
  | [] => Ok []
  | (k, v) :: rest =>
      v' <- adapt v;;
      rest' <- bind_all rest;;
      Ok ((k, v') :: rest')
  end.

Definition prepare (columns : list string) (d : pydict) : result (list (string * sqlval)) :=
  let items := map_to_list d in
  if List.forallb (fun kv => bool_decide (kv.1 ∈ columns)) items
  then bind_all items
  else Raise OperationalError.

Definition assign (r : row) (sets : list (string * sqlval)) : row :=
  List.fold_left (fun acc kv => <[kv.1 := kv.2]> acc) sets r.

Definition null_row (columns : list string) : row :=
  List.fold_left (fun acc c => <[c := VNull]> acc) columns ∅.

(** [self] is the database before the call, [now] the value of
    [datetime.now()], [current_timestamp] SQLite's CURRENT_TIMESTAMP.
    The result carries the dict as the call leaves it and the database
    after the commit; when the call raises, the transaction is rolled
    back and the database is the one before the call. *)
Definition upsert_property (self : PropertyDatabase) (now : datetime)
           (current_timestamp : pystr) (property_data : pydict)
  : result (bool * pyval * pydict * PropertyDatabase) :=
  let property_id := get property_data "property_id" PNone in
  pid <- adapt property_id;;
  let existing :=
    List.find (fun r => sql_eq (col r "property_id") pid) (properties self) in
  let property_data := jsonify property_data in
  match existing with
  | Some _ =>
      let fields := delete "property_id" property_data in
      if bool_decide (fields = ∅) then Raise OperationalError else
      sets <- prepare properties_columns fields;;
      updated_at <- adapt (PDatetime now);;
      let rows :=
        List.map (fun r =>
                    if sql_eq (col r "property_id") pid
                    then <["updated_at" := updated_at]> (assign r sets)
                    else r) (properties self) in
      if constraints_ok rows
      then Ok (false, property_id, property_data,
               Db rows (properties_seq self)
                  (scraping_logs self) (scraping_logs_seq self))
      else Raise IntegrityError
  | None =>
      if bool_decide (property_data = ∅) then Raise OperationalError else
      sets <- prepare properties_columns property_data;;
      let defaults :=
        <["scraped_at" := VText current_timestamp]>
        (<["updated_at" := VText current_timestamp]>
        (<["is_active" := VInt 1]> (null_row properties_columns))) in
      let r0 := assign defaults sets in
      let r :=
        if is_null (col r0 "id")
        then <["id" := VInt (next_rowid (properties_seq self) (properties self))]> r0
        else r0 in
      let rows := properties self ++ [r] in
      if constraints_ok rows
      then Ok (true, property_id, property_data,
               Db rows
                  (match col r "id" with
                   | VInt n => Z.max (properties_seq self) n
                   | _ => properties_seq self
                   end)
                  (scraping_logs self) (scraping_logs_seq self))
      else Raise IntegrityError
  end.

Definition is_active (r : row) : bool := sql_eq (col r "is_active") (VInt 1).

(** The WHERE clause of [deactivate_old_properties]. *)
Definition is_old (active_property_ids : list pystr) (r : row) : bool :=
  match active_property_ids with
  | _ :: _ => sql_not_in (col r "property_id") active_property_ids && is_active r
  | [] => is_active r
  end.

Definition deactivate_old_properties (self : PropertyDatabase) (now : datetime)
           (active_property_ids : list pystr) : Z * PropertyDatabase :=
  let updated_at := VText (adapt_datetime now) in
  let rows :=
    List.map (fun r =>
                if is_old active_property_ids r
                then <["updated_at" := updated_at]> (<["is_active" := VInt 0]> r)
                else r) (properties self) in
  let deactivated :=
    Z.of_nat (List.length (List.filter (is_old active_property_ids) (properties self))) in
  (deactivated,
   Db rows (properties_seq self) (scraping_logs self) (scraping_logs_seq self)).

(** An empty dict makes the statement [INSERT INTO scraping_logs ()
    VALUES ()], which SQLite refuses as a syntax error. *)
Definition log_scraping (self : PropertyDatabase) (current_timestamp : pystr)
           (log_data : pydict) : result PropertyDatabase :=
  if bool_decide (log_data = ∅) then Raise OperationalError else
  sets <- prepare scraping_logs_columns log_data;;
  let defaults :=
    <["execution_time" := VText current_timestamp]>
    (<["total_properties" := VInt 0]>
    (<["new_properties" := VInt 0]>
    (<["updated_properties" := VInt 0]>
    (<["deactivated_properties" := VInt 0]>
    (<["errors" := VInt 0]> (null_row scraping_logs_columns)))))) in
  let r0 := assign defaults sets in
  match col r0 "id" with
  | VNull =>
      let n := next_rowid (scraping_logs_seq self) (scraping_logs self) in
      Ok (Db (properties self) (properties_seq self)
             (scraping_logs self ++ [<["id" := VInt n]> r0]) n)
  | VInt n =>
      if List.existsb (fun r' => sql_eq (col r' "id") (VInt n)) (scraping_logs self)
      then Raise IntegrityError
      else Ok (Db (properties self) (properties_seq self)
                  (scraping_logs self ++ [r0])
                  (Z.max (scraping_logs_seq self) n))
  | _ => Raise IntegrityError
  end.

(** ** The queries *)

(** The Python value that a fetched column holds. *)
Definition to_python (v : sqlval) : pyval :=
  match v with
  | VNull => PNone
  | VInt z => PInt z
  | VReal q => PFloat q
  | VText s => PStr s
  end.

(** [x IN (?, ..., ?)] with text parameters. *)
Definition sql_in (x : sqlval) (values : list pystr) : bool :=
  match x with
  | VText s => bool_decide (s ∈ values)
  | _ => false
  end.

(** The order of texts under the BINARY collation: byte by byte in
    UTF-8, which is the order of the code points. *)
Fixpoint text_compare (a b : pystr) : comparison :=
  match a, b with
  | [], [] => Eq
  | [], _ :: _ => Lt
  | _ :: _, [] => Gt
  | x :: a', y :: b' =>
      match (x ?= y)%N with
      | Eq => text_compare a' b'
      | c => c
      end
  end.

(** The order that ORDER BY sorts by: NULL, then the numbers by
    value, then the texts. *)
Definition sql_compare (a b : sqlval) : comparison :=
  match a, b with
  | VNull, VNull => Eq
  | VNull, _ => Lt
  | _, VNull => Gt
  | VInt x, VInt y => (x ?= y)%Z
  | VInt x, VReal y => (inject_Z x ?= y)%Q
  | VReal x, VInt y => (x ?= inject_Z y)%Q
  | VReal x, VReal y => (x ?= y)%Q
  | VText x, VText y => text_compare x y
  | VText _, _ => Gt
  | _, VText _ => Lt
  end.

(** [r1] may stand before [r2] under ORDER BY c1 DESC, ..., cn DESC. *)
Fixpoint desc_by (columns : list string) (r1 r2 : row) : bool :=
  match columns with
  | [] => true
  | c :: rest =>
      match sql_compare (col r1 c) (col r2 c) with
      | Gt => true
      | Lt => false
      | Eq => desc_by rest r1 r2
      end
  end.

(** The rows in the order of an ORDER BY clause. SQLite leaves the
    order of rows that the clause does not tell apart open; here they
    keep the order of the table. *)
Fixpoint insert_row (before : row -> row -> bool) (r : row) (l : list row)
  : list row :=
  match l with
  | [] => [r]
  | r' :: l' => if before r r' then r :: l else r' :: insert_row before r l'
  end.

Definition order_by (before : row -> row -> bool) (rows : list row) : list row :=
  List.fold_right (insert_row before) [] rows.

(** The rows that [get_active_properties] fetches; a filter that is
    [None] or empty is no filter. *)
Definition active_rows (self : PropertyDatabase) (rank_filter : option (list pystr))
  : list row :=
  let selected :=
    match rank_filter with
    | Some (g :: gs) =>
        List.filter (fun r => is_active r && sql_in (col r "ranking_grade") (g :: gs))
                    (properties self)
    | _ => List.filter is_active (properties self)
    end in
  order_by (desc_by ["ranking_score"; "scraped_at"]%string) selected.

Section Decode.
(** The values that [json.loads] builds, and [json.loads] itself on a
    text, [None] when it raises. *)
Context {J : Type}.
Variable loads : pystr -> option J.

(** A value of the dict made from a fetched row: the column as it was
    fetched, or what [json.loads] made of it. *)
Inductive field : Type :=
| Plain (v : pyval)
| Decoded (j : J).

(** [dict(row)] for a row of SELECT * FROM properties. *)
Definition dict_of_row (r : row) : gmap string field :=
  list_to_map ((fun c => (c, Plain (to_python (col r c)))) <$> properties_columns).

(** [if data.get(key): try: data[key] = json.loads(data[key])
    except: pass]; a number is not a text that [json.loads] takes. *)
Definition decode_json (key : string) (data : gmap string field)
  : gmap string field :=
  match data !! key with
  | Some (Plain (PStr (c :: s))) =>
      match loads (c :: s) with
      | Some j => <[key := Decoded j]> data
      | None => data
      end
  | _ => data
  end.

Definition decoded (r : row) : gmap string field :=
  decode_json "raw_data" (decode_json "image_urls" (dict_of_row r)).

Definition get_property (self : PropertyDatabase) (property_id : pyval)
  : result (option (gmap string field)) :=
  pid <- adapt property_id;;
  match List.find (fun r => sql_eq (col r "property_id") pid) (properties self) with
  | Some r => Ok (Some (decoded r))
  | None => Ok None
  end.

Definition get_active_properties (self : PropertyDatabase)
           (rank_filter : option (list pystr)) : list (gmap string field) :=
  decoded <$> active_rows self rank_filter.

Definition fieldnames : list string :=
  ["property_id"; "title"; "price"; "address"; "land_area"; "land_area_tsubo";
   "nearest_station"; "walk_time"; "ranking_grade"; "ranking_score";
   "price_evaluation"; "location_evaluation"; "area_evaluation";
   "investment_evaluation"; "url"; "scraped_at"]%string.

(** [export_to_csv]: what is handed to the CSV writer, the header and
    for every property the cells of the named fields ([None] for a
    field that the dict lacks); nothing is written when there is no
    property to export. *)
Definition export_to_csv (self : PropertyDatabase) (rank_filter : option (list pystr))
  : option (list string * list (list (option field))) :=
  match get_active_properties self rank_filter with
  | [] => None
  | properties =>
      Some (fieldnames, (fun p => (fun k => p !! k) <$> fieldnames) <$> properties)
  end.

End Decode.

(** GROUP BY: NULLs form one group, numbers group by value. *)
Definition same_group (a b : sqlval) : bool :=
  match sql_compare a b with
  | Eq => true
  | _ => false
  end.

Fixpoint count_in_group (key : sqlval) (groups : list (sqlval * Z))
  : list (sqlval * Z) :=
  match groups with
  | [] => [(key, 1)]
  | (k, n) :: rest =>
      if same_group k key then (k, n + 1) :: rest
      else (k, n) :: count_in_group key rest
  end.

(** SELECT c, COUNT( * ) ... GROUP BY c, the groups in the order in
    which the table first shows them. *)
Definition group_count (c : string) (rows : list row) : list (sqlval * Z) :=
  List.fold_left (fun groups r => count_in_group (col r c) groups) rows [].

Record statistics := Statistics
  { total_active_properties : Z;
    properties_by_rank : list (pyval * Z);
    last_scraping : option pydict;
    high_rank_properties : list pydict }.

Definition get_statistics (self : PropertyDatabase) : statistics :=
  let active := List.filter is_active (properties self) in
  {| total_active_properties := Z.of_nat (List.length active);
     properties_by_rank :=
       (fun kn => (to_python kn.1, kn.2)) <$> group_count "ranking_grade" active;
     last_scraping :=
       match order_by (desc_by ["execution_time"]%string) (scraping_logs self) with
       | r :: _ =>
           Some (<["time" := to_python (col r "execution_time")]>
                 (<["new_properties" := to_python (col r "new_properties")]>
                 (<["total_properties" := to_python (col r "total_properties")]> ∅)))
       | [] => None
       end;
     high_rank_properties :=
       (fun r =>
          <["property_id" := to_python (col r "property_id")]>
          (<["title" := to_python (col r "title")]>
          (<["price" := to_python (col r "price")]>
          (<["address" := to_python (col r "address")]>
          (<["ranking_grade" := to_python (col r "ranking_grade")]>
          (<["ranking_score" := to_python (col r "ranking_score")]> ∅))))))
       <$> List.firstn 10
             (order_by (desc_by ["ranking_score"]%string)
                (List.filter
                   (fun r => is_active r
                             && sql_in (col r "ranking_grade") [u "S"; u "A"])
                   (properties self))) |}.

End Database.

(** [str(n)] for an [int]. *)
Module Show.

Fixpoint uint (d : Decimal.uint) : pystr :=
  match d with
  | Decimal.Nil => []
  | Decimal.D0 d' => 48%N :: uint d'
  | Decimal.D1 d' => 49%N :: uint d'
  | Decimal.D2 d' => 50%N :: uint d'
  | Decimal.D3 d' => 51%N :: uint d'
  | Decimal.D4 d' => 52%N :: uint d'
  | Decimal.D5 d' => 53%N :: uint d'
  | Decimal.D6 d' => 54%N :: uint d'
  | Decimal.D7 d' => 55%N :: uint d'
  | Decimal.D8 d' => 56%N :: uint d'
  | Decimal.D9 d' => 57%N :: uint d'
  end.

Definition int (z : Z) : pystr :=
  match Z.to_int z with
  | Decimal.Pos d => uint d
  | Decimal.Neg d => 45%N :: uint d
  end.

End Show.

(** * src/athome_scraper.py

    The network and the HTML parser are collaborators: a fetched detail
    page is the record of the texts ([get_text(strip=True)]) of the
    elements that the CSS selectors pick, [None] where a selector finds
    nothing; a fetched listing page is the list of the [href]s of its
    property links and whether it shows a next-page button. The pause
    between two requests ([time.sleep]) has no part in what is computed;
    the configured delay is taken to be a number that is not negative. *)

Module Scraper.
Import Re.

Definition digit_or_comma (c : codepoint) : bool :=
  Unicode.is_digit c || (c =? 44)%N.

(** The pattern [ ([\d,]+) \s* 万円 ], spaced out for reading. *)
Definition price_re : regex :=
  Cat (Grp (Rep digit_or_comma 1)) (Cat (Rep Unicode.is_space 0) (Lit (u "万円"))).

(** The group [ ( [\d,]+ \.? \d* ) ]. *)
Definition number_group : regex :=
  Grp (Cat (Rep digit_or_comma 1) (Cat (Opt (Lit (u "."))) (Rep Unicode.is_digit 0))).

(** The pattern [ ( [\d,]+ \.? \d* ) \s* m2 | ㎡ ]: the bar is at the top
    level, so the second alternative is the bare unit sign. *)
Definition m2_re : regex :=
  Alt (Cat number_group (Cat (Rep Unicode.is_space 0) (Lit (u "m2"))))
      (Lit (u "㎡")).

(** The pattern [ ( [\d,]+ \.? \d* ) \s* 坪 ]. *)
Definition tsubo_re : regex :=
  Cat number_group (Cat (Rep Unicode.is_space 0) (Lit (u "坪"))).

(** The pattern [ 徒歩 \s* (\d+) \s* 分 ]. *)
Definition walk_re : regex :=
  Cat (Lit (u "徒歩"))
      (Cat (Rep Unicode.is_space 0)
           (Cat (Grp (Rep Unicode.is_digit 1))
                (Cat (Rep Unicode.is_space 0) (Lit (u "分"))))).

(** The pattern [ (\d+) \s* [%％] ]. *)
Definition percent_re : regex :=
  Cat (Grp (Rep Unicode.is_digit 1))
      (Cat (Rep Unicode.is_space 0)
           (Cls (fun c => (c =? 37)%N || (c =? 0xff05)%N))).

(** The pattern [ /(\d+) ]. *)
Definition id_re : regex := Cat (Lit (u "/")) (Grp (Rep Unicode.is_digit 1)).

(** [m.group(1).replace(',', '')]: a group that took no part in the
    match is [None], which has no [replace]. *)
Definition group1_without_commas (m : match_) : result pystr :=
  match group1 m with
  | Some g => Ok (Str.remove_char 44%N g)
  | None => Raise AttributeError
  end.

(** [int(m.group(1))], [float(m.group(1))] *)
Definition group1_int (m : match_) : result Z :=
  match group1 m with
  | Some g => Parse.int g
  | None => Raise TypeError
  end.

Definition group1_float (m : match_) : result Q :=
  match group1 m with
  | Some g => Parse.float g
  | None => Raise TypeError
  end.

(** [m.group(1)] inside an f-string *)
Definition group1_text (m : match_) : pystr :=
  match group1 m with
  | Some g => g
  | None => u "None"
  end.

Local Open Scope result_scope.

(** [strict] is what [urlparse] asks of a network location beyond
    the tests modelled in [Url]. *)
Definition _extract_property_id (strict : pystr -> bool) (url : pystr)
  : result pystr :=
  path <- Url.path strict url;;
  match search id_re path with
  | Some id_match => Ok (u "athome_" ++ group1_text id_match)
  | None =>
      bytes <- encode url;;
      Ok (u "athome_" ++ List.firstn 10 (MD5.hexdigest bytes))
  end.

Record page := Page
  { title_elem : option pystr;
    price_elem : option pystr;
    address_elem : option pystr;
    area_elem : option pystr;
    station_elem : option pystr;
    coverage_elem : option pystr;
    ratio_elem : option pystr;
    usage_elem : option pystr;
    (** [src] and [data-src] of every selected [img] *)
    image_elems : list (option pystr * option pystr) }.

Record listing_page := Listing
  { link_hrefs : list (option pystr);
    has_next : bool }.

Definition text_or (elem : option pystr) (dflt : pystr) : pystr :=
  match elem with
  | Some t => t
  | None => dflt
  end.

Definition parse_price (data : pydict) (price_elem : option pystr) : result pydict :=
  match price_elem with
  | Some price_text =>
      let data := <["price" := PStr price_text]> data in
      match search price_re price_text with
      | Some price_match =>
          g <- group1_without_commas price_match;;
          n <- Parse.int g;;
          Ok (<["price_numeric" := PInt n]> data)
      | None => Ok data
      end
  | None => Ok data
  end.

Definition parse_area (data : pydict) (area_elem : option pystr) : result pydict :=
  match area_elem with
  | Some area_text =>
      let data := <["land_area" := PStr area_text]> data in
      data <- match search m2_re area_text with
              | Some m2_match =>
                  g <- group1_without_commas m2_match;;
                  land_area_m2 <- Parse.float g;;
                  Ok (<["land_area_tsubo" := PFloat (land_area_m2 / 3.305785)]>
                      (<["land_area_m2" := PFloat land_area_m2]> data))
              | None => Ok data
              end;;
      match search tsubo_re area_text with
      | Some tsubo_match =>
          g <- group1_without_commas tsubo_match;;
          tsubo <- Parse.float g;;
          Ok (<["land_area_tsubo" := PFloat tsubo]> data)
      | None => Ok data
      end
  | None => Ok data
  end.

Definition parse_station (data : pydict) (station_elem : option pystr) : result pydict :=
  match station_elem with
  | Some station_text =>
      let data := <["nearest_station" := PStr station_text]> data in
      match search walk_re station_text with
      | Some walk_match =>
          let data :=
            <["walk_time" := PStr (u "徒歩" ++ group1_text walk_match ++ u "分")]> data in
          n <- group1_int walk_match;;
          Ok (<["walk_minutes" := PInt n]> data)
      | None => Ok data
      end
  | None => Ok data
  end.

Definition parse_percent (key : string) (data : pydict) (elem : option pystr)
  : result pydict :=
  match elem with
  | Some text =>
      match search percent_re text with
      | Some m =>
          x <- group1_float m;;
          Ok (<[key := PFloat x]> data)
      | None => Ok data
      end
  | None => Ok data
  end.

(** [img.get('src') or img.get('data-src')], kept when it is not empty *)
Definition img_url (img : option pystr * option pystr) : option pystr :=
  let first :=
    match img.1 with
    | Some (c :: s) => Some (c :: s)
    | _ => img.2
    end in
  match first with
  | Some (c :: s) => Some (c :: s)
  | _ => None
  end.

Definition opt_text (v : option pyval) : option pystr :=
  match v with
  | Some (PStr s) => Some s
  | _ => None
  end.

Section Extract.
Variable base_url : pystr.
(** [urljoin] and the network-location test of [urlparse], both of
    which can raise [ValueError]. *)
Variable urljoin : pystr -> pystr -> result pystr.
Variable strict : pystr -> bool.

(** The loop over the selected images: every source that is not empty
    is joined with the base URL. *)
Fixpoint join_images (imgs : list (option pystr * option pystr))
  : result (list pystr) :=
  match imgs with
  | [] => Ok []
  | img :: rest =>
      match img_url img with
      | Some src =>
          full_url <- urljoin base_url src;;
          image_urls <- join_images rest;;
          Ok (full_url :: image_urls)
      | None => join_images rest
      end
  end.

(** The body of the [try] of [_scrape_property_detail] once the page
    is fetched and parsed; [now] is the value of [datetime.now()]. *)
Definition extract_fields (url : pystr) (now : datetime) (soup : page)
  : result pydict :=
  property_id <- _extract_property_id strict url;;
  let data : pydict :=
    <["scraped_at" := PStr (isoformat now)]>
    (<["url" := PStr url]>
    (<["property_id" := PStr property_id]> ∅)) in
  let data := <["title" := PStr (text_or (title_elem soup) (u "タイトルなし"))]> data in
  data <- parse_price data (price_elem soup);;
  let data := <["address" := PStr (text_or (address_elem soup) [])]> data in
  data <- parse_area data (area_elem soup);;
  data <- parse_station data (station_elem soup);;
  data <- parse_percent "building_coverage" data (coverage_elem soup);;
  data <- parse_percent "floor_area_ratio" data (ratio_elem soup);;
  let data := <["usage_area" := PStr (text_or (usage_elem soup) [])]> data in
  image_urls <- join_images (image_elems soup);;
  let data := <["image_urls" := PList (List.firstn 5 image_urls)]> data in
  let data :=
    <["raw_data" := PDict [("title"%string, opt_text (data !! "title"));
                           ("price"%string, opt_text (data !! "price"));
                           ("address"%string, opt_text (data !! "address"))]]> data in
  Ok data.

(** [_scrape_property_detail]: [response] is the outcome of fetching
    and parsing the page; every exception ends in [None]. *)
Definition _scrape_property_detail (url : pystr) (now : datetime)
           (response : result page) : option pydict :=
  match (soup <- response;; extract_fields url now soup) with
  | Ok data => Some data
  | Raise _ => None
  end.

End Extract.

(** ** The crawl: [scrape_all]

    What the run meets outside the program is the [world]: the listing
    pages in page order (a request past the last one fails), the detail
    page behind every URL, the two functions of [urllib.parse] as far
    as they are not modelled, and, for the n-th interaction of the run
    with its surroundings, the reading of the clock, SQLite's
    CURRENT_TIMESTAMP and whether the database refuses the call. *)

Record world := World
  { listing_pages : list (result listing_page);
    detail_page : pystr -> result page;
    clock : nat -> datetime;
    current_timestamp : nat -> pystr;
    db_fault : nat -> option exn;
    urljoin : pystr -> pystr -> result pystr;
    strict : pystr -> bool }.

Record settings := Settings
  { base_url : pystr;
    max_pages : option nat;
    ranker : Ranking.PropertyRanker }.

Record statistics := Stats
  { start_time : option datetime;
    end_time : option datetime;
    total_properties : Z;
    new_properties : Z;
    updated_properties : Z;
    errors : Z }.

(** The mutable part of the scraper object, with the count of the
    interactions made so far. *)
Record AthomeScraper := Self
  { db : Database.PropertyDatabase;
    stats : statistics;
    steps : nat }.

(** Statements run on the scraper and end normally or by raising. *)
Definition M (A : Type) : Type := AthomeScraper -> result A * AthomeScraper.

Definition ret {A} (a : A) : M A := fun s => (Ok a, s).
Definition raise {A} (e : exn) : M A := fun s => (Raise e, s).
Definition bind {A B} (m : M A) (f : A -> M B) : M B :=
  fun s =>
    match m s with
    | (Ok a, s') => f a s'
    | (Raise e, s') => (Raise e, s')
    end.
Definition try_except {A} (body : M A) (handler : exn -> M A) : M A :=
  fun s =>
    match body s with
    | (Ok a, s') => (Ok a, s')
    | (Raise e, s') => handler e s'
    end.

Declare Scope run_scope.
Delimit Scope run_scope with run.
Notation "x <- m ;; k" := (bind m (fun x => k))
  (at level 100, m at next level, right associativity) : run_scope.
Notation "m ;;; k" := (bind m (fun _ => k))
  (at level 100, right associativity) : run_scope.

Definition get_stats : M statistics := fun s => (Ok (stats s), s).
Definition set_stats (f : statistics -> statistics) : M unit :=
  fun s => (Ok tt, Self (db s) (f (stats s)) (steps s)).
Definition tick : M nat :=
  fun s => (Ok (steps s), Self (db s) (stats s) (S (steps s))).

Definition str_of (v : pyval) : pystr :=
  match v with
  | PStr s => s
  | _ => []
  end.

Section Run.
Variable w : world.
Variable cfg : settings.
Local Open Scope run_scope.

(** [datetime.now()] *)
Definition now : M datetime := n <- tick;; ret (clock w n).

(** A method of [self.db]: it raises what the database raises when
    it refuses the call, and otherwise behaves as in [Database]. *)
Definition db_call {A}
           (method : Database.PropertyDatabase -> nat ->
                     result (A * Database.PropertyDatabase)) : M A :=
  n <- tick;;
  fun s =>
    match db_fault w n with
    | Some e => (Raise e, s)
    | None =>
        match method (db s) n with
        | Ok (a, db') => (Ok a, Self db' (stats s) (steps s))
        | Raise e => (Raise e, s)
        end
    end.

Definition upsert_property (property_data : pydict) : M (bool * pyval) :=
  db_call (fun d n =>
             match Database.upsert_property d (clock w n)
                                            (current_timestamp w n) property_data with
             | Ok (is_new, property_id, _, d') => Ok ((is_new, property_id), d')
             | Raise e => Raise e
             end).

Definition deactivate_old_properties (ids : list pystr) : M Z :=
  db_call (fun d n => Ok (Database.deactivate_old_properties d (clock w n) ids)).

Definition log_scraping (log_data : pydict) : M unit :=
  db_call (fun d n =>
             match Database.log_scraping d (current_timestamp w n) log_data with
             | Ok d' => Ok (tt, d')
             | Raise e => Raise e
             end).

(** The [for link in property_links] loop: the links kept are added
    to [property_urls]; when [urljoin] refuses an [href] the loop is
    left with what was collected before it, and the flag is set. *)
Fixpoint collect_links (hrefs : list (option pystr)) (property_urls : list pystr)
  : list pystr * bool :=
  match hrefs with
  | [] => (property_urls, false)
  | Some (c :: h) :: rest =>
      match urljoin w (base_url cfg) (c :: h) with
      | Ok full_url =>
          collect_links rest
            (if Str.contains (u "/detail/") full_url
                || Str.contains (u "/bukken/") full_url
             then property_urls ++ [full_url] else property_urls)
      | Raise _ => (property_urls, true)
      end
  | _ :: rest => collect_links rest property_urls
  end.

Definition page_cap_reached (page : nat) : bool :=
  match max_pages cfg with
  | Some (S m) => (S m <=? page)%nat
  | _ => false
  end.

(** The [while True] loop of [_get_property_urls]; a failed request,
    a page without links and an [href] that [urljoin] refuses all
    leave the loop. *)
Fixpoint listing_loop (pages : list (result listing_page)) (page : nat)
         (property_urls : list pystr) : list pystr :=
  match pages with
  | Ok lp :: rest =>
      match link_hrefs lp with
      | [] => property_urls
      | hrefs =>
          let '(property_urls, raised) := collect_links hrefs property_urls in
          if raised then property_urls
          else if negb (has_next lp) || page_cap_reached page then property_urls
          else listing_loop rest (S page) property_urls
      end
  | _ => property_urls
  end.

(** [list(set(property_urls))]; the order in which a set is listed is
    not specified, the order of first occurrence is taken here. *)
Definition _get_property_urls : list pystr :=
  remove_dups (listing_loop (listing_pages w) 1 []).

Definition count_listing (is_new : bool) (st : statistics) : statistics :=
  Stats (start_time st) (end_time st) (total_properties st + 1)
        (if is_new then new_properties st + 1 else new_properties st)
        (if is_new then updated_properties st else updated_properties st + 1)
        (errors st).

Definition count_error (st : statistics) : statistics :=
  Stats (start_time st) (end_time st) (total_properties st)
        (new_properties st) (updated_properties st) (errors st + 1).

(** One turn of the [for] loop, with its own [try]. *)
Definition process_url (url : pystr) (active_property_ids : list pystr)
  : M (list pystr) :=
  try_except
    (n <- tick;;
     match _scrape_property_detail (base_url cfg) (urljoin w) (strict w) url
                                   (clock w n) (detail_page w url) with
     | Some property_data =>
         if bool_decide (property_data = ∅) then ret active_property_ids else
         let rank_info := Ranking.calculate_rank (ranker cfg) property_data in
         let property_data := rank_info ∪ property_data in
         r <- upsert_property property_data;;
         set_stats (count_listing r.1);;;
         ret (active_property_ids ++ [str_of r.2])
     | None => ret active_property_ids
     end)
    (fun e => set_stats count_error;;; ret active_property_ids).

Fixpoint process_all (urls : list pystr) (active_property_ids : list pystr)
  : M (list pystr) :=
  match urls with
  | [] => ret active_property_ids
  | url :: rest =>
      ids <- process_url url active_property_ids;;
      process_all rest ids
  end.

Definition set_start (t : datetime) (st : statistics) : statistics :=
  Stats (Some t) (end_time st) (total_properties st) (new_properties st)
        (updated_properties st) (errors st).
Definition set_end (t : datetime) (st : statistics) : statistics :=
  Stats (start_time st) (Some t) (total_properties st) (new_properties st)
        (updated_properties st) (errors st).

(** [(end_time - start_time).total_seconds()] *)
Definition duration (st : statistics) : M Q :=
  match end_time st, start_time st with
  | Some b, Some a => ret (total_seconds b a)
  | _, _ => raise TypeError
  end.

Definition completed_log (st : statistics) (deactivated : Z) (d : Q) : pydict :=
  <["total_properties" := PInt (total_properties st)]>
  (<["new_properties" := PInt (new_properties st)]>
  (<["updated_properties" := PInt (updated_properties st)]>
  (<["deactivated_properties" := PInt deactivated]>
  (<["errors" := PInt (errors st)]>
  (<["status" := PStr (u "completed")]>
  (<["message" := PStr (u "正常終了: " ++ Show.int (total_properties st)
                          ++ u "件処理")]>
  (<["duration_seconds" := PFloat d]> ∅))))))).

Definition error_log (st : statistics) (e : exn) (d : Q) : pydict :=
  <["total_properties" := PInt (total_properties st)]>
  (<["new_properties" := PInt (new_properties st)]>
  (<["updated_properties" := PInt (updated_properties st)]>
  (<["errors" := PInt (errors st + 1)]>
  (<["status" := PStr (u "error")]>
  (<["message" := PStr (exn_msg e)]>
  (<["duration_seconds" := PFloat d]> ∅)))))).

(** The body of the outer [try]. *)
Definition scrape_all_body : M statistics :=
  let property_urls := _get_property_urls in
  active_property_ids <- process_all property_urls [];;
  deactivated <- deactivate_old_properties active_property_ids;;
  t <- now;;
  set_stats (set_end t);;;
  st <- get_stats;;
  d <- duration st;;
  log_scraping (completed_log st deactivated d);;;
  get_stats.

(** The [except Exception as e] clause. *)
Definition scrape_all_handler (e : exn) : M statistics :=
  t <- now;;
  set_stats (set_end t);;;
  st <- get_stats;;
  d <- duration st;;
  log_scraping (error_log st e d);;;
  raise e.

Definition scrape_all : M statistics :=
  t <- now;;
  set_stats (set_start t);;;
  try_except scrape_all_body scrape_all_handler.

End Run.

End Scraper.

(** * Statements of the specification and sample data *)

Module RankingSpec.
Import Ranking.

(** The number stored under a key of a record, if there is one. *)
Definition field_num (d : pydict) (k : string) : option Q :=
  match d !! k with
  | Some v => match as_num v with Ok q => Some q | Raise _ => None end
  | None => None
  end.




(** Two listings at 8 and at 12 (ten thousand yen) per tsubo, and one
    without a price. *)
Definition listing_8 : pydict :=
  <["price_numeric" := PInt 800]> (<["land_area_tsubo" := PFloat 100]> ∅).
Definition listing_12 : pydict :=
  <["price_numeric" := PInt 600]> (<["land_area_tsubo" := PInt 50]> ∅).
Definition listing_unpriced : pydict :=
  <["land_area_tsubo" := PInt 50]> ∅.

(** An integer that its conversion to a float leaves as it is. *)
Definition small (v : pyval) : Prop :=
  match v with
  | PInt z => Z.abs z <= 2 ^ 53
  | _ => True
  end.

Definition is_int (v : pyval) : bool :=
  match v with
  | PInt _ | PBool _ => true
  | _ => false
  end.

(** A division that rounds once: of two integers, or of operands that
    become floats without rounding. *)
Definition single_rounding (a b : pyval) : Prop :=
  (is_int a = true /\ is_int b = true) \/ (small a /\ small b).

(** A price too large for a float, and a dear listing of the same
    area. *)
Definition listing_huge : pydict :=
  <["price_numeric" := PInt (10 ^ 400)]> (<["land_area_tsubo" := PFloat 100]> ∅).
Definition listing_dear : pydict :=
  <["price_numeric" := PInt 10000]> (<["land_area_tsubo" := PFloat 100]> ∅).
Definition listing_35 : pydict :=
  <["price_numeric" := PInt 3500]> (<["land_area_tsubo" := PFloat 100]> ∅).

(** A listing whose only datum is a neighbourhood-commercial zoning. *)
Definition listing_kinrin : pydict :=
  <["usage_area" := PStr (u "近隣商業地域")]> ∅.
End RankingSpec.

Module DatabaseSpec.
Import Database.

(** Whether the id of a row is among the observed ids. *)
Definition id_observed (ids : list pystr) (r : row) : bool :=
  match col r "property_id" with
  | VText s => bool_decide (s ∈ ids)
  | _ => false
  end.

Definition deactivated (now : datetime) (r : row) : row :=
  <["updated_at" := VText (adapt_datetime now)]> (<["is_active" := VInt 0]> r).





Definition day2 : datetime := {| seconds := 86400; isoformat := u "2025-01-02T09:00:00" |}.

Definition sighting (t : datetime) : pydict :=
  <["property_id" := PStr (u "athome_123")]>
  (<["url" := PStr (u "https://www.athome.co.jp/tochi/123/")]>
  (<["title" := PStr (u "売土地")]>
  (<["scraped_at" := PStr (isoformat t)]>
  (<["price_numeric" := PInt 1000]> ∅)))).

(** The store after the first sighting: one active row. *)
Definition row_day1 : row :=
  <["id" := VInt 1]>
  (<["property_id" := VText (u "athome_123")]>
  (<["url" := VText (u "https://www.athome.co.jp/tochi/123/")]>
  (<["title" := VText (u "売土地")]>
  (<["scraped_at" := VText (u "2025-01-01T09:00:00")]>
  (<["updated_at" := VText (u "2025-01-01 00:00:00")]>
  (<["is_active" := VInt 1]> ∅)))))).

Definition store_day1 : PropertyDatabase := Db [row_day1] 1 [] 0.



(** Three rows: two active ones and one that is already inactive. *)
Definition listed (id : string) (active : Z) : row :=
  <["property_id" := VText (u id)]>
  (<["is_active" := VInt active]>
  (<["updated_at" := VText (u "2025-01-01 09:00:00")]> ∅)).

Definition store_three : PropertyDatabase :=
  Db [listed "athome_1" 1; listed "athome_2" 1; listed "athome_3" 0] 3 [] 0.


End DatabaseSpec.

Module ScraperSpec.
Import Scraper.

(** The longest run of digits at the head of a text, and what follows. *)
Fixpoint take_digits (s : pystr) : pystr :=
  match s with
  | c :: s' => if Unicode.is_digit c then c :: take_digits s' else []
  | [] => []
  end.

Fixpoint drop_digits (s : pystr) : pystr :=
  match s with
  | c :: s' => if Unicode.is_digit c then drop_digits s' else s
  | [] => []
  end.

(** The first run of digits of a text (the words of the specification). *)
Fixpoint first_digit_run (s : pystr) : option pystr :=
  match s with
  | [] => None
  | c :: s' => if Unicode.is_digit c then Some (take_digits s) else first_digit_run s'
  end.

(** The first run of digits that directly follows a slash. *)
Fixpoint first_slash_digit_run (s : pystr) : option pystr :=
  match s with
  | [] => None
  | c :: s' =>
      match s' with
      | c' :: _ =>
          if (c =? 47)%N && Unicode.is_digit c' then Some (take_digits s')
          else first_slash_digit_run s'
      | [] => None
      end
  end.

Definition md5_id (url : pystr) : pystr :=
  u "athome_" ++ List.firstn 10 (MD5.hexdigest (Utf8.encode url)).

(** The id as the specification words it, for a path. *)
Definition id_of_first_digit_run (path url : pystr) : pystr :=
  match first_digit_run path with
  | Some ds => u "athome_" ++ ds
  | None => md5_id url
  end.

(** The network location that [urlparse] finds in a URL. *)
Definition network_location (url : pystr) : pystr :=
  Url.netloc
    (Url.split_scheme
       (List.filter (fun c => negb (Url.is_unsafe c)) (Url.lstrip url))).2.

(** The further tests of the library taken to pass; the locations of
    the URLs below do not reach them. *)
Definition lenient (netloc : pystr) : bool := true.

Definition is_lower_hex (c : codepoint) : bool :=
  ((48 <=? c) && (c <=? 57) || (97 <=? c) && (c <=? 102))%N.

Definition url_x : pystr := u "https://www.athome.co.jp/tochi/abc123/456/".
Definition url_y : pystr := u "https://www.athome.co.jp/tochi/oita2/list/".
(** A URL with an opening bracket only, and one that ends in a lone
    surrogate. *)
Definition url_z : pystr := u "http://[invalid/123".
Definition url_s : pystr := u "https://www.athome.co.jp/tochi/" ++ [0xd800%N].

(** Whether a pattern finds a match in the text of an element. *)
Definition matches (r : Re.regex) (elem : option pystr) : bool :=
  match elem with
  | Some t => match Re.search r t with Some _ => true | None => false end
  | None => false
  end.

Definition raises {A} (r : result A) : bool :=
  match r with
  | Raise _ => true
  | Ok _ => false
  end.

(** Whether the square-metre pattern matches the area text through
    its second alternative, the bare sign, so that group 1 is missing. *)
Definition bare_unit_sign (soup : page) : bool :=
  match area_elem soup with
  | Some area_text =>
      match Re.search m2_re area_text with
      | Some m2_match =>
          match Re.group1 m2_match with None => true | Some _ => false end
      | None => false
      end
  | None => false
  end.

(** Whether the conversion of some matched field of a page raises. *)
Definition conversion_raises (soup : page) : bool :=
  raises (parse_price ∅ (price_elem soup))
  || raises (parse_area ∅ (area_elem soup))
  || raises (parse_station ∅ (station_elem soup))
  || raises (parse_percent "building_coverage" ∅ (coverage_elem soup))
  || raises (parse_percent "floor_area_ratio" ∅ (ratio_elem soup)).

Definition plain_page (price area : string) : page :=
  Page (Some (u "売土地")) (Some (u price)) (Some (u "大分県大分市中央町1-2-3"))
       (Some (u area)) (Some (u "大分駅 徒歩5分")) (Some (u "80%")) (Some (u "400%"))
       (Some (u "商業地域")) [].

Definition stamp : datetime :=
  {| seconds := 0; isoformat := u "2025-01-01T09:00:00" |}.

Definition join_urls (base url : pystr) : result pystr := Ok (base ++ url).
Definition detail_url : pystr := u "https://www.athome.co.jp/tochi/123/".
Definition base : pystr := u "https://www.athome.co.jp".
End ScraperSpec.

Module RunSpec.
Import Scraper.

Definition int64 (z : Z) : Prop := - 2 ^ 63 <= z < 2 ^ 63.

Definition locked : exn := Exn "sqlite3.OperationalError" (u "database is locked").
Definition disk_full : exn := Exn "sqlite3.OperationalError" (u "database or disk is full").

Definition tick_clock (n : nat) : datetime :=
  {| seconds := inject_Z (Z.of_nat n); isoformat := u "2025-01-01T09:00:00" |}.

(** A site with no listing; the database refuses the call made as the
    [refused]-th interaction with [locked], and every later call with
    [disk_full] when [then_down] is set. *)
Definition world_x (refused : nat) (then_down : bool) : world :=
  World [] (fun _ => Raise (Exn "requests.HTTPError" []))
        tick_clock (fun _ => u "2025-01-01 00:00:00")
        (fun n => if (n =? refused)%nat then Some locked
                  else if then_down && (refused <? n)%nat then Some disk_full
                  else None)
        (fun a b => Ok (a ++ b)) (fun _ => true).

(** A site whose first listing page cannot be fetched, and a database
    that refuses nothing. *)
Definition site_down : world :=
  World [Raise (Exn "requests.ConnectionError" [])]
        (fun _ => Raise (Exn "requests.HTTPError" []))
        tick_clock (fun _ => u "2025-01-01 00:00:00")
        (fun _ => None)
        (fun a b => Ok (a ++ b)) (fun _ => true).

Definition settings_x : settings :=
  Settings (u "https://www.athome.co.jp") (Some 10%nat) Config.config.

Definition fresh : AthomeScraper :=
  Self (Database.Db [] 0 [] 0) (Stats None None 0 0 0 0) 0.

(** The state in which the crawl of [world_x 1 _] reaches the handler. *)
Definition stopped : AthomeScraper :=
  Self (Database.Db [] 0 [] 0) (Stats (Some (tick_clock 0)) None 0 0 0 0) 2.

(** A statement that leaves the start time of the statistics alone. *)
Definition keeps_start {A} (m : M A) : Prop :=
  forall s, start_time (stats (m s).2) = start_time (stats s).

End RunSpec.

Module RankingNotions.
Import Ranking.

(** The grades from the worst to the best. *)
Definition grade_level (g : pystr) : nat :=
  if Str.eqb g (u "S") then 4
  else if Str.eqb g (u "A") then 3
  else if Str.eqb g (u "B") then 2
  else if Str.eqb g (u "C") then 1
  else 0.

(** Whether an address names one of the premium areas. *)
Definition in_premium_area (self : PropertyRanker) (address : pystr) : bool :=
  List.existsb (fun premium_area => Str.contains premium_area address)
               (premium_areas self).

(** A score between 0 and 100. *)
Definition percent (x : Q) : Prop := (0 <= x)%Q /\ (x <= 100)%Q.



(** The number written by the first run of digits of a text once its
    commas are taken out. *)
Definition first_number (s : pystr) : option Z :=
  match ScraperSpec.first_digit_run (Str.remove_char 44%N s) with
  | Some ds => Parse.digits 0 ds
  | None => None
  end.

(** The three sample listings of the demo script, as far as the
    ranking reads them. *)
Definition sample (address : string) (tsubo walk coverage ratio : Z) (usage : string)
  : pydict :=
  <["price_numeric" := PInt 1000]>
  (<["address" := PStr (u address)]>
  (<["land_area_tsubo" := PInt tsubo]>
  (<["walk_minutes" := PInt walk]>
  (<["building_coverage" := PInt coverage]>
  (<["floor_area_ratio" := PInt ratio]>
  (<["usage_area" := PStr (u usage)]> ∅)))))).

Definition sample_001 : pydict :=
  sample "大分県大分市中央町1-2-3" 100 5 80 400 "商業地域".
Definition sample_far : pydict :=
  sample "大分県大分市中央町1-2-3" 100 25 80 400 "商業地域".
Definition sample_003 : pydict :=
  sample "大分県大分市明野北1-2-3" 30 30 50 100 "第一種低層住居専用地域".
(** The first sample with an area too large for a float. *)
Definition sample_vast : pydict :=
  sample "大分県大分市中央町1-2-3" (10 ^ 400) 5 80 400 "商業地域".

End RankingNotions.

Module DatabaseNotions.
Import Database DatabaseSpec.

(** The row that an INSERT starts from: every column NULL but the
    three that have a default. *)
Definition default_row (current_timestamp : pystr) : row :=
  <["scraped_at" := VText current_timestamp]>
  (<["updated_at" := VText current_timestamp]>
  (<["is_active" := VInt 1]> (null_row properties_columns))).

(** The rows of a store respect the constraints of the table. *)
Definition consistent (self : PropertyDatabase) : Prop :=
  constraints_ok (properties self) = true.

(** A first sighting of the listing [athome_123] in an empty store. *)
Definition empty_store : PropertyDatabase := Db [] 0 [] 0.


(** The sum of the counts of a grouping. *)
Definition total_count {K} (groups : list (K * Z)) : Z :=
  List.fold_right (fun kn acc => kn.2 + acc) 0 groups.

(** The count that a grouping gives a key, 0 when it has no group. *)
Definition count_of (key : sqlval) (groups : list (sqlval * Z)) : Z :=
  match List.find (fun kn => same_group kn.1 key) groups with
  | Some kn => kn.2
  | None => 0
  end.

(** No two groups of a grouping have the same key. *)
Fixpoint apart (groups : list (sqlval * Z)) : bool :=
  match groups with
  | [] => true
  | (k, _) :: rest =>
      List.forallb (fun kn => negb (same_group k kn.1)) rest && apart rest
  end.

(** Four listings: grades S, A and none, one of them inactive. *)
Definition graded (id : string) (active : Z) (grade : sqlval) (score : Q) : row :=
  <["property_id" := VText (u id)]>
  (<["is_active" := VInt active]>
  (<["ranking_grade" := grade]>
  (<["ranking_score" := VReal score]>
  (<["scraped_at" := VText (u "2025-01-01T09:00:00")]> ∅)))).

Definition store_graded : PropertyDatabase :=
  Db [graded "athome_1" 1 (VText (u "A")) 82.5;
      graded "athome_2" 1 (VText (u "S")) 91;
      graded "athome_3" 0 (VText (u "S")) 95;
      graded "athome_4" 1 VNull 40] 4 [] 0.

End DatabaseNotions.

Module ScraperNotions.
Import Scraper.

(** What a key of a scraped and ranked record may hold: the key names
    a column that the scraper fills, and the value is a text or a
    float, or an integer under one of the two integer keys, or the
    list of at most five image links, or the dict of the raw texts. *)
Definition scraped_value (k : string) (v : pyval) : Prop :=
  k ∈ Database.properties_columns
  /\ (k ∉ ["id"; "is_active"; "updated_at"]%string)
  /\ match v with
     | PStr _ | PFloat _ => True
     | PInt _ => k = "price_numeric"%string \/ k = "walk_minutes"%string
     | PList l => k = "image_urls"%string /\ (length l <= 5)%nat
     | PDict _ => k = "raw_data"%string
     | _ => False
     end.

Definition scraped (d : pydict) : Prop :=
  forall k v, d !! k = Some v -> scraped_value k v.

(** The links that a listing page contributes. *)
Definition page_links (w : world) (cfg : settings) (p : result listing_page)
  : list pystr :=
  match p with
  | Ok lp => (collect_links w cfg (link_hrefs lp) []).1
  | Raise _ => []
  end.

(** A listing page none of whose links [urljoin] refuses. *)
Definition joins (w : world) (cfg : settings) (p : result listing_page) : Prop :=
  match p with
  | Ok lp => (collect_links w cfg (link_hrefs lp) []).2 = false
  | Raise _ => True
  end.

(** A listing page that has links and a next page. *)
Definition goes_on (p : result listing_page) : Prop :=
  exists lp, p = Ok lp /\ link_hrefs lp <> [] /\ has_next lp = true.

(** A site of three listing pages with two links each, one of them
    listed twice and one leading elsewhere. *)
Definition site_pages : list (result listing_page) :=
  [Ok (Listing [Some (u "/detail/1/"); Some (u "/detail/2/")] true);
   Ok (Listing [Some (u "/detail/2/"); Some (u "/about/")] true);
   Ok (Listing [Some (u "/detail/3/"); None] true)].

Definition site (pages : list (result listing_page)) : world :=
  World pages (fun _ => Raise (Exn "requests.HTTPError" []))
        RunSpec.tick_clock (fun _ => u "2025-01-01 00:00:00")
        (fun _ => None) (fun a b => Ok (a ++ b)) (fun _ => true).

(** The same site when [urljoin] refuses every [href] that holds a
    bracket. *)
Definition picky_site (pages : list (result listing_page)) : world :=
  World pages (fun _ => Raise (Exn "requests.HTTPError" []))
        RunSpec.tick_clock (fun _ => u "2025-01-01 00:00:00")
        (fun _ => None)
        (fun a b => if Url.has 91%N b then Raise ValueError else Ok (a ++ b))
        (fun _ => true).

Definition broken_pages : list (result listing_page) :=
  [Ok (Listing [Some (u "/detail/1/"); Some (u "//[/detail/9/");
                Some (u "/detail/2/")] true);
   Ok (Listing [Some (u "/detail/3/")] true)].

Definition capped (n : nat) : settings :=
  Settings (u "https://www.athome.co.jp") (Some n) Config.config.

End ScraperNotions.

Module RunNotions.
Import Scraper.

(** The listing [X] is in the store and marked inactive. *)
Definition stays_inactive (X : pystr) (d : Database.PropertyDatabase) : Prop :=
  (exists r, r ∈ Database.properties d /\ Database.col r "property_id" = Database.VText X)
  /\ forall r, r ∈ Database.properties d ->
               Database.col r "property_id" = Database.VText X ->
               Database.is_active r = false.

(** How the counters of a run move while [listed] listings are stored
    and [failed] URLs fail. *)
Definition counted (st st' : statistics) (listed failed : Z) : Prop :=
  start_time st' = start_time st /\ end_time st' = end_time st
  /\ total_properties st' = total_properties st + listed
  /\ new_properties st' + updated_properties st'
     = new_properties st + updated_properties st + listed
  /\ new_properties st <= new_properties st'
  /\ updated_properties st <= updated_properties st'
  /\ errors st' = errors st + failed.

(** A statement that keeps a property of the database. *)
Definition keeps_db (P : Database.PropertyDatabase -> Prop) {A} (m : M A) : Prop :=
  forall s, P (db s) -> P (db (m s).2).

(** A count that can grow by [n] and still be stored in a column. *)
Definition room (n : nat) (z : Z) : Prop := 0 <= z /\ z + Z.of_nat n < 2 ^ 63.

(** A store with one listing that has been taken off the site, and a
    site that lists it again. *)
Definition delisted : Database.row :=
  <["id" := Database.VInt 1]>
  (<["property_id" := Database.VText (u "athome_123")]>
  (<["url" := Database.VText (u "https://www.athome.co.jp/detail/123/")]>
  (<["title" := Database.VText (u "売土地")]>
  (<["is_active" := Database.VInt 0]> ∅)))).

Definition returning_site : world :=
  World [Ok (Listing [Some (u "/detail/123/")] false)]
        (fun _ => Ok (ScraperSpec.plain_page "1,000万円" "100坪"))
        RunSpec.tick_clock (fun _ => u "2025-01-02 00:00:00")
        (fun _ => None) (fun a b => Ok (a ++ b)) (fun _ => true).

Definition before_return : AthomeScraper :=
  Self (Database.Db [delisted] 1 [] 0) (Stats None None 0 0 0 0) 0.

End RunNotions.

(** * Properties *)

Module FloatFacts.
Import Float.

Lemma pow2_pos k : (0 < 2 ^ k)%Q.
Proof. apply Qpower_0_lt. reflexivity. Qed.

Lemma pow2_add a b : (2 ^ (a + b) == 2 ^ a * 2 ^ b)%Q.
Proof. apply Qpower_plus. discriminate. Qed.

Lemma pow2_le a b : a <= b -> (2 ^ a <= 2 ^ b)%Q.
Proof. intros H. apply Qpower_le_compat_l; [exact H | discriminate]. Qed.

Lemma pow2_lt a b : a < b -> (2 ^ a < 2 ^ b)%Q.
Proof. intros H. apply Qpower_lt_compat_l; [exact H | reflexivity]. Qed.

Lemma pow2_le_inv a b : (2 ^ a <= 2 ^ b)%Q -> a <= b.
Proof.
  intros H. destruct (Z_le_gt_dec a b) as [L|G]; [exact L|].
  exfalso. apply (Qle_not_lt _ _ H). apply pow2_lt. lia.
Qed.

Lemma pow2_lt_inv a b : (2 ^ a < 2 ^ b)%Q -> a < b.
Proof.
  intros H. destruct (Z_lt_ge_dec a b) as [L|G]; [exact L|].
  exfalso. apply (Qlt_not_le _ _ H). apply pow2_le. lia.
Qed.

Lemma pow2_Z n : 0 <= n -> (inject_Z (2 ^ n) == 2 ^ n)%Q.
Proof. intros H. now rewrite Zpower_Qpower. Qed.

Lemma pow2_succ k : (2 ^ (k + 1) == 2 * 2 ^ k)%Q.
Proof. rewrite pow2_add. change (2 ^ 1)%Q with 2%Q. ring. Qed.

Lemma pow2_pred k : (2 ^ (k - 1) == 2 ^ k / 2)%Q.
Proof.
  replace k with ((k - 1) + 1) at 2 by lia. rewrite pow2_succ. field.
Qed.

(** The quotient of two positive integers lies within a factor two of
    the quotient of their leading powers of two. *)
Lemma ilog2_bracket n d :
  0 < n -> 0 < d ->
  let k := Z.log2 n - Z.log2 d in
  (2 ^ (k - 1) < inject_Z n / inject_Z d)%Q
  /\ (inject_Z n / inject_Z d < 2 ^ (k + 1))%Q.
Proof.
  intros Hn Hd k.
  destruct (Z.log2_spec n Hn) as [N1 N2]. destruct (Z.log2_spec d Hd) as [D1 D2].
  pose proof (Z.log2_nonneg n) as Ln. pose proof (Z.log2_nonneg d) as Ld.
  assert (0 < inject_Z d)%Q as Dq by (unfold Qlt; simpl; lia).
  assert (2 ^ Z.log2 n <= inject_Z n)%Q as QN1.
  { rewrite <- pow2_Z by lia. rewrite <- Zle_Qle. exact N1. }
  assert (inject_Z n < 2 ^ (Z.log2 n + 1))%Q as QN2.
  { rewrite <- pow2_Z by lia. rewrite <- Zlt_Qlt. rewrite Z.add_1_r. exact N2. }
  assert (2 ^ Z.log2 d <= inject_Z d)%Q as QD1.
  { rewrite <- pow2_Z by lia. rewrite <- Zle_Qle. exact D1. }
  assert (inject_Z d < 2 ^ (Z.log2 d + 1))%Q as QD2.
  { rewrite <- pow2_Z by lia. rewrite <- Zlt_Qlt. rewrite Z.add_1_r. exact D2. }
  pose proof (pow2_pos (Z.log2 d)) as Pd. pose proof (pow2_pos (k - 1)) as Pk1.
  pose proof (pow2_pos (k + 1)) as Pk2. pose proof (pow2_pos (Z.log2 n)) as Pn.
  split.
  - apply Qlt_shift_div_l; [exact Dq|].
    (* 2^(k-1) * d < 2^(k-1) * 2^(ld+1) = 2^ln <= n *)
    apply Qlt_le_trans with (2 ^ (k - 1) * 2 ^ (Z.log2 d + 1))%Q.
    + apply Qmult_lt_l; assumption.
    + rewrite <- pow2_add. replace (k - 1 + (Z.log2 d + 1)) with (Z.log2 n) by (unfold k; lia).
      exact QN1.
  - apply Qlt_shift_div_r; [exact Dq|].
    (* n < 2^(ln+1) = 2^(k+1) * 2^ld <= 2^(k+1) * d *)
    apply Qlt_le_trans with (2 ^ (k + 1) * 2 ^ Z.log2 d)%Q.
    + rewrite <- pow2_add. replace (k + 1 + Z.log2 d) with (Z.log2 n + 1) by (unfold k; lia).
      exact QN2.
    + apply Qmult_le_l; assumption.
Qed.

Lemma Qpos_num q : (0 < q)%Q -> 0 < Qnum q.
Proof. unfold Qlt. simpl. lia. Qed.

Lemma ilog2_spec q :
  (0 < q)%Q -> (2 ^ ilog2 q <= q)%Q /\ (q < 2 ^ (ilog2 q + 1))%Q.
Proof.
  intros Hq. pose proof (Qpos_num q Hq) as Hn.
  destruct (ilog2_bracket (Qnum q) (Zpos (Qden q)) Hn (Pos2Z.is_pos _)) as [B1 B2].
  cbv zeta in B1, B2.
  assert (inject_Z (Qnum q) / inject_Z (Zpos (Qden q)) == q)%Q as E.
  { rewrite <- Qmake_Qdiv. destruct q. reflexivity. }
  rewrite E in B1, B2. unfold ilog2.
  set (k := Z.log2 (Qnum q) - Z.log2 (Zpos (Qden q))) in *.
  destruct (Qle_bool (2 ^ k) q) eqn:L.
  - apply Qle_bool_iff in L. split; assumption.
  - assert (~ (2 ^ k <= q)%Q) as L' by (rewrite <- Qle_bool_iff; congruence).
    apply Qnot_le_lt in L'. split.
    + now apply Qlt_le_weak.
    + now replace (k - 1 + 1) with k by lia.
Qed.

Lemma ilog2_unique q k :
  (2 ^ k <= q)%Q -> (q < 2 ^ (k + 1))%Q -> ilog2 q = k.
Proof.
  intros H1 H2.
  assert (0 < q)%Q as Hq by (eapply Qlt_le_trans; [apply (pow2_pos k) | exact H1]).
  destruct (ilog2_spec q Hq) as [S1 S2].
  assert (ilog2 q < k + 1) as A.
  { apply pow2_lt_inv. eapply Qle_lt_trans; eassumption. }
  assert (k < ilog2 q + 1) as B.
  { apply pow2_lt_inv. eapply Qle_lt_trans; eassumption. }
  lia.
Qed.

Lemma ilog2_comp q q' : (0 < q)%Q -> (q == q')%Q -> ilog2 q' = ilog2 q.
Proof.
  intros Hq E. destruct (ilog2_spec q Hq) as [S1 S2].
  apply ilog2_unique; now rewrite <- E.
Qed.

Lemma ilog2_mono q q' : (0 < q)%Q -> (q <= q')%Q -> ilog2 q <= ilog2 q'.
Proof.
  intros Hq L.
  assert (0 < q')%Q as Hq' by (eapply Qlt_le_trans; eassumption).
  destruct (ilog2_spec q Hq) as [S1 _]. destruct (ilog2_spec q' Hq') as [_ T2].
  assert (ilog2 q < ilog2 q' + 1); [|lia].
  apply pow2_lt_inv. eapply Qle_lt_trans; [exact S1|]. eapply Qle_lt_trans; eassumption.
Qed.


(** *** Rounding to the nearest integer *)

Lemma round_half_even_bounds q :
  Qfloor q <= round_half_even q <= Qfloor q + 1.
Proof.
  unfold round_half_even.
  destruct (q - inject_Z (Qfloor q) ?= 1 # 2)%Q; [destruct (Z.even _)|..]; lia.
Qed.

Lemma round_half_even_le q n : (q <= inject_Z n)%Q -> round_half_even q <= n.
Proof.
  intros H. pose proof (Qfloor_resp_le _ _ H) as Hf. rewrite Qfloor_Z in Hf.
  destruct (Z.eq_dec (Qfloor q) n) as [E|E].
  - unfold round_half_even.
    destruct (Qcompare_spec (q - inject_Z (Qfloor q)) (1 # 2)) as [He|Hl|Hg];
      [exfalso; rewrite E in He; lra | lia | exfalso; rewrite E in Hg; lra].
  - pose proof (round_half_even_bounds q). lia.
Qed.

Lemma round_half_even_ge q n : (inject_Z n <= q)%Q -> n <= round_half_even q.
Proof.
  intros H. pose proof (Qfloor_resp_le _ _ H) as Hf. rewrite Qfloor_Z in Hf.
  pose proof (round_half_even_bounds q). lia.
Qed.


Lemma round_half_even_Z n : round_half_even (inject_Z n) = n.
Proof.
  pose proof (round_half_even_le (inject_Z n) n (Qle_refl _)).
  pose proof (round_half_even_ge (inject_Z n) n (Qle_refl _)). lia.
Qed.

Lemma round_half_even_comp x y : (x == y)%Q -> round_half_even x = round_half_even y.
Proof.
  intros E. unfold round_half_even.
  rewrite (Qfloor_comp _ _ E).
  assert (x - inject_Z (Qfloor y) == y - inject_Z (Qfloor y))%Q as E' by now rewrite E.
  now rewrite (Qcompare_comp _ _ E' (1 # 2) (1 # 2) (Qeq_refl _)).
Qed.

Lemma round_half_even_mono x y :
  (x <= y)%Q -> round_half_even x <= round_half_even y.
Proof.
  intros L. pose proof (Qfloor_resp_le _ _ L) as Lf.
  pose proof (round_half_even_bounds x) as Bx.
  pose proof (round_half_even_bounds y) as By.
  destruct (Z.eq_dec (Qfloor x) (Qfloor y)) as [E|E]; [|lia].
  unfold round_half_even in *. rewrite E in *.
  destruct (Qcompare_spec (x - inject_Z (Qfloor y)) (1 # 2)) as [Hx|Hx|Hx];
    destruct (Qcompare_spec (y - inject_Z (Qfloor y)) (1 # 2)) as [Hy|Hy|Hy];
    try lia; try (destruct (Z.even (Qfloor y)); lia); exfalso; lra.
Qed.

(** *** Rounding to the nearest double *)

Lemma round_pos_eq q :
  (round_pos q
   == inject_Z (round_half_even (q / 2 ^ ulp_exp q)) * 2 ^ ulp_exp q)%Q.
Proof. unfold round_pos. cbv zeta. apply Qred_correct. Qed.

Lemma ulp_exp_mono q q' : (0 < q)%Q -> (q <= q')%Q -> ulp_exp q <= ulp_exp q'.
Proof. intros Hq L. pose proof (ilog2_mono q q' Hq L). unfold ulp_exp. lia. Qed.

Lemma ulp_exp_comp q q' : (0 < q)%Q -> (q == q')%Q -> ulp_exp q' = ulp_exp q.
Proof. intros Hq E. unfold ulp_exp. now rewrite (ilog2_comp q q' Hq E). Qed.

Lemma round_pos_comp q q' : (0 < q)%Q -> (q == q')%Q -> round_pos q' = round_pos q.
Proof.
  intros Hq E. unfold round_pos. cbv zeta. rewrite (ulp_exp_comp q q' Hq E).
  apply Qred_complete.
  rewrite (round_half_even_comp (q' / 2 ^ ulp_exp q) (q / 2 ^ ulp_exp q)); [reflexivity|].
  now rewrite <- E.
Qed.

Lemma scale_le q n u :
  (q <= inject_Z n * 2 ^ u)%Q -> (q / 2 ^ u <= inject_Z n)%Q.
Proof.
  intros H. pose proof (pow2_pos u) as P. apply Qle_shift_div_r; assumption.
Qed.

Lemma scale_ge q n u :
  (inject_Z n * 2 ^ u <= q)%Q -> (inject_Z n <= q / 2 ^ u)%Q.
Proof.
  intros H. pose proof (pow2_pos u) as P. apply Qle_shift_div_l; assumption.
Qed.

(** Rounding does not cross a multiple of the spacing. *)
Lemma round_pos_le_multiple q n :
  (q <= inject_Z n * 2 ^ ulp_exp q)%Q -> (round_pos q <= inject_Z n * 2 ^ ulp_exp q)%Q.
Proof.
  intros H. rewrite round_pos_eq. pose proof (pow2_pos (ulp_exp q)) as P.
  apply Qmult_le_compat_r; [|now apply Qlt_le_weak].
  rewrite <- Zle_Qle. apply round_half_even_le. now apply scale_le.
Qed.

Lemma round_pos_ge_multiple q n :
  (inject_Z n * 2 ^ ulp_exp q <= q)%Q -> (inject_Z n * 2 ^ ulp_exp q <= round_pos q)%Q.
Proof.
  intros H. rewrite round_pos_eq. pose proof (pow2_pos (ulp_exp q)) as P.
  apply Qmult_le_compat_r; [|now apply Qlt_le_weak].
  rewrite <- Zle_Qle. apply round_half_even_ge. now apply scale_ge.
Qed.

Lemma pow2_multiple m u : u <= m -> (2 ^ m == inject_Z (2 ^ (m - u)) * 2 ^ u)%Q.
Proof.
  intros H. rewrite pow2_Z by lia. rewrite <- pow2_add. now replace (m - u + u) with m by lia.
Qed.

Lemma round_pos_le_pow2 q m :
  ulp_exp q <= m -> (q <= 2 ^ m)%Q -> (round_pos q <= 2 ^ m)%Q.
Proof.
  intros Hu H. rewrite (pow2_multiple m (ulp_exp q) Hu) in *.
  now apply round_pos_le_multiple.
Qed.

Lemma round_pos_ge_pow2 q m :
  ulp_exp q <= m -> (2 ^ m <= q)%Q -> (2 ^ m <= round_pos q)%Q.
Proof.
  intros Hu H. rewrite (pow2_multiple m (ulp_exp q) Hu) in *.
  now apply round_pos_ge_multiple.
Qed.

Lemma round_pos_mono q q' :
  (0 < q)%Q -> (q <= q')%Q -> (round_pos q <= round_pos q')%Q.
Proof.
  intros Hq L.
  assert (0 < q')%Q as Hq' by (eapply Qlt_le_trans; eassumption).
  pose proof (ulp_exp_mono q q' Hq L) as Hu.
  destruct (Z.eq_dec (ulp_exp q) (ulp_exp q')) as [E|E].
  - rewrite !round_pos_eq, <- E. pose proof (pow2_pos (ulp_exp q)) as P.
    apply Qmult_le_compat_r; [|now apply Qlt_le_weak].
    rewrite <- Zle_Qle. apply round_half_even_mono.
    apply Qmult_le_compat_r; [exact L|]. apply Qlt_le_weak, Qinv_lt_0_compat, P.
  - (* a power of two lies between the two *)
    destruct (ilog2_spec q Hq) as [_ S2]. destruct (ilog2_spec q' Hq') as [T1 _].
    unfold ulp_exp in Hu, E.
    set (m := ilog2 q') in *.
    assert (-1022 < m) as Hm by lia.
    assert (Z.max (ilog2 q) (-1022) + 1 <= m) as Hm' by lia.
    apply Qle_trans with (2 ^ m)%Q.
    + apply round_pos_le_pow2; [unfold ulp_exp; lia|].
      apply Qle_trans with (2 ^ (ilog2 q + 1))%Q; [now apply Qlt_le_weak|].
      apply pow2_le. lia.
    + apply round_pos_ge_pow2; [unfold ulp_exp; fold m; lia | exact T1].
Qed.

Lemma round_pos_pos q : (0 < q)%Q -> -1022 <= ilog2 q -> (0 < round_pos q)%Q.
Proof.
  intros Hq He. destruct (ilog2_spec q Hq) as [S1 _].
  eapply Qlt_le_trans; [apply (pow2_pos (ilog2 q))|].
  apply round_pos_ge_pow2; [unfold ulp_exp; lia | exact S1].
Qed.

(** A multiple of the spacing is a double: rounding returns it. *)
Lemma round_pos_multiple q n :
  (q == inject_Z n * 2 ^ ulp_exp q)%Q -> (round_pos q == q)%Q.
Proof.
  intros E. apply Qle_antisym.
  - rewrite E at 2. apply round_pos_le_multiple. rewrite <- E. apply Qle_refl.
  - rewrite E at 1. apply round_pos_ge_multiple. rewrite <- E. apply Qle_refl.
Qed.

Lemma ilog2_Z z : 0 < z -> ilog2 (inject_Z z) = Z.log2 z.
Proof.
  intros Hz. destruct (Z.log2_spec z Hz) as [N1 N2].
  pose proof (Z.log2_nonneg z) as Ln.
  apply ilog2_unique.
  - rewrite <- pow2_Z by lia. now rewrite <- Zle_Qle.
  - rewrite <- pow2_Z by lia. rewrite <- Zlt_Qlt. now rewrite Z.add_1_r.
Qed.

(** The integers up to 2^53 are doubles. *)
Lemma round_pos_int z :
  0 < z <= 2 ^ 53 -> (round_pos (inject_Z z) == inject_Z z)%Q.
Proof.
  intros [Hz Hb]. pose proof (Z.log2_nonneg z) as Ln.
  pose proof (Z.log2_le_mono z (2 ^ 53) Hb) as Hl.
  rewrite Z.log2_pow2 in Hl by lia.
  assert (ulp_exp (inject_Z z) = Z.log2 z - 52) as Hu.
  { unfold ulp_exp. rewrite (ilog2_Z z Hz). lia. }
  destruct (Z.eq_dec (Z.log2 z) 53) as [E|E].
  - assert (z = 2 ^ 53) as ->.
    { destruct (Z.log2_spec z Hz) as [N1 _]. rewrite E in N1. lia. }
    apply (round_pos_multiple _ (2 ^ 52)). rewrite Hu. reflexivity.
  - apply (round_pos_multiple _ (z * 2 ^ (52 - Z.log2 z))). rewrite Hu.
    rewrite inject_Z_mult, pow2_Z by lia.
    rewrite <- Qmult_assoc, <- pow2_add.
    replace (52 - Z.log2 z + (Z.log2 z - 52)) with 0 by lia.
    change (2 ^ 0)%Q with 1%Q. ring.
Qed.

Lemma Qcompare_gt q : (0 < q)%Q -> (q ?= 0)%Q = Gt.
Proof. intros H. now apply Qgt_alt. Qed.

Lemma round_positive q :
  (0 < q)%Q ->
  round q = if Qle_bool (round_pos q) max_value then Finite (round_pos q)
            else Infinity false.
Proof. intros H. unfold round. now rewrite (Qcompare_gt q H). Qed.

Lemma round_comp q q' : (0 < q)%Q -> (q == q')%Q -> round q' = round q.
Proof.
  intros Hq E. assert (0 < q')%Q as Hq' by now rewrite <- E.
  rewrite !round_positive by assumption. now rewrite (round_pos_comp q q' Hq E).
Qed.

Lemma round_mono q q' :
  (0 < q)%Q -> (q <= q')%Q -> leb (round q) (round q') = true.
Proof.
  intros Hq L.
  assert (0 < q')%Q as Hq' by (eapply Qlt_le_trans; eassumption).
  pose proof (round_pos_mono q q' Hq L) as M.
  rewrite !round_positive by assumption.
  destruct (Qle_bool (round_pos q) max_value) eqn:A;
    destruct (Qle_bool (round_pos q') max_value) eqn:B; simpl; try reflexivity.
  - now apply Qle_bool_iff.
  - apply Qle_bool_iff in B.
    assert (Qle_bool (round_pos q) max_value = true) as C
        by (apply Qle_bool_iff; eapply Qle_trans; eassumption).
    congruence.
Qed.

(** [float(n)] of a positive integer is positive, and is [n] itself up
    to 2^53. *)
Lemma of_int_pos z q : 0 < z -> of_int z = Ok q -> (0 < q)%Q.
Proof.
  intros Hz. unfold of_int.
  assert (0 < inject_Z z)%Q as Hq by (unfold Qlt; simpl; lia).
  rewrite (round_positive _ Hq).
  destruct (Qle_bool _ _); [|discriminate]. intros [= <-].
  apply round_pos_pos; [exact Hq|]. rewrite (ilog2_Z z Hz).
  pose proof (Z.log2_nonneg z). lia.
Qed.

Lemma of_int_exact z :
  0 < z <= 2 ^ 53 -> exists q, of_int z = Ok q /\ (q == inject_Z z)%Q.
Proof.
  intros Hz. unfold of_int.
  assert (0 < inject_Z z)%Q as Hq by (unfold Qlt; simpl; lia).
  rewrite (round_positive _ Hq). pose proof (round_pos_int z Hz) as E.
  assert (Qle_bool (round_pos (inject_Z z)) max_value = true) as ->.
  { apply Qle_bool_iff. rewrite E. unfold max_value. rewrite <- Zle_Qle.
    assert (2 ^ 53 <= 2 ^ 1024 - 2 ^ 971) by (vm_compute; discriminate). lia. }
  eauto.
Qed.

Lemma round_comp_nonneg q q' : (0 <= q)%Q -> (q == q')%Q -> round q' = round q.
Proof.
  intros Hq E. destruct (Qlt_le_dec 0 q) as [P|N]; [now apply round_comp|].
  assert (q == 0)%Q as Z0 by now apply Qle_antisym.
  assert (q' == 0)%Q as Z1 by now rewrite <- E.
  unfold round. apply Qeq_alt in Z0, Z1. now rewrite Z0, Z1.
Qed.

Lemma round_small_int z :
  0 <= z <= 2 ^ 53 -> exists q, round (inject_Z z) = Finite q /\ (q == inject_Z z)%Q.
Proof.
  intros [H0 H1]. destruct (Z.eq_dec z 0) as [->|N].
  - exists 0%Q. split; reflexivity.
  - destruct (of_int_exact z) as (q & E & Hq); [lia|].
    exists q. split; [|exact Hq]. unfold of_int in E.
    destruct (round (inject_Z z)); congruence.
Qed.

(** *** Division *)

Lemma number_of_as_num v q :
  as_num v = Ok q -> exists n, number_of v = Ok n /\ value n = q.
Proof.
  destruct v as [|b|z|x|s|dt|l|dd]; simpl; try discriminate; intros [= <-]; eauto.
  destruct b; eauto.
Qed.

Lemma fdiv_positive x y : (0 < y)%Q -> fdiv x y = Ok (round (x / y)).
Proof.
  intros Hy. unfold fdiv.
  destruct (Qeq_bool y 0) eqn:E; [|reflexivity].
  apply Qeq_bool_iff in E. rewrite E in Hy. now apply Qlt_irrefl in Hy.
Qed.

Lemma value_Int_pos z : (0 < value (Int z))%Q -> 0 < z.
Proof. unfold Qlt. simpl. lia. Qed.

(** Dividing two positive numbers raises nothing but [OverflowError]. *)
Lemma divide_positive a b e :
  (0 < value a)%Q -> (0 < value b)%Q -> divide a b = Raise e -> e = OverflowError.
Proof.
  intros Ha Hb. destruct a as [x|x], b as [y|y]; simpl.
  - apply value_Int_pos in Hb.
    destruct (y =? 0) eqn:E; [apply Z.eqb_eq in E; lia|].
    destruct (round _); [discriminate | congruence].
  - unfold of_int. destruct (round (inject_Z x)); simpl; [|congruence].
    rewrite (fdiv_positive _ _ Hb). discriminate.
  - destruct (of_int y) as [y'|e'] eqn:E; simpl.
    + rewrite (fdiv_positive _ _ (of_int_pos y y' (value_Int_pos y Hb) E)). discriminate.
    + unfold of_int in E. destruct (round (inject_Z y)); congruence.
  - rewrite (fdiv_positive _ _ Hb). discriminate.
Qed.

Lemma Qdiv_pos x y : (0 < x)%Q -> (0 < y)%Q -> (0 < x / y)%Q.
Proof. intros Hx Hy. apply Qlt_shift_div_l; [exact Hy|]. now rewrite Qmult_0_l. Qed.

Lemma of_int_small z q :
  0 < z -> Z.abs z <= 2 ^ 53 -> of_int z = Ok q -> (q == inject_Z z)%Q.
Proof.
  intros Hz Hs E. destruct (of_int_exact z) as (q' & E' & Hq); [lia|]. congruence.
Qed.

(** A division that converts its operands exactly returns the rounded
    quotient of their values. *)
Lemma divide_rounds_once a b x :
  (0 < value a)%Q -> (0 < value b)%Q ->
  match a, b with
  | Int _, Int _ => True
  | _, _ =>
      match a with Int z => Z.abs z <= 2 ^ 53 | Flt _ => True end
      /\ match b with Int z => Z.abs z <= 2 ^ 53 | Flt _ => True end
  end ->
  divide a b = Ok x -> x = round (value a / value b).
Proof.
  intros Ha Hb Hs. destruct a as [m|m], b as [n|n]; simpl in *.
  - destruct (n =? 0); [discriminate|].
    destruct (round (inject_Z m / inject_Z n)); [|discriminate]. now intros [= <-].
  - destruct Hs as [Hm _]. destruct (of_int m) as [m'|] eqn:E; simpl; [|discriminate].
    rewrite (fdiv_positive _ _ Hb). intros [= <-].
    pose proof (of_int_small m m' (value_Int_pos m Ha) Hm E) as Em.
    apply (round_comp (inject_Z m / n) (m' / n)); [now apply Qdiv_pos|].
    now rewrite Em.
  - destruct Hs as [_ Hn]. destruct (of_int n) as [n'|] eqn:E; simpl; [|discriminate].
    pose proof (of_int_pos n n' (value_Int_pos n Hb) E) as Pn.
    rewrite (fdiv_positive _ _ Pn). intros [= <-].
    pose proof (of_int_small n n' (value_Int_pos n Hb) Hn E) as En.
    apply (round_comp (m / inject_Z n) (m / n')); [now apply Qdiv_pos|].
    now rewrite En.
  - rewrite (fdiv_positive _ _ Hb). now intros [= <-].
Qed.

End FloatFacts.

Module RankingFacts.
Import Ranking RankingSpec FloatFacts.

Lemma le_true a b : le a b = true <-> (a <= b)%Q.
Proof. apply Qle_bool_iff. Qed.

Lemma le_false a b : le a b = false <-> ~ (a <= b)%Q.
Proof.
  unfold le. rewrite <- Qle_bool_iff. destruct (Qle_bool a b); split; congruence.
Qed.

Lemma ge_true a b : ge a b = true <-> (b <= a)%Q.
Proof. apply Qle_bool_iff. Qed.

Lemma ge_false a b : ge a b = false <-> ~ (b <= a)%Q.
Proof. apply le_false. Qed.

Ltac band_contra :=
  match goal with
  | Hxy : (?x <= ?y)%Q, H1 : le ?y ?t = true, H2 : le ?x ?t = false |- _ =>
      exfalso; apply le_false in H2; apply H2;
      apply Qle_trans with y; [exact Hxy | apply le_true; exact H1]
  end.

Lemma ascending_bands_antitone c x y :
  (x <= y)%Q -> (ascending_bands c y <= ascending_bands c x)%Q.
Proof.
  intros Hxy. unfold ascending_bands.
  destruct (le y (excellent c)) eqn:Y1; destruct (le x (excellent c)) eqn:X1;
    try band_contra; try (unfold Qle; simpl; lia);
  destruct (le y (very_good c)) eqn:Y2; destruct (le x (very_good c)) eqn:X2;
    try band_contra; try (unfold Qle; simpl; lia);
  destruct (le y (good c)) eqn:Y3; destruct (le x (good c)) eqn:X3;
    try band_contra; try (unfold Qle; simpl; lia);
  destruct (le y (fair c)) eqn:Y4; destruct (le x (fair c)) eqn:X4;
    try band_contra; try (unfold Qle; simpl; lia);
  destruct (le y (poor c)) eqn:Y5; destruct (le x (poor c)) eqn:X5;
    try band_contra; try (unfold Qle; simpl; lia).
Qed.

Lemma ascending_bands_values c x :
  ascending_bands c x ∈ [100; 80; 60; 40; 20; 10]%Q.
Proof.
  unfold ascending_bands.
  repeat match goal with |- context [le ?a ?b] => destruct (le a b) end;
    set_solver.
Qed.

Lemma field_num_get d k q :
  field_num d k = Some q -> as_num (get d k (PInt 0)) = Ok q.
Proof.
  unfold field_num, get. destruct (d !! k) as [v|]; [|discriminate].
  destruct (as_num v); congruence.
Qed.

Lemma price_bands_finite c q :
  price_bands c (Float.Finite q) = ascending_bands c q.
Proof. reflexivity. Qed.

Lemma price_bands_values c x :
  price_bands c x ∈ [100; 80; 60; 40; 20; 10]%Q.
Proof.
  unfold price_bands.
  repeat match goal with |- context [Float.le ?a ?b] => destruct (Float.le a b) end;
    set_solver.
Qed.

Lemma price_bands_antitone c x y :
  Float.leb x y = true -> (price_bands c y <= price_bands c x)%Q.
Proof.
  destruct x as [a|[|]], y as [b|[|]]; simpl; try discriminate; intros H.
  - rewrite !price_bands_finite. apply ascending_bands_antitone. now apply Qle_bool_iff.
  - clear H. pose proof (price_bands_values c (Float.Finite a)) as V.
    change (price_bands c (Float.Infinity false)) with 10%Q.
    repeat (apply elem_of_cons in V as [->|V]; [unfold Qle; simpl; lia|]).
    now apply elem_of_nil in V.
  - clear H. pose proof (price_bands_values c (Float.Finite b)) as V.
    change (price_bands c (Float.Infinity true)) with 100%Q.
    repeat (apply elem_of_cons in V as [->|V]; [unfold Qle; simpl; lia|]).
    now apply elem_of_nil in V.
Qed.

(** [_evaluate_price] once both comparisons with 0 have passed. *)
Lemma evaluate_price_positive self d pv av p a :
  d !! "price_numeric" = Some pv -> d !! "land_area_tsubo" = Some av ->
  as_num pv = Ok p -> as_num av = Ok a -> (0 < p)%Q -> (0 < a)%Q ->
  _evaluate_price self d
  = match Float.truediv pv av with
    | Ok x => price_bands (price_criteria self) x
    | Raise _ => 50%Q
    end.
Proof.
  intros Hp Ha Np Na Pp Pa. unfold _evaluate_price, get. rewrite Hp, Ha. cbv zeta.
  rewrite Np, Na. cbn [rbind].
  assert (le p 0 = false) as -> by (apply le_false; intros H; apply Qle_not_lt in H; auto).
  assert (le a 0 = false) as -> by (apply le_false; intros H; apply Qle_not_lt in H; auto).
  destruct (Float.truediv pv av); reflexivity.
Qed.

Lemma evaluate_price_neutral self d :
  (~ exists p a, field_num d "price_numeric" = Some p
                 /\ field_num d "land_area_tsubo" = Some a
                 /\ (0 < p)%Q /\ (0 < a)%Q) ->
  _evaluate_price self d = 50%Q.
Proof.
  intros H. unfold _evaluate_price. cbv zeta.
  destruct (as_num (get d "price_numeric" (PInt 0))) as [p|e] eqn:Ep; [|reflexivity].
  cbn [rbind]. destruct (le p 0) eqn:Lp; [reflexivity|].
  destruct (as_num (get d "land_area_tsubo" (PInt 0))) as [a|e] eqn:Ea; [|reflexivity].
  cbn [rbind]. destruct (le a 0) eqn:La; [reflexivity|].
  exfalso. apply H. exists p, a.
  apply le_false in Lp, La. apply Qnot_le_lt in Lp, La.
  unfold field_num, get in *.
  destruct (d !! "price_numeric") as [vp|].
  - destruct (d !! "land_area_tsubo") as [va|].
    + rewrite Ep, Ea. auto.
    + simpl in Ea. inversion Ea; subst. exfalso. revert La. unfold Qlt. simpl. lia.
  - simpl in Ep. inversion Ep; subst. exfalso. revert Lp. unfold Qlt. simpl. lia.
Qed.

Lemma truediv_numbers pv av p a :
  as_num pv = Ok p -> as_num av = Ok a ->
  exists m n, Float.number_of pv = Ok m /\ Float.number_of av = Ok n
              /\ Float.value m = p /\ Float.value n = a
              /\ Float.truediv pv av = Float.divide m n.
Proof.
  intros Np Na.
  destruct (number_of_as_num pv p Np) as (m & Hm & Vm).
  destruct (number_of_as_num av a Na) as (n & Hn & Vn).
  exists m, n. unfold Float.truediv. rewrite Hm, Hn. auto.
Qed.

Lemma single_rounding_numbers pv av m n :
  single_rounding pv av ->
  Float.number_of pv = Ok m -> Float.number_of av = Ok n ->
  match m, n with
  | Float.Int _, Float.Int _ => True
  | _, _ =>
      match m with Float.Int z => Z.abs z <= 2 ^ 53 | Float.Flt _ => True end
      /\ match n with Float.Int z => Z.abs z <= 2 ^ 53 | Float.Flt _ => True end
  end.
Proof.
  intros [[I1 I2]|[S1 S2]] Hm Hn.
  - destruct pv; try discriminate; destruct av; try discriminate;
      simpl in Hm, Hn; injection Hm as <-; injection Hn as <-; exact I.
  - destruct pv as [|b|z|x|s|dt|l|dd]; try discriminate;
      destruct av as [|b'|z'|x'|s'|dt'|l'|dd']; try discriminate;
      simpl in Hm, Hn; injection Hm as <-; injection Hn as <-; simpl in *;
      try exact I; try (split; [try exact I | try exact I]); try assumption;
      try (destruct b; simpl; lia); try (destruct b'; simpl; lia).
Qed.

Lemma ascending_bands_at c x y :
  (x == y)%Q -> ascending_bands c x = ascending_bands c y.
Proof.
  intros H. unfold ascending_bands, le. now rewrite !H.
Qed.





(** C4 (as amended): for records whose price and area are both positive
    numbers and whose division does not raise, the price score is the
    band of the per-tsubo price that the division computes (a double),
    one of the six step values, and it never increases when that
    per-tsubo price grows; it never increases with the exact quotient
    either when the division rounds once. Under the default bands a
    per-tsubo price of 8 scores 100, 12 scores 80 and 35 scores 10. When
    the division raises, which for positive numbers is an
    [OverflowError] (an integer too large for a float), and whenever
    the price or the area is absent, not a number or not positive, the
    score is the neutral 50. *)
Theorem C4_price_score_step_function (self : PropertyRanker) :
  (forall d pv av p a,
      d !! "price_numeric" = Some pv -> d !! "land_area_tsubo" = Some av ->
      as_num pv = Ok p -> as_num av = Ok a -> (0 < p)%Q -> (0 < a)%Q ->
      (forall x, Float.truediv pv av = Ok x ->
                 _evaluate_price self d = price_bands (price_criteria self) x
                 /\ _evaluate_price self d ∈ [100; 80; 60; 40; 20; 10]%Q)
      /\ (forall e, Float.truediv pv av = Raise e ->
                    e = OverflowError /\ _evaluate_price self d = 50%Q))
  /\ (forall x y,
        Float.leb x y = true ->
        (price_bands (price_criteria self) y <= price_bands (price_criteria self) x)%Q)
  /\ (forall d1 pv1 av1 p1 a1 x1 d2 pv2 av2 p2 a2 x2,
        d1 !! "price_numeric" = Some pv1 -> d1 !! "land_area_tsubo" = Some av1 ->
        as_num pv1 = Ok p1 -> as_num av1 = Ok a1 -> (0 < p1)%Q -> (0 < a1)%Q ->
        d2 !! "price_numeric" = Some pv2 -> d2 !! "land_area_tsubo" = Some av2 ->
        as_num pv2 = Ok p2 -> as_num av2 = Ok a2 -> (0 < p2)%Q -> (0 < a2)%Q ->
        single_rounding pv1 av1 -> single_rounding pv2 av2 ->
        Float.truediv pv1 av1 = Ok x1 -> Float.truediv pv2 av2 = Ok x2 ->
        (p1 / a1 <= p2 / a2)%Q ->
        (_evaluate_price self d2 <= _evaluate_price self d1)%Q)
  /\ (price_bands (price_criteria Config.config) (Float.Finite 8) = 100%Q
      /\ price_bands (price_criteria Config.config) (Float.Finite 12) = 80%Q
      /\ price_bands (price_criteria Config.config) (Float.Finite 35) = 10%Q)
  /\ (forall d,
        (d !! "price_numeric" = None \/ d !! "land_area_tsubo" = None
         \/ (exists p, field_num d "price_numeric" = Some p /\ (p <= 0)%Q)
         \/ (exists a, field_num d "land_area_tsubo" = Some a /\ (a <= 0)%Q)
         \/ d !! "price_numeric" = Some PNone
         \/ d !! "land_area_tsubo" = Some PNone) ->
        _evaluate_price self d = 50%Q).
Proof.
  split; [|split; [|split; [|split]]].
  - intros d pv av p a Hp Ha Np Na Pp Pa.
    rewrite (evaluate_price_positive self d pv av p a Hp Ha Np Na Pp Pa).
    split.
    + intros x ->. split; [reflexivity | apply price_bands_values].
    + intros e E. rewrite E. split; [|reflexivity].
      destruct (truediv_numbers pv av p a Np Na) as (m & n & _ & _ & Vm & Vn & D).
      rewrite D in E. apply (divide_positive m n e); [now rewrite Vm | now rewrite Vn | exact E].
  - intros x y. apply price_bands_antitone.
  - intros d1 pv1 av1 p1 a1 x1 d2 pv2 av2 p2 a2 x2
           H1 H2 N1 N2 P1 P2 H3 H4 N3 N4 P3 P4 S1 S2 D1 D2 L.
    rewrite (evaluate_price_positive self d1 pv1 av1 p1 a1 H1 H2 N1 N2 P1 P2), D1.
    rewrite (evaluate_price_positive self d2 pv2 av2 p2 a2 H3 H4 N3 N4 P3 P4), D2.
    apply price_bands_antitone.
    destruct (truediv_numbers pv1 av1 p1 a1 N1 N2) as (m1 & n1 & Hm1 & Hn1 & Vm1 & Vn1 & E1).
    destruct (truediv_numbers pv2 av2 p2 a2 N3 N4) as (m2 & n2 & Hm2 & Hn2 & Vm2 & Vn2 & E2).
    rewrite E1 in D1. rewrite E2 in D2. subst p1 a1 p2 a2.
    rewrite (divide_rounds_once m1 n1 x1 P1 P2
               (single_rounding_numbers _ _ _ _ S1 Hm1 Hn1) D1).
    rewrite (divide_rounds_once m2 n2 x2 P3 P4
               (single_rounding_numbers _ _ _ _ S2 Hm2 Hn2) D2).
    apply round_mono; [now apply Qdiv_pos | exact L].
  - repeat split; reflexivity.
  - intros d H. apply evaluate_price_neutral.
    intros (p & a & Hp & Ha & Pp & Pa). unfold field_num in *.
    destruct H as [H|[H|[(p' & H & L)|[(a' & H & L)|[H|H]]]]];
      try (rewrite H in *; simpl in *; congruence).
    + rewrite Hp in H. inversion H; subst. apply Qle_not_lt in L. auto.
    + rewrite Ha in H. inversion H; subst. apply Qle_not_lt in L. auto.
Qed.

Lemma C4_price_score_witness :
  _evaluate_price Config.config listing_8 = 100%Q
  /\ (_evaluate_price Config.config listing_12
      <= _evaluate_price Config.config listing_8)%Q
  /\ _evaluate_price Config.config listing_35 = 10%Q
  /\ _evaluate_price Config.config listing_huge = 50%Q
  /\ _evaluate_price Config.config listing_unpriced = 50%Q.
Proof.
  destruct (C4_price_score_step_function Config.config)
    as (Hband & _ & Hmono & (H8 & _ & H35) & Hneutral).
  split; [|split; [|split; [|split]]].
  - destruct (Hband listing_8 (PInt 800) (PFloat 100) 800%Q 100%Q
                    eq_refl eq_refl eq_refl eq_refl eq_refl eq_refl) as [Hok _].
    destruct (Hok (Float.Finite 8)) as [E _]; [vm_compute; reflexivity|].
    rewrite E. exact H8.
  - refine (Hmono listing_8 (PInt 800) (PFloat 100) 800%Q 100%Q (Float.Finite 8)
                  listing_12 (PInt 600) (PInt 50) 600%Q 50%Q (Float.Finite 12)
                  eq_refl eq_refl eq_refl eq_refl eq_refl eq_refl
                  eq_refl eq_refl eq_refl eq_refl eq_refl eq_refl
                  _ _ _ _ _).
    + right. split; [simpl; lia | exact I].
    + left. split; reflexivity.
    + vm_compute. reflexivity.
    + vm_compute. reflexivity.
    + unfold Qle; simpl; lia.
  - destruct (Hband listing_35 (PInt 3500) (PFloat 100) 3500%Q 100%Q
                    eq_refl eq_refl eq_refl eq_refl eq_refl eq_refl) as [Hok _].
    destruct (Hok (Float.Finite 35)) as [E _]; [vm_compute; reflexivity|].
    rewrite E. exact H35.
  - destruct (Hband listing_huge (PInt (10 ^ 400)) (PFloat 100)
                    (inject_Z (10 ^ 400)) 100%Q
                    eq_refl eq_refl eq_refl eq_refl eq_refl eq_refl) as [_ Hraise].
    apply (Hraise OverflowError). vm_compute. reflexivity.
  - apply Hneutral. left. reflexivity.
Defined.

(** C4 (counterexample): a price of 10^400 with an area of 100.0 tsubo
    is a positive pair, yet the division raises [OverflowError] and the
    score is the neutral 50, which is none of the step values; the
    listing with the smaller per-tsubo price 10000 / 100.0 scores 10, so
    the score increases with the per-tsubo price. *)
Lemma C4_huge_price_counterexample :
  field_num listing_huge "price_numeric" = Some (inject_Z (10 ^ 400))
  /\ field_num listing_huge "land_area_tsubo" = Some 100%Q
  /\ field_num listing_dear "price_numeric" = Some 10000%Q
  /\ field_num listing_dear "land_area_tsubo" = Some 100%Q
  /\ (10000 / 100 <= inject_Z (10 ^ 400) / 100)%Q
  /\ _evaluate_price Config.config listing_dear = 10%Q
  /\ _evaluate_price Config.config listing_huge = 50%Q
  /\ ~ (_evaluate_price Config.config listing_huge
        <= _evaluate_price Config.config listing_dear)%Q.
Proof.
  assert (_evaluate_price Config.config listing_dear = 10%Q) as E1
      by (vm_compute; reflexivity).
  assert (_evaluate_price Config.config listing_huge = 50%Q) as E2
      by (vm_compute; reflexivity).
  repeat split; try reflexivity; try assumption.
  - vm_compute. discriminate.
  - rewrite E1, E2. vm_compute. intros H. apply H. reflexivity.
Qed.

Lemma startswith_spec p s :
  Str.startswith p s = true <-> exists post, s = p ++ post.
Proof.
  revert s. induction p as [|c p IH]; intros s; simpl.
  - split; eauto.
  - destruct s as [|d s]; simpl.
    + split; [discriminate | intros [post H]; discriminate].
    + rewrite andb_true_iff, N.eqb_eq, IH. split.
      * intros [-> [post ->]]. eauto.
      * intros [post H]. inversion H; subst. eauto.
Qed.

Lemma contains_spec n h :
  Str.contains n h = true <-> exists pre post, h = pre ++ n ++ post.
Proof.
  induction h as [|c h IH]; simpl.
  - rewrite orb_false_r, startswith_spec. split.
    + intros [post H]. exists [], post. exact H.
    + intros (pre & post & H). destruct pre; simpl in H.
      * eauto.
      * discriminate.
  - rewrite orb_true_iff, startswith_spec, IH. split.
    + intros [[post H]|(pre & post & H)].
      * exists [], post. exact H.
      * exists (c :: pre), post. simpl. now rewrite H.
    + intros (pre & post & H). destruct pre as [|c' pre]; simpl in H.
      * left. eauto.
      * right. inversion H; subst. eauto.
Qed.

Lemma contains_kinrin_shogyo s :
  Str.contains (u "近隣商業") s = true -> Str.contains (u "商業") s = true.
Proof.
  rewrite !contains_spec. intros (pre & post & H).
  exists (pre ++ u "近隣"), post. rewrite H, <- app_assoc.
  f_equal.
Qed.

(** C5 (the code at the failing input): every zoning text that contains
    the neighbourhood-commercial label also contains the commercial
    label, which is tested first, so it scores 90; the branch that would
    score 80 is never taken. A listing that carries only such a zoning
    text gets the investment score 90. *)
Theorem C5_neighborhood_commercial_scores_90 (s : pystr) :
  Str.contains (u "近隣商業") s = true ->
  usage_score (PStr s) = Ok 90%Q
  /\ (forall self d,
        d !! "usage_area" = Some (PStr s) ->
        d !! "building_coverage" = None -> d !! "floor_area_ratio" = None ->
        (_evaluate_investment self d == 90)%Q).
Proof.
  intros H. apply contains_kinrin_shogyo in H.
  assert (usage_score (PStr s) = Ok 90%Q) as Hu.
  { unfold usage_score. simpl. rewrite H. reflexivity. }
  split; [exact Hu|].
  intros self d Hd Hb Hf.
  unfold _evaluate_investment, investment_scores, get.
  rewrite Hd, Hb, Hf. simpl. rewrite Hu. reflexivity.
Qed.

Lemma C5_neighborhood_commercial_witness :
  usage_score (PStr (u "近隣商業地域")) = Ok 90%Q
  /\ (_evaluate_investment Config.config listing_kinrin == 90)%Q.
Proof.
  destruct (C5_neighborhood_commercial_scores_90 (u "近隣商業地域")) as [H1 H2].
  - reflexivity.
  - split; [exact H1|]. apply H2; reflexivity.
Defined.

End RankingFacts.

Module DatabaseFacts.
Import Database DatabaseSpec.

Lemma col_insert_eq (r : row) k v : col (<[k := v]> r) k = v.
Proof. unfold col. now rewrite lookup_insert_eq. Qed.

Lemma col_insert_ne (r : row) k k' v : k ≠ k' -> col (<[k := v]> r) k' = col r k'.
Proof. intros H. unfold col. now rewrite lookup_insert_ne. Qed.

Lemma is_old_active ids r : is_old ids r = true -> is_active r = true.
Proof.
  unfold is_old. destruct ids; [auto|]. rewrite andb_true_iff. tauto.
Qed.

Lemma is_old_spec ids r :
  col r "property_id" ≠ VNull ->
  is_old ids r = is_active r && negb (id_observed ids r).
Proof.
  intros Hnn. unfold is_old, id_observed, sql_not_in.
  destruct ids as [|x ids].
  - destruct (col r "property_id"); rewrite ?andb_true_r; reflexivity.
  - destruct (col r "property_id"); try congruence; simpl;
      rewrite ?andb_true_r; try reflexivity; apply andb_comm.
Qed.

Lemma is_active_deactivated now r : is_active (deactivated now r) = false.
Proof.
  unfold is_active, deactivated.
  rewrite col_insert_ne by done. now rewrite col_insert_eq.
Qed.

Lemma deactivate_rows self now ids :
  properties (deactivate_old_properties self now ids).2
  = (fun r => if is_old ids r then deactivated now r else r) <$> properties self.
Proof. reflexivity. Qed.

Lemma deactivate_count self now ids :
  (deactivate_old_properties self now ids).1
  = Z.of_nat (length (List.filter (is_old ids) (properties self))).
Proof. reflexivity. Qed.

Lemma filter_ext_Forall {A} (f g : A -> bool) (P : A -> Prop) l :
  Forall P l -> (forall x, P x -> f x = g x) -> List.filter f l = List.filter g l.
Proof.
  intros HF Hfg. induction HF as [|x l Hx HF IH]; simpl; [reflexivity|].
  rewrite (Hfg x Hx), IH. reflexivity.
Qed.

Lemma filter_none {A} (f : A -> bool) l :
  (forall x, x ∈ l -> f x = false) -> List.filter f l = [].
Proof.
  induction l as [|x l IH]; intros H; simpl; [reflexivity|].
  rewrite (H x) by set_solver. apply IH. intros y Hy. apply H. set_solver.
Qed.

Lemma fmap_id_on {A} (f : A -> A) (l : list A) :
  (forall x, x ∈ l -> f x = x) -> f <$> l = l.
Proof.
  induction l as [|x l IH]; intros H; simpl; [reflexivity|].
  rewrite (H x) by set_solver. f_equal. apply IH. intros y Hy. apply H. set_solver.
Qed.

(** C3: reconciliation deactivates exactly the rows that are active and
    whose id is not among the observed ids, and returns their number;
    with no observed id these are all the active rows, and when every
    row's id is observed nothing changes and the count is 0. *)
Theorem C3_reconcile_deactivates_unobserved
        (self : PropertyDatabase) (now : datetime) (ids : list pystr) :
  Forall (fun r => col r "property_id" ≠ VNull) (properties self) ->
  let res := deactivate_old_properties self now ids in
  res.1 = Z.of_nat (length (List.filter
                              (fun r => is_active r && negb (id_observed ids r))
                              (properties self)))
  /\ (forall i r,
        properties self !! i = Some r ->
        exists r',
          properties res.2 !! i = Some r'
          /\ (is_active r = true -> id_observed ids r = false ->
              col r' "is_active" = VInt 0 /\ is_active r' = false)
          /\ (is_active r = false \/ id_observed ids r = true -> r' = r))
  /\ (ids = [] ->
      res.1 = Z.of_nat (length (List.filter is_active (properties self)))
      /\ Forall (fun r' => is_active r' = false) (properties res.2))
  /\ ((forall r, r ∈ properties self -> id_observed ids r = true) ->
      res.1 = 0 /\ res.2 = self).
Proof.
  intros Hnn res. subst res.
  rewrite deactivate_count.
  split; [|split; [|split]].
  - f_equal. f_equal. apply (filter_ext_Forall _ _ _ _ Hnn).
    intros r Hr. now apply is_old_spec.
  - intros i r Hi. rewrite deactivate_rows, list_lookup_fmap, Hi. simpl.
    eexists. split; [reflexivity|].
    assert (col r "property_id" ≠ VNull) as Hr.
    { rewrite Forall_forall in Hnn. apply Hnn.
      eapply list_elem_of_lookup_2. exact Hi. }
    rewrite (is_old_spec ids r Hr). split.
    + intros Ha Ho. rewrite Ha, Ho. simpl. split.
      * unfold deactivated. rewrite col_insert_ne by done. apply col_insert_eq.
      * apply is_active_deactivated.
    + intros [Ha|Ho]; [rewrite Ha | rewrite Ho, andb_false_r]; reflexivity.
  - intros ->. split; [reflexivity|].
    rewrite deactivate_rows. apply Forall_fmap, Forall_forall. intros r _. simpl.
    destruct (is_active r) eqn:E; [apply is_active_deactivated | exact E].
  - intros Hall.
    assert (forall r, r ∈ properties self -> is_old ids r = false) as Hold.
    { intros r Hr. rewrite is_old_spec.
      - rewrite (Hall r Hr). apply andb_false_r.
      - rewrite Forall_forall in Hnn. now apply Hnn. }
    split.
    + rewrite filter_none; [reflexivity | exact Hold].
    + destruct self as [rows sq logs lsq]. unfold deactivate_old_properties. simpl.
      f_equal. apply fmap_id_on. intros r Hr. simpl in Hold. now rewrite (Hold r Hr).
Qed.

(** C10: a row that is not active is left as it is, whatever the observed
    ids; a row that the call turns from active to inactive gets
    [is_active = 0] and [updated_at = now] and keeps every other column;
    no other row changes, and the run log is not touched. *)
Theorem C10_reconcile_frame
        (self : PropertyDatabase) (now : datetime) (ids : list pystr) :
  let self' := (deactivate_old_properties self now ids).2 in
  length (properties self') = length (properties self)
  /\ scraping_logs self' = scraping_logs self
  /\ forall i r,
      properties self !! i = Some r ->
      exists r',
        properties self' !! i = Some r'
        /\ (is_active r = false -> r' = r)
        /\ (r' ≠ r -> is_active r = true /\ is_active r' = false)
        /\ (is_active r = true -> is_active r' = false ->
            r' !! "is_active" = Some (VInt 0)
            /\ r' !! "updated_at" = Some (VText (adapt_datetime now))
            /\ forall k, k ≠ "is_active" -> k ≠ "updated_at" -> r' !! k = r !! k).
Proof.
  intros self'. subst self'. rewrite deactivate_rows.
  split; [now rewrite length_fmap|]. split; [reflexivity|].
  intros i r Hi. rewrite list_lookup_fmap, Hi. simpl.
  eexists. split; [reflexivity|].
  destruct (is_old ids r) eqn:Hold.
  - pose proof (is_old_active _ _ Hold) as Ha.
    split; [congruence|]. split.
    + intros _. split; [exact Ha | apply is_active_deactivated].
    + intros _ _. unfold deactivated. split; [|split].
      * rewrite lookup_insert_ne by done. apply lookup_insert_eq.
      * apply lookup_insert_eq.
      * intros k K1 K2. now rewrite !lookup_insert_ne by done.
  - split; [reflexivity|]. split; [congruence|].
    intros Ha Hi'. congruence.
Qed.


Lemma sql_eq_text v s : sql_eq v (VText s) = true <-> v = VText s.
Proof.
  destruct v; simpl; try (split; [discriminate | congruence]).
  unfold Str.eqb. rewrite bool_decide_eq_true. split; congruence.
Qed.

Lemma find_elem {A} (f : A -> bool) (l : list A) x :
  x ∈ l -> f x = true -> exists y, List.find f l = Some y.
Proof.
  intros Hx Hf. destruct (List.find f l) eqn:E; [eauto|].
  exfalso. apply list_elem_of_In in Hx.
  pose proof (List.find_none f l E x Hx). congruence.
Qed.

Lemma jsonify_lookup_ne (d : pydict) k :
  k ≠ "image_urls" -> k ≠ "raw_data" -> jsonify d !! k = d !! k.
Proof.
  intros K1 K2. unfold jsonify.
  destruct (d !! "image_urls") as [[]|] eqn:E1;
    repeat match goal with
           | |- context [match ?m !! "raw_data" with _ => _ end] =>
               destruct (m !! "raw_data") as [[]|]
           end;
    now rewrite ?lookup_insert_ne by done.
Qed.

Lemma jsonify_lookup_ne_raw (d : pydict) :
  jsonify d !! "image_urls"
  = match d !! "image_urls" with
    | Some (PList l) => <["image_urls" := PStr (Json.dumps_list l)]> d
    | _ => d
    end !! "image_urls".
Proof.
  unfold jsonify.
  match goal with
  | |- context [match ?m !! "raw_data" with _ => _ end] =>
      destruct (m !! "raw_data") as [[]|]
  end; now rewrite ?lookup_insert_ne by done.
Qed.


Lemma jsonify_no_list (d : pydict) l : jsonify d !! "image_urls" ≠ Some (PList l).
Proof.
  rewrite jsonify_lookup_ne_raw. 
  destruct (d !! "image_urls") as [[]|] eqn:E1;
    rewrite ?lookup_insert_eq, ?E1; congruence.
Qed.

Lemma jsonify_no_dict (d : pydict) x : jsonify d !! "raw_data" ≠ Some (PDict x).
Proof.
  unfold jsonify.
  match goal with
  | |- context [match ?m !! "raw_data" with _ => _ end] =>
      destruct (m !! "raw_data") as [[]|] eqn:E2
  end; rewrite ?lookup_insert_eq, ?E2; congruence.
Qed.


Lemma bind_all_spec items sets :
  bind_all items = Ok sets ->
  Forall2 (fun kv kv' => kv'.1 = kv.1 /\ adapt kv.2 = Ok kv'.2) items sets.
Proof.
  revert sets. induction items as [|[k v] items IH]; intros sets H; simpl in H.
  - inversion H. constructor.
  - destruct (adapt v) as [v'|] eqn:Ev; simpl in H; [|discriminate].
    destruct (bind_all items) as [rest|] eqn:Er; simpl in H; [|discriminate].
    inversion H; subst. constructor; [split; auto | auto].
Qed.

Lemma assign_lookup_notin (r : row) sets k :
  k ∉ sets.*1 -> assign r sets !! k = r !! k.
Proof.
  unfold assign. revert r. induction sets as [|[k' v'] sets IH]; intros r Hk; simpl.
  - reflexivity.
  - rewrite fmap_cons in Hk. simpl in Hk. apply not_elem_of_cons in Hk as [Hne Hk].
    rewrite IH by exact Hk. apply lookup_insert_ne. congruence.
Qed.

Lemma assign_lookup_in (r : row) sets k v :
  NoDup sets.*1 -> (k, v) ∈ sets -> assign r sets !! k = Some v.
Proof.
  unfold assign. revert r. induction sets as [|[k' v'] sets IH]; intros r Hnd Hin; simpl.
  - apply elem_of_nil in Hin. contradiction.
  - rewrite fmap_cons in Hnd. simpl in Hnd.
    apply NoDup_cons in Hnd as [Hk' Hnd]. apply elem_of_cons in Hin as [Heq|Hin].
    + inversion Heq; subst.
      change (assign (<[k' := v']> r) sets !! k' = Some v').
      rewrite assign_lookup_notin by exact Hk'. apply lookup_insert_eq.
    + now apply IH.
Qed.

Lemma prepare_spec columns (d : pydict) sets :
  prepare columns d = Ok sets ->
  NoDup sets.*1
  /\ (forall k, d !! k = None -> k ∉ sets.*1)
  /\ (forall k v, d !! k = Some v -> exists v', adapt v = Ok v' /\ (k, v') ∈ sets).
Proof.
  unfold prepare. destruct (forallb _ _); [|discriminate].
  intros H. apply bind_all_spec in H.
  assert (sets.*1 = (map_to_list d).*1) as Hkeys.
  { clear -H. induction H as [|[k v] [k' v'] l l' [Hk Hv] HF IH];
      [reflexivity|]. rewrite !fmap_cons. simpl in Hk. simpl. now f_equal. }
  split; [|split].
  - rewrite Hkeys. apply NoDup_fst_map_to_list.
  - intros k Hk. rewrite Hkeys. intros Hin.
    apply list_elem_of_fmap in Hin as [[k' v] [-> Hin]].
    apply elem_of_map_to_list in Hin. simpl in Hk. congruence.
  - intros k v Hk. apply elem_of_map_to_list in Hk.
    apply list_elem_of_lookup in Hk as [i Hi].
    destruct (Forall2_lookup_l _ _ _ _ _ H Hi) as ([k' v'] & Hi' & Hk' & Hv').
    simpl in *. subst k'. exists v'. split; [exact Hv'|].
    eapply list_elem_of_lookup_2. exact Hi'.
Qed.


Lemma updated_row_spec columns (fields : pydict) sets (r : row) t :
  prepare columns fields = Ok sets ->
  let r' := <["updated_at" := t]> (assign r sets) in
  r' !! "updated_at" = Some t
  /\ (forall k v, k ≠ "updated_at" -> fields !! k = Some v ->
                  exists v', adapt v = Ok v' /\ r' !! k = Some v')
  /\ (forall k, k ≠ "updated_at" -> fields !! k = None -> r' !! k = r !! k).
Proof.
  intros Hp r'. destruct (prepare_spec _ _ _ Hp) as (Hnd & Hnone & Hsome).
  subst r'. split; [apply lookup_insert_eq|]. split.
  - intros k v Hk Hf. destruct (Hsome k v Hf) as (v' & Hv' & Hin).
    exists v'. split; [exact Hv'|].
    rewrite lookup_insert_ne by done. now apply assign_lookup_in.
  - intros k Hk Hf. rewrite lookup_insert_ne by done.
    apply assign_lookup_notin. now apply Hnone.
Qed.



Lemma distinct_on_ext c l1 l2 :
  Forall2 (fun a b => col a c = col b c) l1 l2 ->
  distinct_on c l1 = distinct_on c l2.
Proof.
  induction 1 as [|a b l1 l2 Hab HF IH]; simpl; [reflexivity|].
  rewrite IH. f_equal. f_equal. rewrite Hab. clear -HF.
  induction HF as [|x y l1 l2 Hxy HF IH]; simpl; [reflexivity|].
  now rewrite Hxy, IH.
Qed.





(** The effect of [upsert_property] on a store that holds the id. *)
Lemma upsert_existing_inv self now cts (d : pydict) s is_new pid d' self' :
  d !! "property_id" = Some (PStr s) ->
  (exists r0, r0 ∈ properties self /\ col r0 "property_id" = VText s) ->
  upsert_property self now cts d = Ok (is_new, pid, d', self') ->
  exists sets,
    prepare properties_columns (delete "property_id" (jsonify d)) = Ok sets
    /\ delete "property_id" (jsonify d) ≠ ∅
    /\ is_new = false /\ pid = PStr s /\ d' = jsonify d
    /\ self' = Db ((fun r => if sql_eq (col r "property_id") (VText s)
                             then <["updated_at" := VText (adapt_datetime now)]>
                                    (assign r sets)
                             else r) <$> properties self)
                   (properties_seq self) (scraping_logs self) (scraping_logs_seq self)
    /\ constraints_ok (properties self') = true.
Proof.
  intros Hid (r0 & Hr0 & Hc) H. unfold upsert_property, get in H.
  rewrite Hid in H. cbn [adapt rbind] in H.
  destruct (find_elem (fun r => sql_eq (col r "property_id") (VText s)) _ r0 Hr0)
    as [y Hy]; [now apply sql_eq_text|].
  rewrite Hy in H.
  destruct (bool_decide (delete "property_id" (jsonify d) = ∅)) eqn:He; [discriminate H|].
  apply bool_decide_eq_false in He.
  destruct (prepare properties_columns (delete "property_id" (jsonify d)))
    as [sets|] eqn:Hp; cbn [adapt rbind] in H; [|discriminate H].
  match type of H with
  | (if constraints_ok ?rows then _ else _) = _ =>
      destruct (constraints_ok rows) eqn:Hok; [|discriminate H]
  end.
  injection H as <- <- <- <-.
  exists sets. split; [reflexivity|]. split; [exact He|].
  split; [reflexivity|]. split; [reflexivity|]. split; [reflexivity|].
  split; [reflexivity|]. exact Hok.
Qed.

Lemma upsert_existing_run self now cts (dd : pydict) s sets r0 :
  dd !! "property_id" = Some (PStr s) ->
  r0 ∈ properties self -> col r0 "property_id" = VText s ->
  delete "property_id" (jsonify dd) ≠ ∅ ->
  prepare properties_columns (delete "property_id" (jsonify dd)) = Ok sets ->
  constraints_ok ((fun r => if sql_eq (col r "property_id") (VText s)
                            then <["updated_at" := VText (adapt_datetime now)]>
                                   (assign r sets)
                            else r) <$> properties self) = true ->
  upsert_property self now cts dd
  = Ok (false, PStr s, jsonify dd,
        Db ((fun r => if sql_eq (col r "property_id") (VText s)
                      then <["updated_at" := VText (adapt_datetime now)]> (assign r sets)
                      else r) <$> properties self)
           (properties_seq self) (scraping_logs self) (scraping_logs_seq self)).
Proof.
  intros Hid Hr0 Hc Hne Hp Hok. unfold upsert_property, get.
  rewrite Hid. cbn [adapt rbind].
  destruct (find_elem (fun r => sql_eq (col r "property_id") (VText s)) _ r0 Hr0)
    as [y Hy]; [now apply sql_eq_text|].
  rewrite Hy. rewrite bool_decide_eq_false_2 by exact Hne.
  rewrite Hp. cbn [adapt rbind].
  match goal with
  | |- (if constraints_ok ?rows then _ else _) = _ =>
      replace (constraints_ok rows) with true by (symmetry; exact Hok)
  end.
  reflexivity.
Qed.






Lemma C10_reconcile_witness :
  exists r',
    properties (deactivate_old_properties store_three day2 [u "athome_1"]).2 !! 2%nat
    = Some r'
    /\ r' = listed "athome_3" 0.
Proof.
  destruct (C10_reconcile_frame store_three day2 [u "athome_1"]) as (_ & _ & H).
  destruct (H 2%nat (listed "athome_3" 0) eq_refl) as (r' & Hr' & Hsame & _).
  exists r'. split; [exact Hr' | apply Hsame; reflexivity].
Defined.

Lemma C3_reconcile_witness :
  (deactivate_old_properties store_three day2 []).1 = 2
  /\ (deactivate_old_properties store_three day2
                                [u "athome_1"; u "athome_2"; u "athome_3"]).1 = 0.
Proof.
  assert (Forall (fun r => col r "property_id" ≠ VNull) (properties store_three)) as Hnn.
  { repeat constructor; intros H; vm_compute in H; discriminate. }
  destruct (C3_reconcile_deactivates_unobserved store_three day2 [] Hnn)
    as (_ & _ & Hnone & _).
  destruct (C3_reconcile_deactivates_unobserved
              store_three day2 [u "athome_1"; u "athome_2"; u "athome_3"] Hnn)
    as (_ & _ & _ & Hall).
  split.
  - destruct (Hnone eq_refl) as [Hc _]. rewrite Hc. reflexivity.
  - apply Hall. intros r Hr. simpl in Hr.
    repeat (apply elem_of_cons in Hr as [->|Hr]; [vm_compute; reflexivity|]).
    apply elem_of_nil in Hr. contradiction.
Defined.

End DatabaseFacts.

Module ScraperFacts.
Import Re Scraper ScraperSpec.

Lemma rep_digits_total {R} (f : pystr -> R) s n :
  (1 <= n)%nat ->
  rep Unicode.is_digit 1 n s (fun s' => Some (f s')) = Some (f (drop_digits s)).
Proof.
  revert n. induction s as [|c s IH]; intros n Hn; simpl.
  - destruct n; [lia | reflexivity].
  - destruct (Unicode.is_digit c).
    + rewrite IH by lia. reflexivity.
    + destruct n; [lia | reflexivity].
Qed.

Lemma rep_digits_zero {R} (f : pystr -> R) s :
  rep Unicode.is_digit 1 0 s (fun s' => Some (f s'))
  = match s with
    | c :: s' => if Unicode.is_digit c then Some (f (drop_digits s')) else None
    | [] => None
    end.
Proof.
  destruct s as [|c s]; simpl; [reflexivity|].
  destruct (Unicode.is_digit c); [|reflexivity].
  rewrite rep_digits_total by lia. reflexivity.
Qed.

Lemma drop_digits_length s : (length (drop_digits s) <= length s)%nat.
Proof.
  induction s as [|c s IH]; simpl; [lia|].
  destruct (Unicode.is_digit c); simpl; lia.
Qed.

Lemma take_drop_digits s :
  List.firstn (length s - length (drop_digits s)) s = take_digits s.
Proof.
  induction s as [|c s IH]; simpl; [reflexivity|].
  destruct (Unicode.is_digit c) eqn:E.
  - pose proof (drop_digits_length s).
    replace (S (length s) - length (drop_digits s))%nat
      with (S (length s - length (drop_digits s))) by lia.
    simpl. now rewrite IH.
  - simpl. now rewrite Nat.sub_diag.
Qed.

Lemma take_digits_all s : Forall (fun c => Unicode.is_digit c = true) (take_digits s).
Proof.
  induction s as [|c s IH]; simpl; [constructor|].
  destruct (Unicode.is_digit c) eqn:E; constructor; auto.
Qed.

Lemma match_at_id s :
  match_at id_re s
  = match s with
    | c :: (c' :: _) as s' =>
        if (c =? 47)%N && Unicode.is_digit c'
        then Some {| group0 := c :: take_digits s'; group1 := Some (take_digits s') |}
        else None
    | _ => None
    end.
Proof.
  unfold match_at, id_re. change (u "/") with [47%N]. cbn [go].
  destruct s as [|c s']; [reflexivity|].
  cbn [Str.startswith length List.skipn]. rewrite drop_0, andb_true_r, N.eqb_sym.
  destruct (c =? 47)%N eqn:Ec; cbn [andb].
  - rewrite (rep_digits_zero
               (fun s'' => {| group0 := List.firstn (length (c :: s') - length s'') (c :: s');
                              group1 := Some (List.firstn (length s' - length s'') s') |})).
    destruct s' as [|c' s'']; [reflexivity|].
    destruct (Unicode.is_digit c') eqn:Ed; [|reflexivity].
    pose proof (take_drop_digits (c' :: s'')) as Ht.
    cbn [drop_digits take_digits] in Ht. rewrite Ed in Ht.
    pose proof (drop_digits_length s'') as Hl.
    cbn [take_digits]. rewrite Ed. rewrite Ht.
    do 2 f_equal.
    cbn [length] in *.
    replace (S (S (length s'')) - length (drop_digits s''))%nat
      with (S (S (length s'') - length (drop_digits s''))) by lia.
    cbn [List.firstn]. f_equal. exact Ht.
  - destruct s'; reflexivity.
Qed.

Lemma search_id s :
  search id_re s
  = match first_slash_digit_run s with
    | Some ds => Some {| group0 := 47%N :: ds; group1 := Some ds |}
    | None => None
    end.
Proof.
  induction s as [|c s IH].
  - reflexivity.
  - cbn [search first_slash_digit_run]. rewrite match_at_id.
    destruct s as [|c' s'].
    + reflexivity.
    + destruct (c =? 47)%N eqn:Ec; simpl andb.
      * destruct (Unicode.is_digit c') eqn:Ed.
        -- apply N.eqb_eq in Ec. now subst.
        -- exact IH.
      * exact IH.
Qed.


Lemma hex_digit_ok x : 0 <= x < 16 -> is_lower_hex (MD5.hex_digit x) = true.
Proof.
  intros H.
  assert (x = 0 \/ x = 1 \/ x = 2 \/ x = 3 \/ x = 4 \/ x = 5 \/ x = 6 \/ x = 7
          \/ x = 8 \/ x = 9 \/ x = 10 \/ x = 11 \/ x = 12 \/ x = 13 \/ x = 14
          \/ x = 15) as Hx by lia.
  repeat (destruct Hx as [->|Hx]; [reflexivity|]). subst. reflexivity.
Qed.

Lemma hex_bytes_ok bs :
  Forall (fun b => 0 <= b < 256) bs ->
  Forall (fun c => is_lower_hex c = true) (List.concat (List.map MD5.hex_byte bs))
  /\ length (List.concat (List.map MD5.hex_byte bs)) = (2 * length bs)%nat.
Proof.
  induction 1 as [|b bs Hb HF [IH1 IH2]]; simpl.
  - split; [constructor | reflexivity].
  - split.
    + constructor; [|constructor; [|exact IH1]]; apply hex_digit_ok.
      * split; [apply Z.div_pos; lia | apply Z.div_lt_upper_bound; lia].
      * apply Z.mod_pos_bound. lia.
    + rewrite IH2. lia.
Qed.

Lemma le_bytes_range n x :
  Forall (fun b => 0 <= b < 256) (MD5.le_bytes n x) /\ length (MD5.le_bytes n x) = n.
Proof.
  unfold MD5.le_bytes. split.
  - apply Forall_forall. intros b Hb. apply list_elem_of_In, in_map_iff in Hb as (i & <- & _).
    apply Z.mod_pos_bound. lia.
  - now rewrite length_map, length_seq.
Qed.

Lemma digest_range msg :
  Forall (fun b => 0 <= b < 256) (MD5.digest msg) /\ length (MD5.digest msg) = 16%nat.
Proof.
  unfold MD5.digest. destruct (MD5.blocks _ _ _) as [[[a b] c] d].
  destruct (le_bytes_range 4 a) as [Fa La], (le_bytes_range 4 b) as [Fb Lb],
           (le_bytes_range 4 c) as [Fc Lc], (le_bytes_range 4 d) as [Fd Ld].
  split.
  - repeat apply Forall_app_2; assumption.
  - rewrite !length_app, La, Lb, Lc, Ld. reflexivity.
Qed.

Lemma hexdigest_shape msg :
  Forall (fun c => is_lower_hex c = true) (MD5.hexdigest msg)
  /\ length (MD5.hexdigest msg) = 32%nat.
Proof.
  unfold MD5.hexdigest. destruct (digest_range (List.map Z.of_N msg)) as [HF HL].
  destruct (hex_bytes_ok _ HF) as [H1 H2]. split; [exact H1|].
  rewrite H2, HL. reflexivity.
Qed.

Lemma take_app_drop_digits s : take_digits s ++ drop_digits s = s.
Proof.
  induction s as [|c s IH]; [reflexivity|].
  cbn [take_digits drop_digits]. destruct (Unicode.is_digit c); [|reflexivity].
  cbn [app]. now rewrite IH.
Qed.

Lemma first_slash_digit_run_some s ds :
  first_slash_digit_run s = Some ds ->
  ds ≠ [] /\ Forall (fun c => Unicode.is_digit c = true) ds
  /\ exists pre post, s = pre ++ [47%N] ++ ds ++ post.
Proof.
  revert ds. induction s as [|c s IH]; intros ds; [discriminate|].
  cbn [first_slash_digit_run]. destruct s as [|c' s']; [discriminate|].
  destruct ((c =? 47)%N && Unicode.is_digit c') eqn:E.
  - intros H. apply andb_true_iff in E as [Ec Ed].
    apply N.eqb_eq in Ec. subst c.
    assert (ds = take_digits (c' :: s')) as -> by congruence. clear H.
    split; [|split].
    + cbn [take_digits]. now rewrite Ed.
    + apply take_digits_all.
    + exists [], (drop_digits (c' :: s')). cbn [app]. f_equal.
      symmetry. apply take_app_drop_digits.
  - intros H. destruct (IH ds H) as (H1 & H2 & pre & post & Hs).
    split; [exact H1|]. split; [exact H2|].
    exists (c :: pre), post. now rewrite Hs.
Qed.

Lemma path_accepted strict url :
  (exists path, Url.path strict url = Ok path)
  <-> Url.netloc_ok strict (network_location url) = true.
Proof.
  unfold Url.path, network_location.
  destruct (Url.split_scheme _) as [scheme rest]. cbn [snd].
  destruct (Url.netloc_ok strict (Url.netloc rest)).
  - split; eauto.
  - split; [intros [path H]; discriminate | discriminate].
Qed.

Lemma path_refused strict url e :
  Url.path strict url = Raise e -> e = ValueError.
Proof.
  unfold Url.path. destruct (Url.split_scheme _) as [scheme rest].
  destruct (Url.netloc_ok strict (Url.netloc rest)); [discriminate | congruence].
Qed.

Lemma path_independent strict strict' url path path' :
  Url.path strict url = Ok path -> Url.path strict' url = Ok path' -> path' = path.
Proof.
  unfold Url.path. destruct (Url.split_scheme _) as [scheme rest].
  destruct (Url.netloc_ok strict _); [|discriminate].
  destruct (Url.netloc_ok strict' _); [|discriminate]. congruence.
Qed.

Lemma netloc_ok_plain strict netloc :
  Url.has 91%N netloc = false -> Url.has 93%N netloc = false ->
  List.forallb Url.is_ascii netloc = true -> Url.netloc_ok strict netloc = true.
Proof. intros H1 H2 H3. unfold Url.netloc_ok. now rewrite H1, H2, H3. Qed.

Lemma netloc_ok_unbalanced strict netloc :
  Url.has 91%N netloc <> Url.has 93%N netloc -> Url.netloc_ok strict netloc = false.
Proof.
  intros H. unfold Url.netloc_ok.
  destruct (Url.has 91%N netloc), (Url.has 93%N netloc); try reflexivity; congruence.
Qed.

Lemma encode_cases url :
  (List.existsb is_surrogate url = false -> encode url = Ok (Utf8.encode url))
  /\ (List.existsb is_surrogate url = true -> encode url = Raise UnicodeEncodeError).
Proof. unfold encode. destruct (List.existsb is_surrogate url); split; congruence. Qed.

(** C7 (as amended): for a URL that [urlparse] accepts, the id is
    "athome_" followed by the first run of digits that directly follows
    a slash of the URL path (digits that do not follow a slash are
    passed over); when no slash of the path is followed by a digit it
    is "athome_" followed by the first ten characters of the MD5 hex
    digest of the URL, which are lowercase hexadecimal digits, unless
    the URL holds a lone surrogate, which [encode] refuses with
    [UnicodeEncodeError]. A URL that [urlparse] refuses has no id: the
    function raises [ValueError]. [urlparse] refuses a URL exactly when
    its network location fails the library's tests: one with a single
    kind of bracket always does, one in ASCII without brackets never.
    The id is a function of the URL alone. *)
Theorem C7_property_id_derivation (strict : pystr -> bool) (url : pystr) :
  (forall path,
      Url.path strict url = Ok path ->
      (forall ds,
          first_slash_digit_run path = Some ds ->
          _extract_property_id strict url = Ok (u "athome_" ++ ds)
          /\ ds ≠ [] /\ Forall (fun c => Unicode.is_digit c = true) ds
          /\ exists pre post, path = pre ++ [47%N] ++ ds ++ post)
      /\ (first_slash_digit_run path = None ->
          List.existsb is_surrogate url = false ->
          exists h,
            _extract_property_id strict url = Ok (u "athome_" ++ h)
            /\ h = List.firstn 10 (MD5.hexdigest (Utf8.encode url))
            /\ length h = 10%nat
            /\ Forall (fun c => is_lower_hex c = true) h)
      /\ (first_slash_digit_run path = None ->
          List.existsb is_surrogate url = true ->
          _extract_property_id strict url = Raise UnicodeEncodeError))
  /\ (forall e,
        Url.path strict url = Raise e ->
        e = ValueError /\ _extract_property_id strict url = Raise ValueError)
  /\ ((exists path, Url.path strict url = Ok path)
      <-> Url.netloc_ok strict (network_location url) = true)
  /\ (Url.has 91%N (network_location url) <> Url.has 93%N (network_location url) ->
      Url.path strict url = Raise ValueError)
  /\ (Url.has 91%N (network_location url) = false ->
      Url.has 93%N (network_location url) = false ->
      List.forallb Url.is_ascii (network_location url) = true ->
      exists path, Url.path strict url = Ok path)
  /\ (forall strict' path path',
        Url.path strict url = Ok path -> Url.path strict' url = Ok path' ->
        _extract_property_id strict' url = _extract_property_id strict url).
Proof.
  split; [|split; [|split; [|split; [|split]]]].
  - intros path Hp. unfold _extract_property_id. rewrite Hp. cbn [rbind].
    rewrite search_id. split; [|split].
    + intros ds H. rewrite H. split; [reflexivity|]. now apply first_slash_digit_run_some.
    + intros H Hs. rewrite H. rewrite (proj1 (encode_cases url) Hs). cbn [rbind].
      eexists. split; [reflexivity|]. split; [reflexivity|].
      destruct (hexdigest_shape (Utf8.encode url)) as [HF HL]. split.
      * rewrite length_take, HL. reflexivity.
      * now apply Forall_take.
    + intros H Hs. rewrite H. now rewrite (proj2 (encode_cases url) Hs).
  - intros e He. pose proof (path_refused strict url e He) as ->.
    split; [reflexivity|]. unfold _extract_property_id. now rewrite He.
  - apply path_accepted.
  - intros H. destruct (Url.path strict url) as [path|e] eqn:E.
    + assert (Url.netloc_ok strict (network_location url) = true) as A
          by (apply path_accepted; eauto).
      rewrite (netloc_ok_unbalanced strict _ H) in A. discriminate.
    + now rewrite (path_refused strict url e E).
  - intros H1 H2 H3. apply path_accepted. now apply netloc_ok_plain.
  - intros strict' path path' H H'.
    pose proof (path_independent strict strict' url path path' H H') as ->.
    unfold _extract_property_id. now rewrite H, H'.
Qed.

Lemma C7_property_id_witness :
  _extract_property_id lenient url_x = Ok (u "athome_456")
  /\ _extract_property_id lenient url_y = Ok (u "athome_7b7f93935b")
  /\ _extract_property_id lenient url_z = Raise ValueError.
Proof.
  destruct (C7_property_id_derivation lenient url_x) as (Hx & _).
  destruct (C7_property_id_derivation lenient url_y) as (Hy & _).
  destruct (C7_property_id_derivation lenient url_z) as (_ & Hz & _ & Hb & _).
  split; [|split].
  - destruct (Hx (u "/tochi/abc123/456/")) as (H & _); [vm_compute; reflexivity|].
    destruct (H (u "456")) as [H' _]; [vm_compute; reflexivity|].
    rewrite H'. vm_compute. reflexivity.
  - destruct (Hy (u "/tochi/oita2/list/")) as (_ & H & _); [vm_compute; reflexivity|].
    destruct H as (h & H & -> & _); [vm_compute; reflexivity | vm_compute; reflexivity|].
    rewrite H. vm_compute. reflexivity.
  - apply (Hz ValueError). apply Hb. vm_compute. discriminate.
Defined.

(** C7 (counterexample): in the path "/tochi/abc123/456/" the first run
    of digits is "123", but "123" does not follow a slash and the id is
    built from "456"; in "/tochi/oita2/list/" there is a run of digits
    but none after a slash, and the id is built from the MD5 digest;
    the URL "http://[invalid/123" has a run of digits in what would be
    its path, but [urlparse] refuses it and no id is derived. *)
Lemma C7_first_digit_run_counterexample :
  Url.path lenient url_x = Ok (u "/tochi/abc123/456/")
  /\ first_digit_run (u "/tochi/abc123/456/") = Some (u "123")
  /\ _extract_property_id lenient url_x = Ok (u "athome_456")
  /\ u "athome_456" ≠ id_of_first_digit_run (u "/tochi/abc123/456/") url_x
  /\ Url.path lenient url_y = Ok (u "/tochi/oita2/list/")
  /\ first_digit_run (u "/tochi/oita2/list/") = Some (u "2")
  /\ _extract_property_id lenient url_y = Ok (u "athome_7b7f93935b")
  /\ u "athome_7b7f93935b" ≠ id_of_first_digit_run (u "/tochi/oita2/list/") url_y
  /\ _extract_property_id lenient url_z = Raise ValueError
  /\ _extract_property_id lenient url_s = Raise UnicodeEncodeError.
Proof.
  repeat split; try (vm_compute; reflexivity);
    intros H; vm_compute in H; discriminate.
Qed.


Local Open Scope result_scope.

Lemma raises_bind {A B} (m : result A) (f : A -> result B) :
  raises (rbind m f) = match m with Ok a => raises (f a) | Raise _ => true end.
Proof. destruct m; reflexivity. Qed.

(** *** The field parsers, one at a time *)

Lemma parse_price_ok (data : pydict) elem data' :
  parse_price data elem = Ok data' ->
  (forall k, k ≠ "price" -> k ≠ "price_numeric" -> data' !! k = data !! k)
  /\ (data !! "price_numeric" = None ->
      (is_Some (data' !! "price_numeric") <-> matches price_re elem = true)).
Proof.
  unfold parse_price, matches. destruct elem as [t|].
  - destruct (search price_re t) as [m|].
    + destruct (group1_without_commas m) as [g|]; [|discriminate]. simpl.
      destruct (Parse.int g) as [n|]; [|discriminate]. simpl.
      intros [= <-]. split.
      * intros k K1 K2. now rewrite !lookup_insert_ne by done.
      * intros _. rewrite lookup_insert_eq. split; eauto.
    + intros [= <-]. split.
      * intros k K1 K2. now rewrite lookup_insert_ne by done.
      * intros H. rewrite lookup_insert_ne, H by done. split; [intros [? ?]|]; discriminate.
  - intros [= <-]. split; [reflexivity|].
    intros H. rewrite H. split; [intros [? ?]|]; discriminate.
Qed.

Lemma parse_price_raises (data : pydict) elem :
  raises (parse_price data elem) = raises (parse_price ∅ elem).
Proof.
  unfold parse_price. destruct elem as [t|]; [|reflexivity].
  destruct (search price_re t) as [m|]; [|reflexivity].
  destruct (group1_without_commas m) as [g|]; [|reflexivity]. simpl.
  destruct (Parse.int g); reflexivity.
Qed.

Lemma parse_price_nomatch (data : pydict) elem :
  matches price_re elem = false -> raises (parse_price data elem) = false.
Proof.
  unfold parse_price, matches. destruct elem as [t|]; [|reflexivity].
  destruct (search price_re t); [discriminate | reflexivity].
Qed.

Lemma parse_area_ok (data : pydict) elem data' :
  parse_area data elem = Ok data' ->
  (forall k, k ≠ "land_area" -> k ≠ "land_area_m2" -> k ≠ "land_area_tsubo" ->
             data' !! k = data !! k)
  /\ (data !! "land_area_m2" = None ->
      (is_Some (data' !! "land_area_m2") <-> matches m2_re elem = true))
  /\ (data !! "land_area_tsubo" = None ->
      (is_Some (data' !! "land_area_tsubo")
       <-> matches m2_re elem = true \/ matches tsubo_re elem = true)).
Proof.
  unfold parse_area, matches. destruct elem as [t|].
  - destruct (search m2_re t) as [m|].
    + destruct (group1_without_commas m) as [g|]; [|discriminate]. simpl.
      destruct (Parse.float g) as [x|]; [|discriminate]. simpl.
      destruct (search tsubo_re t) as [m'|].
      * destruct (group1_without_commas m') as [g'|]; [|discriminate]. simpl.
        destruct (Parse.float g') as [x'|]; [|discriminate]. simpl.
        intros [= <-]. split; [|split].
        -- intros k K1 K2 K3. now rewrite !lookup_insert_ne by done.
        -- intros _. rewrite !lookup_insert_ne, lookup_insert_eq by done. split; eauto.
        -- intros _. rewrite lookup_insert_eq. split; eauto.
      * intros [= <-]. split; [|split].
        -- intros k K1 K2 K3. now rewrite !lookup_insert_ne by done.
        -- intros _. rewrite !lookup_insert_ne, lookup_insert_eq by done. split; eauto.
        -- intros _. rewrite lookup_insert_eq. split; eauto.
    + simpl. destruct (search tsubo_re t) as [m'|].
      * destruct (group1_without_commas m') as [g'|]; [|discriminate]. simpl.
        destruct (Parse.float g') as [x'|]; [|discriminate]. simpl.
        intros [= <-]. split; [|split].
        -- intros k K1 K2 K3. now rewrite !lookup_insert_ne by done.
        -- intros H. rewrite !lookup_insert_ne, H by done.
           split; [intros [? ?]|]; discriminate.
        -- intros _. rewrite lookup_insert_eq. split; eauto.
      * intros [= <-]. split; [|split].
        -- intros k K1 K2 K3. now rewrite !lookup_insert_ne by done.
        -- intros H. rewrite !lookup_insert_ne, H by done.
           split; [intros [? ?]|]; discriminate.
        -- intros H. rewrite !lookup_insert_ne, H by done.
           split; [intros [? ?]|intros [?|?]]; discriminate.
  - intros [= <-]. split; [reflexivity|]. split.
    + intros H. rewrite H. split; [intros [? ?]|]; discriminate.
    + intros H. rewrite H. split; [intros [? ?]|intros [?|?]]; discriminate.
Qed.

Lemma parse_area_raises (data : pydict) elem :
  raises (parse_area data elem) = raises (parse_area ∅ elem).
Proof.
  unfold parse_area. destruct elem as [t|]; [|reflexivity].
  destruct (search m2_re t) as [m|].
  - destruct (group1_without_commas m) as [g|]; [|reflexivity]. simpl.
    destruct (Parse.float g) as [x|]; [|reflexivity]. simpl.
    destruct (search tsubo_re t) as [m'|]; [|reflexivity].
    destruct (group1_without_commas m') as [g'|]; [|reflexivity]. simpl.
    destruct (Parse.float g'); reflexivity.
  - simpl. destruct (search tsubo_re t) as [m'|]; [|reflexivity].
    destruct (group1_without_commas m') as [g'|]; [|reflexivity]. simpl.
    destruct (Parse.float g'); reflexivity.
Qed.

Lemma parse_area_nomatch (data : pydict) elem :
  matches m2_re elem = false -> matches tsubo_re elem = false ->
  raises (parse_area data elem) = false.
Proof.
  unfold parse_area, matches. destruct elem as [t|]; [|reflexivity].
  destruct (search m2_re t); [discriminate|].
  destruct (search tsubo_re t); [discriminate | reflexivity].
Qed.

Lemma parse_station_ok (data : pydict) elem data' :
  parse_station data elem = Ok data' ->
  (forall k, k ≠ "nearest_station" -> k ≠ "walk_time" -> k ≠ "walk_minutes" ->
             data' !! k = data !! k)
  /\ (data !! "walk_minutes" = None ->
      (is_Some (data' !! "walk_minutes") <-> matches walk_re elem = true)).
Proof.
  unfold parse_station, matches. destruct elem as [t|].
  - destruct (search walk_re t) as [m|].
    + destruct (group1_int m) as [n|]; [|discriminate]. simpl.
      intros [= <-]. split.
      * intros k K1 K2 K3. now rewrite !lookup_insert_ne by done.
      * intros _. rewrite lookup_insert_eq. split; eauto.
    + intros [= <-]. split.
      * intros k K1 K2 K3. now rewrite lookup_insert_ne by done.
      * intros H. rewrite lookup_insert_ne, H by done. split; [intros [? ?]|]; discriminate.
  - intros [= <-]. split; [reflexivity|].
    intros H. rewrite H. split; [intros [? ?]|]; discriminate.
Qed.

Lemma parse_station_raises (data : pydict) elem :
  raises (parse_station data elem) = raises (parse_station ∅ elem).
Proof.
  unfold parse_station. destruct elem as [t|]; [|reflexivity].
  destruct (search walk_re t) as [m|]; [|reflexivity].
  destruct (group1_int m); reflexivity.
Qed.

Lemma parse_station_nomatch (data : pydict) elem :
  matches walk_re elem = false -> raises (parse_station data elem) = false.
Proof.
  unfold parse_station, matches. destruct elem as [t|]; [|reflexivity].
  destruct (search walk_re t); [discriminate | reflexivity].
Qed.

Lemma parse_percent_ok key (data : pydict) elem data' :
  parse_percent key data elem = Ok data' ->
  (forall k, k ≠ key -> data' !! k = data !! k)
  /\ (data !! key = None ->
      (is_Some (data' !! key) <-> matches percent_re elem = true)).
Proof.
  unfold parse_percent, matches. destruct elem as [t|].
  - destruct (search percent_re t) as [m|].
    + destruct (group1_float m) as [x|]; [|discriminate]. simpl.
      intros [= <-]. split.
      * intros k K. now rewrite lookup_insert_ne by done.
      * intros _. rewrite lookup_insert_eq. split; eauto.
    + intros [= <-]. split; [reflexivity|].
      intros H. rewrite H. split; [intros [? ?]|]; discriminate.
  - intros [= <-]. split; [reflexivity|].
    intros H. rewrite H. split; [intros [? ?]|]; discriminate.
Qed.

Lemma parse_percent_raises key (data : pydict) elem :
  raises (parse_percent key data elem) = raises (parse_percent key ∅ elem).
Proof.
  unfold parse_percent. destruct elem as [t|]; [|reflexivity].
  destruct (search percent_re t) as [m|]; [|reflexivity].
  destruct (group1_float m); reflexivity.
Qed.

Lemma parse_percent_nomatch key (data : pydict) elem :
  matches percent_re elem = false -> raises (parse_percent key data elem) = false.
Proof.
  unfold parse_percent, matches. destruct elem as [t|]; [|reflexivity].
  destruct (search percent_re t); [discriminate | reflexivity].
Qed.


Lemma extract_fields_raises base urljoin strict url now soup :
  raises (extract_fields base urljoin strict url now soup)
  = raises (_extract_property_id strict url) || conversion_raises soup
    || raises (join_images base urljoin (image_elems soup)).
Proof.
  unfold extract_fields, conversion_raises.
  rewrite raises_bind.
  destruct (_extract_property_id strict url) as [pid|]; [|reflexivity].
  cbn [raises orb].
  rewrite raises_bind.
  match goal with
  | |- context [parse_price ?d (price_elem soup)] =>
      rewrite <- (parse_price_raises d); destruct (parse_price d (price_elem soup)) as [d1|]
  end; [|reflexivity].
  rewrite raises_bind.
  match goal with
  | |- context [parse_area ?d (area_elem soup)] =>
      rewrite <- (parse_area_raises d); destruct (parse_area d (area_elem soup)) as [d2|]
  end; [|reflexivity].
  rewrite raises_bind.
  rewrite <- (parse_station_raises d2).
  destruct (parse_station d2 (station_elem soup)) as [d3|]; [|reflexivity].
  rewrite raises_bind.
  rewrite <- (parse_percent_raises "building_coverage" d3).
  destruct (parse_percent "building_coverage" d3 (coverage_elem soup)) as [d4|];
    [|reflexivity].
  rewrite raises_bind.
  rewrite <- (parse_percent_raises "floor_area_ratio" d4).
  destruct (parse_percent "floor_area_ratio" d4 (ratio_elem soup)) as [d5|];
    [|reflexivity].
  rewrite raises_bind. cbn [raises orb].
  destruct (join_images base urljoin (image_elems soup)); reflexivity.
Qed.

Ltac chase F5 F4 F3 F2 FA F1 :=
  rewrite ?lookup_insert_ne by done;
  rewrite ?F5 by done; rewrite ?F4 by done; rewrite ?F3 by done;
  rewrite ?F2 by done; rewrite ?FA by done; rewrite ?F1 by done.
Ltac bottom D0 :=
  subst D0; rewrite ?lookup_insert_ne by done;
  first [apply lookup_empty | apply lookup_insert_eq].

Lemma extract_fields_record base urljoin strict url now soup d :
  extract_fields base urljoin strict url now soup = Ok d ->
  (is_Some (d !! "price_numeric") <-> matches price_re (price_elem soup) = true)
  /\ (is_Some (d !! "land_area_m2") <-> matches m2_re (area_elem soup) = true)
  /\ (is_Some (d !! "land_area_tsubo")
      <-> matches m2_re (area_elem soup) = true
          \/ matches tsubo_re (area_elem soup) = true)
  /\ (is_Some (d !! "walk_minutes") <-> matches walk_re (station_elem soup) = true)
  /\ (is_Some (d !! "building_coverage")
      <-> matches percent_re (coverage_elem soup) = true)
  /\ (is_Some (d !! "floor_area_ratio")
      <-> matches percent_re (ratio_elem soup) = true)
  /\ (exists property_id,
        _extract_property_id strict url = Ok property_id
        /\ d !! "property_id" = Some (PStr property_id))
  /\ d !! "url" = Some (PStr url)
  /\ d !! "scraped_at" = Some (PStr (isoformat now))
  /\ d !! "title" = Some (PStr (text_or (title_elem soup) (u "タイトルなし")))
  /\ d !! "address" = Some (PStr (text_or (address_elem soup) []))
  /\ d !! "usage_area" = Some (PStr (text_or (usage_elem soup) []))
  /\ is_Some (d !! "image_urls") /\ is_Some (d !! "raw_data").
Proof.
  unfold extract_fields.
  destruct (_extract_property_id strict url) as [pid|]; [|discriminate]. cbn [rbind].
  match goal with
  | |- context [parse_price ?d (price_elem soup)] =>
      set (D0 := d); destruct (parse_price D0 (price_elem soup)) as [d1|] eqn:E1
  end; [|discriminate]. cbn [rbind].
  match goal with
  | |- context [parse_area ?d (area_elem soup)] =>
      set (A1 := d); destruct (parse_area A1 (area_elem soup)) as [d2|] eqn:E2
  end; [|discriminate]. cbn [rbind].
  destruct (parse_station d2 (station_elem soup)) as [d3|] eqn:E3; [|discriminate].
  cbn [rbind].
  destruct (parse_percent "building_coverage" d3 (coverage_elem soup)) as [d4|] eqn:E4;
    [|discriminate]. cbn [rbind].
  destruct (parse_percent "floor_area_ratio" d4 (ratio_elem soup)) as [d5|] eqn:E5;
    [|discriminate]. cbn [rbind].
  destruct (join_images base urljoin (image_elems soup)) as [image_urls|];
    [|discriminate]. cbn [rbind].
  intros [= <-].
  destruct (parse_price_ok _ _ _ E1) as [F1 P1].
  destruct (parse_area_ok _ _ _ E2) as (F2 & P2 & P2').
  destruct (parse_station_ok _ _ _ E3) as [F3 P3].
  destruct (parse_percent_ok _ _ _ _ E4) as [F4 P4].
  destruct (parse_percent_ok _ _ _ _ E5) as [F5 P5].
  assert (forall k, k ≠ "address" -> A1 !! k = d1 !! k) as FA
      by (intros k K; subst A1; now rewrite lookup_insert_ne by done).
  assert (A1 !! "address" = Some (PStr (text_or (address_elem soup) []))) as HA1
      by (subst A1; apply lookup_insert_eq).
  clearbody A1.
  split; [chase F5 F4 F3 F2 FA F1; apply P1; bottom D0|].
  split; [chase F5 F4 F3 F2 FA F1; apply P2; chase F5 F4 F3 F2 FA F1; bottom D0|].
  split; [chase F5 F4 F3 F2 FA F1; apply P2'; chase F5 F4 F3 F2 FA F1; bottom D0|].
  split; [chase F5 F4 F3 F2 FA F1; apply P3; chase F5 F4 F3 F2 FA F1; bottom D0|].
  split; [chase F5 F4 F3 F2 FA F1; apply P4; chase F5 F4 F3 F2 FA F1; bottom D0|].
  split; [chase F5 F4 F3 F2 FA F1; apply P5; chase F5 F4 F3 F2 FA F1; bottom D0|].
  split; [exists pid; split; [reflexivity|]; chase F5 F4 F3 F2 FA F1; bottom D0|].
  split; [chase F5 F4 F3 F2 FA F1; bottom D0|].
  split; [chase F5 F4 F3 F2 FA F1; bottom D0|].
  split; [chase F5 F4 F3 F2 FA F1; bottom D0|].
  split.
  { rewrite !lookup_insert_ne by done. rewrite F5, F4, F3, F2 by done.
    rewrite HA1. reflexivity. }
  split.
  { rewrite !lookup_insert_ne by done. apply lookup_insert_eq. }
  split; [rewrite lookup_insert_ne by done|]; rewrite lookup_insert_eq; eauto.
Qed.


(** C6 (as amended): [_scrape_property_detail] never raises: a failed
    fetch and whatever the extraction raises end in the single handler
    of the function, which returns no record. A pattern that finds no
    match never raises, and in a record that is returned every numeric
    field is present exactly when its pattern matched, and the text
    fields are always there. A page whose area text does not match the
    bare square-metre sign yields no record exactly when [urlparse]
    refuses the URL, the conversion of some matched field raises or
    [urljoin] refuses an image link. *)
Theorem C6_extract_never_raises
        (base : pystr) (urljoin : pystr -> pystr -> result pystr)
        (strict : pystr -> bool) (url : pystr) (now : datetime) :
  (forall e, _scrape_property_detail base urljoin strict url now (Raise e) = None)
  /\ (forall soup e,
        extract_fields base urljoin strict url now soup = Raise e ->
        _scrape_property_detail base urljoin strict url now (Ok soup) = None)
  /\ (forall soup d,
        extract_fields base urljoin strict url now soup = Ok d ->
        _scrape_property_detail base urljoin strict url now (Ok soup) = Some d)
  /\ (forall soup,
        bare_unit_sign soup = false ->
        (_scrape_property_detail base urljoin strict url now (Ok soup) = None
         <-> raises (_extract_property_id strict url) = true
             \/ conversion_raises soup = true
             \/ raises (join_images base urljoin (image_elems soup)) = true))
  /\ (forall elem, matches price_re elem = false ->
                   raises (parse_price ∅ elem) = false)
  /\ (forall elem, matches m2_re elem = false -> matches tsubo_re elem = false ->
                   raises (parse_area ∅ elem) = false)
  /\ (forall elem, matches walk_re elem = false ->
                   raises (parse_station ∅ elem) = false)
  /\ (forall key elem, matches percent_re elem = false ->
                       raises (parse_percent key ∅ elem) = false)
  /\ (forall soup d,
        _scrape_property_detail base urljoin strict url now (Ok soup) = Some d ->
        (is_Some (d !! "price_numeric") <-> matches price_re (price_elem soup) = true)
        /\ (is_Some (d !! "land_area_m2") <-> matches m2_re (area_elem soup) = true)
        /\ (is_Some (d !! "land_area_tsubo")
            <-> matches m2_re (area_elem soup) = true
                \/ matches tsubo_re (area_elem soup) = true)
        /\ (is_Some (d !! "walk_minutes")
            <-> matches walk_re (station_elem soup) = true)
        /\ (is_Some (d !! "building_coverage")
            <-> matches percent_re (coverage_elem soup) = true)
        /\ (is_Some (d !! "floor_area_ratio")
            <-> matches percent_re (ratio_elem soup) = true)
        /\ (exists property_id,
              _extract_property_id strict url = Ok property_id
              /\ d !! "property_id" = Some (PStr property_id))
        /\ d !! "url" = Some (PStr url)
        /\ d !! "scraped_at" = Some (PStr (isoformat now))
        /\ d !! "title" = Some (PStr (text_or (title_elem soup) (u "タイトルなし")))
        /\ d !! "address" = Some (PStr (text_or (address_elem soup) []))
        /\ d !! "usage_area" = Some (PStr (text_or (usage_elem soup) []))
        /\ is_Some (d !! "image_urls") /\ is_Some (d !! "raw_data")).
Proof.
  split; [reflexivity|].
  split.
  { intros soup e E. unfold _scrape_property_detail. cbn [rbind]. now rewrite E. }
  split.
  { intros soup d E. unfold _scrape_property_detail. cbn [rbind]. now rewrite E. }
  split.
  { intros soup _. unfold _scrape_property_detail. cbn [rbind].
    pose proof (extract_fields_raises base urljoin strict url now soup) as Hr.
    rewrite <- !orb_true_iff, orb_assoc, <- Hr.
    destruct (extract_fields base urljoin strict url now soup); simpl; split; congruence. }
  split; [intros elem; apply parse_price_nomatch|].
  split; [intros elem; apply parse_area_nomatch|].
  split; [intros elem; apply parse_station_nomatch|].
  split; [intros key elem; apply parse_percent_nomatch|].
  intros soup d. unfold _scrape_property_detail. cbn [rbind].
  destruct (extract_fields base urljoin strict url now soup) as [d'|] eqn:E; [|discriminate].
  intros [= <-]. now apply (extract_fields_record base urljoin strict url now soup).
Qed.

Lemma C6_extract_witness :
  raises (parse_price ∅ (Some (u "価格応談"))) = false
  /\ exists d,
      _scrape_property_detail base join_urls lenient detail_url stamp
                              (Ok (plain_page "価格応談" "100坪")) = Some d
      /\ d !! "price_numeric" = None
      /\ is_Some (d !! "land_area_tsubo").
Proof.
  destruct (C6_extract_never_raises base join_urls lenient detail_url stamp)
    as (_ & _ & _ & Hnone & Hprice & _ & _ & _ & Hrec).
  split; [apply Hprice; vm_compute; reflexivity|].
  destruct (_scrape_property_detail base join_urls lenient detail_url stamp
                                    (Ok (plain_page "価格応談" "100坪"))) as [d|] eqn:E.
  2: { apply Hnone in E; [|vm_compute; reflexivity].
       destruct E as [E|[E|E]]; vm_compute in E; discriminate. }
  exists d. split; [reflexivity|].
  destruct (Hrec _ d E) as (Hp & _ & Ht & _).
  split.
  - destruct (d !! "price_numeric") eqn:Ed; [|reflexivity].
    assert (matches price_re (price_elem (plain_page "価格応談" "100坪")) = true) as Hm
        by (apply Hp; eauto).
    vm_compute in Hm. discriminate.
  - apply Ht. right. vm_compute. reflexivity.
Defined.

(** C6 (counterexample): the price text ",万円" matches the price pattern
    with a group made of a comma only; its conversion raises, and the
    page yields no record at all although every other field parses. *)
Lemma C6_field_failure_counterexample :
  matches price_re (Some (u ",万円")) = true
  /\ raises (parse_price ∅ (Some (u ",万円"))) = true
  /\ raises (parse_area ∅ (Some (u "100坪"))) = false
  /\ _scrape_property_detail base join_urls lenient detail_url stamp
                             (Ok (plain_page ",万円" "100坪")) = None
  /\ ~ exists d, _scrape_property_detail base join_urls lenient detail_url stamp
                                         (Ok (plain_page ",万円" "100坪")) = Some d.
Proof.
  repeat split; try (vm_compute; reflexivity).
  intros [d H]. vm_compute in H. discriminate.
Qed.

(** C9 (the code at the failing input): in the area text of the demo
    listing the square-metre pattern matches through its second
    alternative, the bare sign ㎡, so group 1 is missing; asking it for
    its text raises [AttributeError], no area is stored and the page
    yields no record, although the tsubo pattern matches "100坪". *)
Theorem C9_square_metre_sign_loses_record
        (base : pystr) (urljoin : pystr -> pystr -> result pystr)
        (strict : pystr -> bool) (url : pystr) (now : datetime) (soup : page) :
  area_elem soup = Some (u "330.58㎡（100坪）") ->
  search m2_re (u "330.58㎡（100坪）") = Some {| group0 := u "㎡"; group1 := None |}
  /\ matches tsubo_re (area_elem soup) = true
  /\ parse_area ∅ (area_elem soup) = Raise AttributeError
  /\ _scrape_property_detail base urljoin strict url now (Ok soup) = None.
Proof.
  intros H. rewrite H.
  split; [vm_compute; reflexivity|]. split; [vm_compute; reflexivity|].
  split; [vm_compute; reflexivity|].
  unfold _scrape_property_detail. cbn [rbind].
  pose proof (extract_fields_raises base urljoin strict url now soup) as Hr.
  unfold conversion_raises in Hr. rewrite H in Hr.
  replace (raises (parse_area ∅ (Some (u "330.58㎡（100坪）")))) with true in Hr
    by (vm_compute; reflexivity).
  rewrite orb_true_r in Hr. cbn [orb] in Hr. rewrite orb_true_r in Hr. cbn [orb] in Hr.
  destruct (extract_fields base urljoin strict url now soup); [discriminate | reflexivity].
Qed.

Lemma C9_square_metre_witness :
  _scrape_property_detail base join_urls lenient detail_url stamp
                          (Ok (plain_page "1,000万円" "330.58㎡（100坪）")) = None.
Proof.
  apply (C9_square_metre_sign_loses_record
           base join_urls lenient detail_url stamp
           (plain_page "1,000万円" "330.58㎡（100坪）")).
  reflexivity.
Defined.

(** With the unit spelled "m2" both patterns match and the tsubo that is
    written in the text replaces the converted one. *)
Example area_m2_and_tsubo :
  parse_area ∅ (Some (u "100m2 (30.25坪)"))
  = Ok (<["land_area_tsubo" := PFloat 30.25]>
        (<["land_area_m2" := PFloat 100]>
        (<["land_area" := PStr (u "100m2 (30.25坪)")]> ∅))).
Proof. vm_compute. reflexivity. Qed.

End ScraperFacts.

Module RunFacts.
Import Database DatabaseFacts Scraper RunSpec.

Lemma bind_all_total items :
  Forall (fun kv => exists v', adapt kv.2 = Ok v') items ->
  exists sets, bind_all items = Ok sets.
Proof.
  induction 1 as [|[k v] items [v' Hv] HF [rest IH]]; simpl.
  - eauto.
  - simpl in Hv. rewrite Hv, IH. simpl. eauto.
Qed.

Lemma prepare_total columns (d : pydict) :
  (forall k v, d !! k = Some v -> k ∈ columns /\ exists v', adapt v = Ok v') ->
  exists sets, prepare columns d = Ok sets.
Proof.
  intros H. unfold prepare.
  assert (forallb (fun kv => bool_decide (kv.1 ∈ columns)) (map_to_list d) = true) as ->.
  { apply forallb_forall. intros [k v] Hin. apply list_elem_of_In, elem_of_map_to_list in Hin.
    apply bool_decide_eq_true. now apply (H k v). }
  apply bind_all_total. apply Forall_forall. intros [k v] Hin.
  apply elem_of_map_to_list in Hin. now apply (H k v).
Qed.

Lemma log_scraping_accepts self cts (d : pydict) :
  d ≠ ∅ ->
  d !! "id" = None ->
  (forall k v, d !! k = Some v ->
               k ∈ scraping_logs_columns /\ exists v', adapt v = Ok v') ->
  exists r,
    Database.log_scraping self cts d
    = Ok (Db (properties self) (properties_seq self) (scraping_logs self ++ [r])
             (next_rowid (scraping_logs_seq self) (scraping_logs self)))
    /\ (forall k v, d !! k = Some v -> exists v', adapt v = Ok v' /\ r !! k = Some v')
    /\ (d !! "deactivated_properties" = None ->
        r !! "deactivated_properties" = Some (VInt 0))
    /\ (d !! "execution_time" = None -> r !! "execution_time" = Some (VText cts)).
Proof.
  intros Hne Hid Hd. destruct (prepare_total _ _ Hd) as [sets Hp].
  destruct (prepare_spec _ _ _ Hp) as (Hnd & Hnone & Hsome).
  unfold Database.log_scraping. rewrite (bool_decide_eq_false_2 _ Hne).
  rewrite Hp. cbn [rbind].
  match goal with
  | |- context [assign ?dflt sets] => set (defaults := dflt)
  end.
  assert (col (assign defaults sets) "id" = VNull) as Hcol.
  { unfold col. rewrite assign_lookup_notin by now apply Hnone.
    subst defaults. rewrite !lookup_insert_ne by done. reflexivity. }
  rewrite Hcol. eexists. split; [reflexivity|]. split; [|split].
  - intros k v Hk. destruct (Hsome k v Hk) as (v' & Hv' & Hin).
    exists v'. split; [exact Hv'|].
    rewrite lookup_insert_ne by (intros <-; congruence).
    now apply assign_lookup_in.
  - intros Hk. rewrite lookup_insert_ne by done.
    rewrite assign_lookup_notin by now apply Hnone.
    subst defaults. rewrite !lookup_insert_ne by done. apply lookup_insert_eq.
  - intros Hk. rewrite lookup_insert_ne by done.
    rewrite assign_lookup_notin by now apply Hnone.
    subst defaults. apply lookup_insert_eq.
Qed.


Lemma keeps_ret {A} (a : A) : keeps_start (ret a).
Proof. intros s. reflexivity. Qed.

Lemma keeps_raise {A} (e : exn) : keeps_start (@raise A e).
Proof. intros s. reflexivity. Qed.

Lemma keeps_bind {A B} (m : M A) (f : A -> M B) :
  keeps_start m -> (forall a, keeps_start (f a)) -> keeps_start (bind m f).
Proof.
  intros Hm Hf s. unfold bind. specialize (Hm s).
  destruct (m s) as [[a|e] s']; cbn [snd] in *.
  - now rewrite Hf.
  - exact Hm.
Qed.

Lemma keeps_try {A} (m : M A) (h : exn -> M A) :
  keeps_start m -> (forall e, keeps_start (h e)) -> keeps_start (try_except m h).
Proof.
  intros Hm Hh s. unfold try_except. specialize (Hm s).
  destruct (m s) as [[a|e] s']; cbn [snd] in *.
  - exact Hm.
  - now rewrite Hh.
Qed.

Lemma keeps_tick : keeps_start tick.
Proof. intros s. reflexivity. Qed.

Lemma keeps_get_stats : keeps_start get_stats.
Proof. intros s. reflexivity. Qed.

Lemma keeps_set_stats f :
  (forall st, start_time (f st) = start_time st) -> keeps_start (set_stats f).
Proof. intros H s. apply H. Qed.

Lemma keeps_now w : keeps_start (now w).
Proof. apply keeps_bind; [apply keeps_tick | intros; apply keeps_ret]. Qed.

Lemma keeps_db_call {A} w (method : PropertyDatabase -> nat -> result (A * PropertyDatabase)) :
  keeps_start (db_call w method).
Proof.
  apply keeps_bind; [apply keeps_tick|]. intros n s.
  destruct (db_fault w n); [reflexivity|].
  destruct (method (db s) n) as [[a d']|]; reflexivity.
Qed.

Lemma keeps_duration st : keeps_start (duration st).
Proof.
  unfold duration. destruct (end_time st), (start_time st);
    first [apply keeps_ret | apply keeps_raise].
Qed.

Lemma keeps_process_url w cfg url ids : keeps_start (process_url w cfg url ids).
Proof.
  unfold process_url. apply keeps_try.
  - apply keeps_bind; [apply keeps_tick|]. intros n.
    destruct (_scrape_property_detail _ _ _ _ _ _); [|apply keeps_ret].
    destruct (bool_decide _); [apply keeps_ret|].
    apply keeps_bind; [apply keeps_db_call|]. intros r.
    apply keeps_bind; [|intros; apply keeps_ret].
    apply keeps_set_stats. reflexivity.
  - intros e. apply keeps_bind; [|intros; apply keeps_ret].
    apply keeps_set_stats. reflexivity.
Qed.

Lemma keeps_process_all w cfg urls ids : keeps_start (process_all w cfg urls ids).
Proof.
  revert ids. induction urls as [|url urls IH]; intros ids; cbn [process_all].
  - apply keeps_ret.
  - apply keeps_bind; [apply keeps_process_url | intros; apply IH].
Qed.

Lemma keeps_body w cfg : keeps_start (scrape_all_body w cfg).
Proof.
  unfold scrape_all_body.
  apply keeps_bind; [apply keeps_process_all|]. intros ids.
  apply keeps_bind; [apply keeps_db_call|]. intros n.
  apply keeps_bind; [apply keeps_now|]. intros t.
  apply keeps_bind; [apply keeps_set_stats; reflexivity|]. intros _.
  apply keeps_bind; [apply keeps_get_stats|]. intros st.
  apply keeps_bind; [apply keeps_duration|]. intros d.
  apply keeps_bind; [apply keeps_db_call|]. intros _.
  apply keeps_get_stats.
Qed.


Lemma scrape_all_unfold w cfg s :
  scrape_all w cfg s
  = try_except (scrape_all_body w cfg) (scrape_all_handler w)
               (Self (db s) (set_start (clock w (steps s)) (stats s)) (S (steps s))).
Proof. reflexivity. Qed.

Lemma handler_unfold w e s1 t0 :
  start_time (stats s1) = Some t0 ->
  scrape_all_handler w e s1
  = let t1 := clock w (steps s1) in
    let st := set_end t1 (stats s1) in
    let n := S (steps s1) in
    match db_fault w n with
    | Some e' => (Raise e', Self (db s1) st (S n))
    | None =>
        match Database.log_scraping (db s1) (current_timestamp w n)
                                    (error_log st e (total_seconds t1 t0)) with
        | Ok d' => (Raise e, Self d' st (S n))
        | Raise e' => (Raise e', Self (db s1) st (S n))
        end
    end.
Proof.
  intros H.
  unfold scrape_all_handler, bind, now, tick, ret, set_stats, get_stats, duration,
    raise, Scraper.log_scraping, db_call, bind, tick.
  cbn [db stats steps end_time start_time set_end]. rewrite H.
  unfold ret. cbn [db stats steps].
  destruct (db_fault w (S (steps s1))); [reflexivity|].
  destruct (Database.log_scraping _ _ _); reflexivity.
Qed.

Lemma process_url_returns w cfg url ids s :
  exists ids' s', process_url w cfg url ids s = (Ok ids', s').
Proof.
  unfold process_url, try_except.
  match goal with
  | |- context [match ?body s with _ => _ end] => destruct (body s) as [[a|e] s']
  end.
  - eauto.
  - unfold bind, set_stats, ret. eauto.
Qed.

Lemma process_all_returns w cfg urls ids s :
  exists ids' s', process_all w cfg urls ids s = (Ok ids', s').
Proof.
  revert ids s. induction urls as [|url urls IH]; intros ids s; cbn [process_all].
  - unfold ret. eauto.
  - destruct (process_url_returns w cfg url ids s) as (ids1 & s1 & E).
    unfold bind. rewrite E. apply IH.
Qed.

Lemma error_log_nonempty st e d : error_log st e d ≠ ∅.
Proof.
  intros H. apply (f_equal (fun m : pydict => m !! "total_properties")) in H.
  unfold error_log in H. rewrite lookup_empty, lookup_insert_eq in H. discriminate.
Qed.

Lemma adapt_int z : int64 z -> adapt (PInt z) = Ok (VInt z).
Proof.
  intros [H1 H2]. unfold adapt.
  rewrite (proj2 (Z.leb_le _ _) H1), (proj2 (Z.ltb_lt _ _) H2). reflexivity.
Qed.

Lemma error_log_bindable st e d :
  int64 (total_properties st) -> int64 (new_properties st) ->
  int64 (updated_properties st) -> int64 (errors st + 1) ->
  forall k v, error_log st e d !! k = Some v ->
              k ∈ scraping_logs_columns /\ exists v', adapt v = Ok v'.
Proof.
  intros H1 H2 H3 H4 k v H. unfold error_log in H.
  repeat (apply lookup_insert_Some in H as [[<- <-]|[_ H]];
          [split; [unfold scraping_logs_columns;
                   repeat first [apply list_elem_of_here | apply list_elem_of_further]
                  | first [rewrite adapt_int by assumption; eauto | cbn [adapt]; eauto]]|]).
  rewrite lookup_empty in H. discriminate.
Qed.

Ltac log_field Hrow key val :=
  let v' := fresh "v" in
  let Ha := fresh "Ha" in
  let Hr := fresh "Hr" in
  destruct (Hrow key val eq_refl) as (v' & Ha & Hr);
  first [rewrite adapt_int in Ha by assumption | cbn [adapt] in Ha];
  injection Ha as <-; exact Hr.

(** C8 (as amended): when an exception escapes the body of the crawl,
    the handler stamps the end time and writes one row into the run
    log, with the status of a failed run (the text "error"), the counts
    gathered so far (the error count plus one), the text of the
    exception and the duration, and then raises the same exception
    again; the listings are not touched. This holds when the database
    accepts that write: when it refuses it, the refusal is what the
    caller gets and the database is left as it was. The exception that
    escapes the body is one that the database raised, in the
    reconciliation or in the write of the row of a completed run: the
    enumeration of the listing pages and the loop over the listings
    end normally whatever fails in them. *)
Theorem C8_failed_run_is_logged
        (w : world) (cfg : settings) (s : AthomeScraper) (e : exn)
        (s1 : AthomeScraper) :
  scrape_all_body w cfg
    (Self (db s) (set_start (clock w (steps s)) (stats s)) (S (steps s)))
  = (Raise e, s1) ->
  int64 (total_properties (stats s1)) -> int64 (new_properties (stats s1)) ->
  int64 (updated_properties (stats s1)) -> int64 (errors (stats s1) + 1) ->
  (db_fault w (S (steps s1)) = None ->
   exists s2 r,
     scrape_all w cfg s = (Raise e, s2)
     /\ scraping_logs (db s2) = scraping_logs (db s1) ++ [r]
     /\ properties (db s2) = properties (db s1)
     /\ stats s2 = set_end (clock w (steps s1)) (stats s1)
     /\ r !! "status" = Some (VText (u "error"))
     /\ r !! "message" = Some (VText (exn_msg e))
     /\ r !! "total_properties" = Some (VInt (total_properties (stats s1)))
     /\ r !! "new_properties" = Some (VInt (new_properties (stats s1)))
     /\ r !! "updated_properties" = Some (VInt (updated_properties (stats s1)))
     /\ r !! "errors" = Some (VInt (errors (stats s1) + 1))
     /\ r !! "duration_seconds"
        = Some (VReal (total_seconds (clock w (steps s1)) (clock w (steps s))))
     /\ r !! "deactivated_properties" = Some (VInt 0))
  /\ (forall e',
        db_fault w (S (steps s1)) = Some e' ->
        exists s2, scrape_all w cfg s = (Raise e', s2) /\ db s2 = db s1)
  /\ (exists ids s',
        process_all w cfg (_get_property_urls w cfg) []
                    (Self (db s) (set_start (clock w (steps s)) (stats s)) (S (steps s)))
        = (Ok ids, s')
        /\ ((Scraper.deactivate_old_properties w ids s').1 = Raise e
            \/ exists k s'',
                Scraper.deactivate_old_properties w ids s' = (Ok k, s'')
                /\ let t := clock w (steps s'') in
                   let st := set_end t (stats s'') in
                   (Scraper.log_scraping
                      w (completed_log st k (total_seconds t (clock w (steps s))))
                      (Self (db s'') st (S (steps s'')))).1 = Raise e)).
Proof.
  intros Hbody I1 I2 I3 I4.
  assert (start_time (stats s1) = Some (clock w (steps s))) as Hstart.
  { pose proof (keeps_body w cfg
                  (Self (db s) (set_start (clock w (steps s)) (stats s)) (S (steps s))))
      as Hk.
    rewrite Hbody in Hk. exact Hk. }
  split; [|split].
  - rewrite scrape_all_unfold. unfold try_except. rewrite Hbody.
    rewrite (handler_unfold w e s1 _ Hstart). cbv zeta.
    intros Hf. rewrite Hf.
    set (st := set_end (clock w (steps s1)) (stats s1)).
    set (d := total_seconds (clock w (steps s1)) (clock w (steps s))).
    destruct (log_scraping_accepts (db s1) (current_timestamp w (S (steps s1)))
                                   (error_log st e d))
      as (r & Hlog & Hrow & Hdeact & _).
    { apply error_log_nonempty. }
    { reflexivity. }
    { apply error_log_bindable; assumption. }
    rewrite Hlog. eexists. exists r.
    split; [reflexivity|]. split; [reflexivity|]. split; [reflexivity|].
    split; [reflexivity|].
    assert (int64 (total_properties st)) as J1 by exact I1.
    assert (int64 (new_properties st)) as J2 by exact I2.
    assert (int64 (updated_properties st)) as J3 by exact I3.
    assert (int64 (errors st + 1)) as J4 by exact I4.
    split; [log_field Hrow "status" (PStr (u "error"))|].
    split; [log_field Hrow "message" (PStr (exn_msg e))|].
    split; [log_field Hrow "total_properties" (PInt (total_properties st))|].
    split; [log_field Hrow "new_properties" (PInt (new_properties st))|].
    split; [log_field Hrow "updated_properties" (PInt (updated_properties st))|].
    split; [log_field Hrow "errors" (PInt (errors st + 1))|].
    split; [log_field Hrow "duration_seconds" (PFloat d)|].
    apply Hdeact. reflexivity.
  - rewrite scrape_all_unfold. unfold try_except. rewrite Hbody.
    rewrite (handler_unfold w e s1 _ Hstart). cbv zeta.
    intros e' Hf. rewrite Hf. eexists. split; reflexivity.
  - set (s0 := Self (db s) (set_start (clock w (steps s)) (stats s)) (S (steps s))) in *.
    destruct (process_all_returns w cfg (_get_property_urls w cfg) [] s0)
      as (ids & s' & E).
    exists ids, s'. split; [exact E|].
    pose proof (keeps_process_all w cfg (_get_property_urls w cfg) [] s0) as K1.
    rewrite E in K1. cbn [snd s0 stats set_start start_time] in K1.
    pose proof (keeps_db_call w (fun d n => Ok (Database.deactivate_old_properties
                                                  d (clock w n) ids)) s') as K2.
    fold (Scraper.deactivate_old_properties w ids) in K2.
    unfold scrape_all_body, bind in Hbody. rewrite E in Hbody.
    destruct (Scraper.deactivate_old_properties w ids s') as [[k|e1] s''] eqn:Ed.
    + right. exists k, s''. split; [reflexivity|]. cbv zeta.
      cbn [snd] in K2. rewrite K1 in K2.
      unfold now, bind, tick, ret, set_stats, get_stats in Hbody.
      cbn [db stats steps] in Hbody.
      unfold duration in Hbody. cbn [set_end end_time start_time] in Hbody.
      rewrite K2 in Hbody. unfold ret in Hbody.
      destruct (Scraper.log_scraping _ _ _) as [[x|e2] s3]; cbn [fst].
      * discriminate.
      * congruence.
    + left. cbn [fst]. congruence.
Qed.

Lemma C8_failed_run_witness :
  exists s2 r,
    scrape_all (world_x 1 false) settings_x fresh = (Raise locked, s2)
    /\ scraping_logs (db s2) = [r]
    /\ r !! "status" = Some (VText (u "error"))
    /\ r !! "errors" = Some (VInt 1).
Proof.
  destruct (C8_failed_run_is_logged (world_x 1 false) settings_x fresh locked stopped)
    as [Hlogged _].
  - vm_compute. reflexivity.
  - unfold int64. simpl. lia.
  - unfold int64. simpl. lia.
  - unfold int64. simpl. lia.
  - unfold int64. simpl. lia.
  - destruct Hlogged as (s2 & r & H1 & H2 & _ & _ & H3 & _ & _ & _ & _ & H4 & _).
    + reflexivity.
    + exists s2, r. split; [exact H1|]. split; [exact H2|]. split; [exact H3 | exact H4].
Defined.

(** C8 (counterexample): first, the site lists nothing, the database
    refuses the reconciliation ("database is locked") and then the
    write of the handler as well ("database or disk is full"): the body
    of the crawl has raised, yet the run log is empty afterwards, and
    the caller gets the second exception, not the one of the crawl.
    Second, the first listing page cannot be fetched: the enumeration
    of the listings has failed, yet nothing is raised to the caller and
    the one row of the run log has the status "completed". *)
Lemma C8_log_write_refused_counterexample :
  ((scrape_all_body (world_x 1 true) settings_x
      (Self (db fresh) (set_start (clock (world_x 1 true) 0) (stats fresh)) 1)).1
   = Raise locked
   /\ (scrape_all (world_x 1 true) settings_x fresh).1 = Raise disk_full
   /\ scraping_logs (db (scrape_all (world_x 1 true) settings_x fresh).2) = [])
  /\ (listing_pages site_down = [Raise (Exn "requests.ConnectionError" [])]
      /\ _get_property_urls site_down settings_x = []
      /\ (scrape_all site_down settings_x fresh).1
         = Ok (stats (scrape_all site_down settings_x fresh).2)
      /\ (fun r => col r "status")
           <$> scraping_logs (db (scrape_all site_down settings_x fresh).2)
         = [VText (u "completed")]).
Proof. repeat split; vm_compute; reflexivity. Qed.

End RunFacts.

(** * Further properties *)

Module RankingLaws.
Import Ranking RankingSpec FloatFacts RankingFacts RankingNotions.

Lemma ge_trans x y t : (x <= y)%Q -> ge x t = true -> ge y t = true.
Proof.
  rewrite !ge_true. intros H1 H2. now apply Qle_trans with x.
Qed.

(** [_evaluate_area] on a positive area. *)
Lemma evaluate_area_positive self d v a :
  d !! "land_area_tsubo" = Some v -> as_num v = Ok a -> (0 < a)%Q ->
  _evaluate_area self d
  = match Float.format_fixed v with
    | Ok _ => descending_bands (area_criteria self) a
    | Raise _ => 30%Q
    end.
Proof.
  intros Hv Ha Pa. unfold _evaluate_area, get. rewrite Hv. cbv zeta.
  rewrite Ha. cbn [rbind].
  assert (le a 0 = false) as -> by (apply le_false; intros H; apply Qle_not_lt in H; auto).
  destruct (Float.format_fixed v); reflexivity.
Qed.

Ltac area_contra :=
  match goal with
  | Hxy : (?x <= ?y)%Q, H1 : ge ?x ?t = true, H2 : ge ?y ?t = false |- _ =>
      exfalso; rewrite (ge_trans x y t Hxy H1) in H2; discriminate
  end.

Lemma descending_bands_monotone c a1 a2 :
  (a1 <= a2)%Q -> (descending_bands c a1 <= descending_bands c a2)%Q.
Proof.
  intros Hle. unfold descending_bands.
  destruct (ge a1 (excellent c)) eqn:X1; destruct (ge a2 (excellent c)) eqn:Y1;
    try area_contra; try (unfold Qle; simpl; lia);
  destruct (ge a1 (very_good c)) eqn:X2; destruct (ge a2 (very_good c)) eqn:Y2;
    try area_contra; try (unfold Qle; simpl; lia);
  destruct (ge a1 (good c)) eqn:X3; destruct (ge a2 (good c)) eqn:Y3;
    try area_contra; try (unfold Qle; simpl; lia);
  destruct (ge a1 (fair c)) eqn:X4; destruct (ge a2 (fair c)) eqn:Y4;
    try area_contra; try (unfold Qle; simpl; lia);
  destruct (ge a1 (poor c)) eqn:X5; destruct (ge a2 (poor c)) eqn:Y5;
    try area_contra; try (unfold Qle; simpl; lia).
Qed.

(** What [f"{v:.1f}"] accepts among the positive numbers: every float
    and [bool], and every integer that [float] converts. *)
Lemma format_fixed_number v a :
  as_num v = Ok a ->
  (Float.format_fixed v = Ok tt
   <-> forall z, v = PInt z -> exists q, Float.of_int z = Ok q)
  /\ (forall e, Float.format_fixed v = Raise e -> e = OverflowError).
Proof.
  destruct v as [|b|z|x|s|dt|l|dd]; simpl; try discriminate; intros _.
  - split; [|discriminate]. split; [discriminate | reflexivity].
  - unfold Float.of_int. destruct (Float.round (inject_Z z)) eqn:E; simpl.
    + split; [|discriminate]. split; [|reflexivity].
      intros _ z' [= <-]. rewrite E. eauto.
    + split; [|congruence]. split; [discriminate|].
      intros H. destruct (H z eq_refl) as [q Hq]. rewrite E in Hq. discriminate.
  - split; [|discriminate]. split; [discriminate | reflexivity].
Qed.

(** X1: the area score of a listing with a positive area that the
    debug line can format (a float, or an integer that [float]
    converts) is one of the six step values, 100 when the area reaches
    the highest band and 10 when it reaches none, and it never
    decreases when the area grows. A positive integer too large for a
    float makes the formatting raise [OverflowError] after the score
    is computed, and the listing scores 30, as does a listing whose
    area is absent, [None] or not positive. Integers up to 2^53 are
    always formatted. *)
Theorem evaluate_area_step_function (self : PropertyRanker) :
  (forall d v a,
      d !! "land_area_tsubo" = Some v -> as_num v = Ok a -> (0 < a)%Q ->
      Float.format_fixed v = Ok tt ->
      _evaluate_area self d ∈ [100; 80; 60; 40; 20; 10]%Q
      /\ ((excellent (area_criteria self) <= a)%Q -> _evaluate_area self d = 100%Q)
      /\ (~ (excellent (area_criteria self) <= a)%Q ->
          ~ (very_good (area_criteria self) <= a)%Q ->
          ~ (good (area_criteria self) <= a)%Q ->
          ~ (fair (area_criteria self) <= a)%Q ->
          ~ (poor (area_criteria self) <= a)%Q ->
          _evaluate_area self d = 10%Q))
  /\ (forall d1 v1 a1 d2 v2 a2,
        d1 !! "land_area_tsubo" = Some v1 -> as_num v1 = Ok a1 ->
        d2 !! "land_area_tsubo" = Some v2 -> as_num v2 = Ok a2 ->
        Float.format_fixed v1 = Ok tt -> Float.format_fixed v2 = Ok tt ->
        (0 < a1)%Q -> (a1 <= a2)%Q ->
        (_evaluate_area self d1 <= _evaluate_area self d2)%Q)
  /\ (forall d v a,
        d !! "land_area_tsubo" = Some v -> as_num v = Ok a -> (0 < a)%Q ->
        (Float.format_fixed v = Ok tt
         <-> forall z, v = PInt z -> exists q, Float.of_int z = Ok q)
        /\ (forall e, Float.format_fixed v = Raise e ->
                      e = OverflowError /\ _evaluate_area self d = 30%Q))
  /\ (forall z, 0 < z <= 2 ^ 53 -> Float.format_fixed (PInt z) = Ok tt)
  /\ (forall d,
        (d !! "land_area_tsubo" = None
         \/ d !! "land_area_tsubo" = Some PNone
         \/ exists a, field_num d "land_area_tsubo" = Some a /\ (a <= 0)%Q) ->
        _evaluate_area self d = 30%Q).
Proof.
  split; [|split; [|split; [|split]]].
  - intros d v a Hv Ha Pa Hf. rewrite (evaluate_area_positive self d v a Hv Ha Pa), Hf.
    unfold descending_bands. split; [|split].
    + repeat match goal with |- context [ge ?x ?y] => destruct (ge x y) end; set_solver.
    + intros H. apply ge_true in H. now rewrite H.
    + intros H1 H2 H3 H4 H5.
      apply ge_false in H1, H2, H3, H4, H5. now rewrite H1, H2, H3, H4, H5.
  - intros d1 v1 a1 d2 v2 a2 H1 N1 H2 N2 F1 F2 P1 Hle.
    assert (0 < a2)%Q as P2 by (apply Qlt_le_trans with a1; assumption).
    rewrite (evaluate_area_positive self d1 v1 a1 H1 N1 P1), F1.
    rewrite (evaluate_area_positive self d2 v2 a2 H2 N2 P2), F2.
    now apply descending_bands_monotone.
  - intros d v a Hv Ha Pa. destruct (format_fixed_number v a Ha) as [Hiff Hexn].
    split; [exact Hiff|]. intros e He. split; [now apply Hexn|].
    now rewrite (evaluate_area_positive self d v a Hv Ha Pa), He.
  - intros z Hz. simpl. destruct (of_int_exact z Hz) as (q & -> & _). reflexivity.
  - intros d H. unfold _evaluate_area, field_num, get in *. cbv zeta.
    destruct H as [H|[H|(a & H & L)]].
    + rewrite H. reflexivity.
    + rewrite H. reflexivity.
    + destruct (d !! "land_area_tsubo") as [v|]; [|discriminate].
      destruct (as_num v) as [q|]; [|discriminate].
      injection H as ->. cbn [rbind].
      assert (le a 0 = true) as -> by (now apply le_true).
      reflexivity.
Qed.

Lemma evaluate_area_witness :
  _evaluate_area Config.config sample_001 = 100%Q
  /\ (_evaluate_area Config.config sample_003
      <= _evaluate_area Config.config sample_001)%Q
  /\ _evaluate_area Config.config sample_vast = 30%Q
  /\ _evaluate_area Config.config listing_kinrin = 30%Q.
Proof.
  destruct (evaluate_area_step_function Config.config)
    as (Hval & Hmono & Hfmt & Hsmall & Hnone).
  assert (Float.format_fixed (PInt 100) = Ok tt) as F100 by (apply Hsmall; lia).
  assert (Float.format_fixed (PInt 30) = Ok tt) as F30 by (apply Hsmall; lia).
  split; [|split; [|split]].
  - assert (0 < 100)%Q as P by reflexivity.
    destruct (Hval sample_001 (PInt 100) 100%Q eq_refl eq_refl P F100) as (_ & H & _).
    apply H. unfold Qle; simpl; lia.
  - refine (Hmono sample_003 (PInt 30) 30%Q sample_001 (PInt 100) 100%Q
                  eq_refl eq_refl eq_refl eq_refl F30 F100 eq_refl _).
    unfold Qle; simpl; lia.
  - destruct (Hfmt sample_vast (PInt (10 ^ 400)) (inject_Z (10 ^ 400))
                   eq_refl eq_refl eq_refl) as [_ H].
    apply (H OverflowError). vm_compute. reflexivity.
  - apply Hnone. left. reflexivity.
Defined.

(** X2: a higher total never gets a worse grade, whatever the
    thresholds are, and the grade is one of S, A, B, C, D. *)
Theorem determine_grade_monotone (self : PropertyRanker) (t1 t2 : Q) :
  (t1 <= t2)%Q ->
  (grade_level (_determine_grade self t1) <= grade_level (_determine_grade self t2))%nat
  /\ _determine_grade self t1 ∈ [u "S"; u "A"; u "B"; u "C"; u "D"].
Proof.
  intros Hle. unfold _determine_grade. split.
  - destruct (ge t1 (th_S (rank_thresholds self))) eqn:X1;
      destruct (ge t2 (th_S (rank_thresholds self))) eqn:Y1;
      try area_contra; try (vm_compute; lia);
    destruct (ge t1 (th_A (rank_thresholds self))) eqn:X2;
      destruct (ge t2 (th_A (rank_thresholds self))) eqn:Y2;
      try area_contra; try (vm_compute; lia);
    destruct (ge t1 (th_B (rank_thresholds self))) eqn:X3;
      destruct (ge t2 (th_B (rank_thresholds self))) eqn:Y3;
      try area_contra; try (vm_compute; lia);
    destruct (ge t1 (th_C (rank_thresholds self))) eqn:X4;
      destruct (ge t2 (th_C (rank_thresholds self))) eqn:Y4;
      try area_contra; try (vm_compute; lia).
  - repeat match goal with |- context [ge ?x ?y] => destruct (ge x y) end; set_solver.
Qed.

Lemma determine_grade_witness :
  (grade_level (_determine_grade Config.config 79.5)
   <= grade_level (_determine_grade Config.config 80))%nat.
Proof.
  apply (determine_grade_monotone Config.config 79.5 80).
  unfold Qle; simpl; lia.
Defined.

Lemma premium_area_score_str areas a :
  premium_area_score areas (PStr a)
  = Ok (if List.existsb (fun p => Str.contains p a) areas then 100%Q else 50%Q).
Proof.
  induction areas as [|p areas IH]; simpl; [reflexivity|].
  destruct (Str.contains p a); simpl; [reflexivity | exact IH].
Qed.

Lemma premium_area_score_values areas address x :
  premium_area_score areas address = Ok x -> x = 50%Q \/ x = 100%Q.
Proof.
  induction areas as [|p areas IH]; simpl.
  - intros [= <-]. now left.
  - destruct (py_in p address) as [[|]|]; simpl; [|exact IH|discriminate].
    intros [= <-]. now right.
Qed.

Lemma station_score_values self walk y :
  station_score self walk = Ok y -> y ∈ [30; 100; 80; 60; 40; 20; 10]%Q.
Proof.
  unfold station_score.
  destruct walk; simpl; try discriminate; intros [= <-];
    first [apply list_elem_of_here
          | apply list_elem_of_further, ascending_bands_values].
Qed.

Lemma evaluate_location_range self d :
  (30 <= _evaluate_location self d)%Q /\ (_evaluate_location self d <= 100)%Q.
Proof.
  unfold _evaluate_location.
  destruct (premium_area_score (premium_areas self) _) as [x|] eqn:Ex; simpl;
    [|split; unfold Qle; simpl; lia].
  destruct (station_score self _) as [y|] eqn:Ey; simpl;
    [|split; unfold Qle; simpl; lia].
  apply premium_area_score_values in Ex. apply station_score_values in Ey.
  repeat (apply elem_of_cons in Ey as [->|Ey]);
    [..|apply elem_of_nil in Ey; contradiction];
    destruct Ex as [->| ->]; split; unfold Qle; simpl; lia.
Qed.

(** X3: the location score always lies between 30 and 100. For a
    listing with an address text it is the mean of the area part, 100
    when the address names a premium area and 50 otherwise, and of the
    station part, the band of the walking minutes or 30 when they are
    not known; fewer walking minutes never lower it. *)
Theorem evaluate_location_mean_of_parts (self : PropertyRanker) :
  (forall d, (30 <= _evaluate_location self d)%Q /\ (_evaluate_location self d <= 100)%Q)
  /\ (forall d a,
        d !! "address" = Some (PStr a) ->
        let area_part := if in_premium_area self a then 100%Q else 50%Q in
        ((d !! "walk_minutes" = None \/ d !! "walk_minutes" = Some PNone) ->
         _evaluate_location self d = (area_part * 0.5 + 30 * 0.5)%Q)
        /\ (forall m,
              field_num d "walk_minutes" = Some m ->
              _evaluate_location self d
              = (area_part * 0.5 + ascending_bands (station_criteria self) m * 0.5)%Q))
  /\ (forall d1 d2 a m1 m2,
        d1 !! "address" = Some (PStr a) -> d2 !! "address" = Some (PStr a) ->
        field_num d1 "walk_minutes" = Some m1 ->
        field_num d2 "walk_minutes" = Some m2 ->
        (m1 <= m2)%Q ->
        (_evaluate_location self d2 <= _evaluate_location self d1)%Q).
Proof.
  assert (forall d a m,
             d !! "address" = Some (PStr a) -> field_num d "walk_minutes" = Some m ->
             _evaluate_location self d
             = ((if in_premium_area self a then 100 else 50) * 0.5
                + ascending_bands (station_criteria self) m * 0.5)%Q) as Hnum.
  { intros d a m Ha Hm. unfold _evaluate_location, get, field_num in *. rewrite Ha.
    rewrite premium_area_score_str.
    destruct (d !! "walk_minutes") as [v|]; [|discriminate].
    destruct v; simpl in Hm; try discriminate; injection Hm as <-; reflexivity. }
  split; [|split].
  - intros d. apply evaluate_location_range.
  - intros d a Ha area_part. subst area_part. split.
    + intros Hw. unfold _evaluate_location, get. rewrite Ha.
      rewrite premium_area_score_str.
      destruct Hw as [-> | ->]; reflexivity.
    + intros m Hm. now apply Hnum.
  - intros d1 d2 a m1 m2 A1 A2 M1 M2 Hle.
    rewrite (Hnum d1 a m1 A1 M1), (Hnum d2 a m2 A2 M2).
    pose proof (ascending_bands_antitone (station_criteria self) m1 m2 Hle).
    lra.
Qed.

Lemma evaluate_location_witness :
  _evaluate_location Config.config sample_001 = (100 * 0.5 + 100 * 0.5)%Q
  /\ (_evaluate_location Config.config sample_far
      <= _evaluate_location Config.config sample_001)%Q.
Proof.
  destruct (evaluate_location_mean_of_parts Config.config) as (_ & Hparts & Hmono).
  split.
  - destruct (Hparts sample_001 (u "大分県大分市中央町1-2-3") eq_refl) as [_ H].
    exact (H 5%Q eq_refl).
  - apply (Hmono sample_001 sample_far (u "大分県大分市中央町1-2-3") 5%Q 25%Q
                 eq_refl eq_refl eq_refl eq_refl).
    unfold Qle; simpl; lia.
Defined.

(** *** The threshold tables of the investment score *)

Lemma pair_ge_true a b : pair_ge a b = true -> (b.1 <= a.1)%Q.
Proof.
  unfold pair_ge, gt. intros H. apply orb_true_iff in H as [H|H].
  - apply negb_true_iff, le_false in H. apply Qlt_le_weak. now apply Qnot_le_lt.
  - apply andb_true_iff in H as [H _]. apply Qeq_bool_iff in H. rewrite H. apply Qle_refl.
Qed.

Lemma pair_ge_false a b : pair_ge a b = false -> (a.1 <= b.1)%Q.
Proof.
  unfold pair_ge, gt. intros H. apply orb_false_iff in H as [H _].
  apply negb_false_iff in H. now apply le_true.
Qed.

Lemma In_insert_desc x y l : In y (insert_desc x l) <-> y = x \/ In y l.
Proof.
  induction l as [|z l IH]; simpl.
  - intuition.
  - destruct (pair_ge x z); simpl; [intuition|]. rewrite IH. intuition.
Qed.

Lemma In_sorted_desc y l : In y (sorted_desc l) <-> In y l.
Proof.
  induction l as [|x l IH]; simpl; [reflexivity|].
  rewrite In_insert_desc, IH. intuition.
Qed.

Lemma insert_desc_sorted x l :
  StronglySorted (fun a b : Q * Q => (b.1 <= a.1)%Q) l ->
  StronglySorted (fun a b : Q * Q => (b.1 <= a.1)%Q) (insert_desc x l).
Proof.
  induction 1 as [|z l Hs IH Hz]; simpl.
  - repeat constructor.
  - destruct (pair_ge x z) eqn:E.
    + constructor; [constructor; assumption|].
      apply pair_ge_true in E. constructor; [exact E|].
      rewrite List.Forall_forall in *. intros w Hw.
      apply Qle_trans with z.1; auto.
    + constructor; [exact IH|].
      rewrite List.Forall_forall in *. intros w Hw.
      apply In_insert_desc in Hw as [->|Hw]; [now apply pair_ge_false | auto].
Qed.

Lemma sorted_desc_sorted l :
  StronglySorted (fun a b : Q * Q => (b.1 <= a.1)%Q) (sorted_desc l).
Proof.
  induction l as [|x l IH]; simpl; [constructor | now apply insert_desc_sorted].
Qed.

Lemma find_first_reached value l best :
  StronglySorted (fun a b : Q * Q => (b.1 <= a.1)%Q) l ->
  List.find (fun ts => ge value ts.1) l = Some best ->
  In best l /\ (best.1 <= value)%Q
  /\ forall ts, In ts l -> (ts.1 <= value)%Q -> (ts.1 <= best.1)%Q.
Proof.
  induction 1 as [|z l Hs IH Hz]; simpl; [discriminate|].
  destruct (ge value z.1) eqn:E.
  - intros [= <-]. split; [now left|]. split; [now apply ge_true|].
    intros ts [<-|Hts] _; [apply Qle_refl|].
    rewrite List.Forall_forall in Hz. now apply Hz.
  - intros Hf. destruct (IH Hf) as (H1 & H2 & H3).
    split; [now right|]. split; [exact H2|].
    intros ts [<-|Hts] Hle; [|now apply H3].
    apply ge_false in E. contradiction.
Qed.

(** X4: the score that a threshold table gives a value is the score
    of an entry whose threshold the value reaches and which has the
    greatest threshold among the entries reached, in whatever order
    the table lists them; when the value reaches no threshold the
    score is 50. *)
Theorem table_score_greatest_threshold (table : list (Q * Q)) (value : Q) :
  ((forall ts, In ts table -> ~ (ts.1 <= value)%Q) -> table_score table value = 50%Q)
  /\ (forall ts,
        In ts table -> (ts.1 <= value)%Q ->
        exists best,
          In best table /\ (best.1 <= value)%Q
          /\ table_score table value = best.2
          /\ forall ts', In ts' table -> (ts'.1 <= value)%Q -> (ts'.1 <= best.1)%Q).
Proof.
  unfold table_score. split.
  - intros Hnone.
    destruct (List.find _ (sorted_desc table)) as [best|] eqn:E; [|reflexivity].
    apply List.find_some in E as [Hin Hge].
    apply (proj1 (In_sorted_desc _ _)) in Hin.
    apply ge_true in Hge. now apply Hnone in Hin.
  - intros ts Hin Hle.
    destruct (List.find _ (sorted_desc table)) as [best|] eqn:E.
    + destruct (find_first_reached value _ best (sorted_desc_sorted table) E)
        as (H1 & H2 & H3).
      exists best. split; [now apply (proj1 (In_sorted_desc _ _))|]. split; [exact H2|].
      split; [reflexivity|]. intros ts' Hin'. apply H3.
      now apply (proj2 (In_sorted_desc _ _)).
    + exfalso. apply (proj2 (In_sorted_desc _ _)) in Hin.
      pose proof (List.find_none _ _ E ts Hin) as Hn. simpl in Hn.
      apply ge_false in Hn. contradiction.
Qed.

Lemma table_score_witness :
  table_score Config.INVESTMENT_CRITERIA_coverage 45 = 50%Q
  /\ table_score (List.rev Config.INVESTMENT_CRITERIA_coverage) 75 = 80%Q.
Proof.
  split.
  - apply (table_score_greatest_threshold Config.INVESTMENT_CRITERIA_coverage 45).
    intros ts Hin Hle. simpl in Hin.
    repeat (destruct Hin as [<-|Hin]; [revert Hle; unfold Qle; simpl; lia|]).
    exact Hin.
  - destruct (table_score_greatest_threshold
                (List.rev Config.INVESTMENT_CRITERIA_coverage) 75) as [_ H].
    destruct (H (70, 80)%Q) as (best & Hin & Hle & -> & Hmax).
    + simpl. auto.
    + unfold Qle; simpl; lia.
    + assert (70 <= best.1)%Q as Hlow by (apply (Hmax (70, 80)%Q); [simpl; auto | unfold Qle; simpl; lia]).
      simpl in Hin.
      repeat (destruct Hin as [<-|Hin];
              [first [reflexivity
                     | exfalso; revert Hle; unfold Qle; simpl; lia
                     | exfalso; revert Hlow; unfold Qle; simpl; lia]|]).
      contradiction.
Defined.

(** *** The range of the scores *)

Lemma percent_values x (l : list Q) :
  x ∈ l -> Forall percent l -> percent x.
Proof. intros Hx Hl. rewrite Forall_forall in Hl. now apply Hl. Qed.

Lemma percent_const_10 : percent 10. Proof. split; unfold Qle; simpl; lia. Qed.
Lemma percent_const_20 : percent 20. Proof. split; unfold Qle; simpl; lia. Qed.
Lemma percent_const_30 : percent 30. Proof. split; unfold Qle; simpl; lia. Qed.
Lemma percent_const_40 : percent 40. Proof. split; unfold Qle; simpl; lia. Qed.
Lemma percent_const_50 : percent 50. Proof. split; unfold Qle; simpl; lia. Qed.
Lemma percent_const_60 : percent 60. Proof. split; unfold Qle; simpl; lia. Qed.
Lemma percent_const_70 : percent 70. Proof. split; unfold Qle; simpl; lia. Qed.
Lemma percent_const_80 : percent 80. Proof. split; unfold Qle; simpl; lia. Qed.
Lemma percent_const_90 : percent 90. Proof. split; unfold Qle; simpl; lia. Qed.
Lemma percent_const_100 : percent 100. Proof. split; unfold Qle; simpl; lia. Qed.

Create HintDb percent.
#[local] Hint Resolve percent_const_10 percent_const_20 percent_const_30
  percent_const_40 percent_const_50 percent_const_60 percent_const_70
  percent_const_80 percent_const_90 percent_const_100 : percent.

Lemma ascending_bands_percent c x : percent (ascending_bands c x).
Proof.
  unfold ascending_bands.
  repeat match goal with |- context [le ?a ?b] => destruct (le a b) end;
    auto with percent.
Qed.













(** *** [parse_numeric_value] *)

Lemma rep_ext {R} (p q : codepoint -> bool) min n s (k : pystr -> option R) :
  List.Forall (fun c => p c = q c) s -> Re.rep p min n s k = Re.rep q min n s k.
Proof.
  intros H. revert n. induction H as [|c s Hc Hs IH]; intros n; simpl; [reflexivity|].
  now rewrite Hc, IH.
Qed.

Lemma remove_char_free c s :
  List.Forall (fun d => (d =? c)%N = false) (Str.remove_char c s).
Proof.
  unfold Str.remove_char. apply List.Forall_forall. intros d Hd.
  apply List.filter_In in Hd as [_ Hd]. now apply negb_true_iff.
Qed.

Lemma match_at_numeric s :
  List.Forall (fun d => (d =? 44)%N = false) s ->
  Re.match_at numeric_pattern s
  = match s with
    | c :: _ =>
        if Unicode.is_digit c
        then Some {| Re.group0 := ScraperSpec.take_digits s; Re.group1 := None |}
        else None
    | [] => None
    end.
Proof.
  intros Hs. unfold Re.match_at, numeric_pattern. cbn [Re.go].
  rewrite (rep_ext _ Unicode.is_digit).
  2: { eapply List.Forall_impl; [|exact Hs]. intros c Hc. cbv beta in *.
       rewrite Hc. apply orb_false_r. }
  rewrite (ScraperFacts.rep_digits_zero
             (fun s' => {| Re.group0 := List.firstn (length s - length s') s;
                           Re.group1 := None |})).
  destruct s as [|c s']; [reflexivity|].
  destruct (Unicode.is_digit c) eqn:Ed; [|reflexivity].
  pose proof (ScraperFacts.take_drop_digits (c :: s')) as Ht.
  cbn [ScraperSpec.drop_digits] in Ht. rewrite Ed in Ht.
  do 2 f_equal. exact Ht.
Qed.

Lemma search_numeric s :
  List.Forall (fun d => (d =? 44)%N = false) s ->
  Re.search numeric_pattern s
  = match ScraperSpec.first_digit_run s with
    | Some ds => Some {| Re.group0 := ds; Re.group1 := None |}
    | None => None
    end.
Proof.
  induction 1 as [|c s Hc Hs IH].
  - reflexivity.
  - cbn [Re.search ScraperSpec.first_digit_run].
    rewrite match_at_numeric by (constructor; assumption).
    destruct (Unicode.is_digit c); [reflexivity | exact IH].
Qed.

Lemma digits_total ds :
  List.Forall (fun c => Unicode.is_digit c = true) ds ->
  forall acc, exists z, Parse.digits acc ds = Some z.
Proof.
  induction 1 as [|c ds Hc Hd IH]; intros acc; simpl; [eauto|].
  unfold Unicode.is_digit in Hc.
  destruct (Unicode.digit_value c); [apply IH | discriminate].
Qed.

Lemma digit_value_nonneg c d : Unicode.digit_value c = Some d -> 0 <= d.
Proof.
  unfold Unicode.digit_value. destruct (List.find _ _); [|discriminate].
  intros [= <-]. apply N2Z.is_nonneg.
Qed.

Lemma digits_nonneg ds acc z :
  0 <= acc -> Parse.digits acc ds = Some z -> 0 <= z.
Proof.
  revert acc. induction ds as [|c ds IH]; intros acc Ha; simpl.
  - now intros [= <-].
  - destruct (Unicode.digit_value c) as [d|] eqn:E; [|discriminate].
    apply IH. pose proof (digit_value_nonneg c d E). lia.
Qed.

Lemma find_point_digits ds :
  List.Forall (fun c => Unicode.is_digit c = true) ds -> Str.find 46%N ds = None.
Proof.
  induction 1 as [|c ds Hc Hd IH]; simpl; [reflexivity|].
  destruct (c =? 46)%N eqn:E.
  - apply N.eqb_eq in E. subst c. vm_compute in Hc. discriminate.
  - now rewrite IH.
Qed.

Lemma float_of_digits ds z :
  List.Forall (fun c => Unicode.is_digit c = true) ds -> ds <> [] ->
  Parse.digits 0 ds = Some z ->
  exists q, Parse.float ds = Ok q /\ (q == inject_Z z)%Q.
Proof.
  intros Hd Hne Hz. unfold Parse.float, Url.before.
  rewrite (find_point_digits ds Hd).
  rewrite List.skipn_all2 by lia. rewrite app_nil_r.
  destruct ds as [|c ds]; [contradiction|].
  rewrite Hz. cbn [Parse.digits List.length Z.of_nat].
  eexists. split; [reflexivity|].
  change (inject_Z 0 / inject_Z (10 ^ 0))%Q with (0 / 1)%Q.
  unfold Qeq. simpl. lia.
Qed.

Lemma first_digit_run_some s ds :
  ScraperSpec.first_digit_run s = Some ds ->
  ds <> [] /\ List.Forall (fun c => Unicode.is_digit c = true) ds.
Proof.
  induction s as [|c s IH]; simpl; [discriminate|].
  destruct (Unicode.is_digit c) eqn:E; [|exact IH].
  intros [= <-]. split; [discriminate|].
  constructor; [exact E|].
  apply Forall_forall. intros x Hx.
  pose proof (ScraperFacts.take_digits_all s) as H.
  rewrite Forall_forall in H. now apply H.
Qed.

Lemma first_digit_run_none s :
  ScraperSpec.first_digit_run s = None
  <-> List.Forall (fun c => Unicode.is_digit c = false) s.
Proof.
  induction s as [|c s IH]; simpl.
  - split; [constructor | reflexivity].
  - destruct (Unicode.is_digit c) eqn:E.
    + split; [discriminate|]. intros H. apply List.Forall_cons_iff in H as [H _].
      congruence.
    + rewrite IH. split; [now constructor|].
      intros H. now apply List.Forall_cons_iff in H as [_ H].
Qed.

Lemma remove_comma_digits s :
  List.Forall (fun c => Unicode.is_digit c = false) (Str.remove_char 44%N s)
  <-> List.Forall (fun c => Unicode.is_digit c = false) s.
Proof.
  unfold Str.remove_char. rewrite !List.Forall_forall. split.
  - intros H c Hc. destruct (c =? 44)%N eqn:E.
    + apply N.eqb_eq in E. now subst c.
    + apply H. apply List.filter_In. split; [exact Hc | now rewrite E].
  - intros H c Hc. apply List.filter_In in Hc as [Hc _]. now apply H.
Qed.

(** X6: with its default pattern [parse_numeric_value] reads the
    first run of digits of the text after the commas are taken out,
    so a fraction is cut off at the point, and returns the double
    nearest to the number they write: the number itself up to 2^53,
    a neighbour beyond (9007199254740993 gives 9007199254740992), and
    an infinity for a number beyond the doubles. It gives [None]
    exactly for the texts without a digit, and for anything that is
    not a text. *)
Theorem parse_numeric_value_first_number :
  (forall s,
      parse_numeric_value (PStr s)
      = match first_number s with
        | Some z => Some (Float.round (inject_Z z))
        | None => None
        end)
  /\ (forall z, 0 <= z <= 2 ^ 53 ->
                exists q, Float.round (inject_Z z) = Float.Finite q
                          /\ (q == inject_Z z)%Q)
  /\ Float.round (inject_Z 9007199254740993) = Float.Finite 9007199254740992
  /\ Float.round (inject_Z (10 ^ 400)) = Float.Infinity false
  /\ (forall s,
        parse_numeric_value (PStr s) = None
        <-> List.Forall (fun c => Unicode.is_digit c = false) s)
  /\ (forall v, (forall s, v <> PStr s) -> parse_numeric_value v = None).
Proof.
  assert (forall s,
             parse_numeric_value (PStr s)
             = match first_number s with
               | Some z => Some (Float.round (inject_Z z))
               | None => None
               end
             /\ (first_number s = None
                 -> ScraperSpec.first_digit_run (Str.remove_char 44%N s) = None)) as Hmain.
  { intros s. unfold first_number, parse_numeric_value.
    destruct s as [|c s]; [split; reflexivity|].
    rewrite search_numeric by apply remove_char_free.
    destruct (ScraperSpec.first_digit_run _) as [ds|] eqn:E; [|split; reflexivity].
    apply first_digit_run_some in E as [Hne Hd].
    destruct (digits_total ds Hd 0) as [z Hz]. rewrite Hz. cbn [Re.group0].
    destruct (float_of_digits ds z Hd Hne Hz) as (q & Hq & Hv).
    rewrite Hq. split; [|discriminate]. f_equal.
    apply round_comp_nonneg; [|now symmetry].
    pose proof (digits_nonneg ds 0 z (Z.le_refl 0) Hz). unfold Qle. simpl. lia. }
  split; [intros s; apply Hmain|].
  split; [exact round_small_int|].
  split; [vm_compute; reflexivity|].
  split; [vm_compute; reflexivity|].
  split.
  - intros s. destruct (Hmain s) as [Hs Hn].
    rewrite <- remove_comma_digits, <- first_digit_run_none, Hs.
    destruct (first_number s) as [z|] eqn:Ez.
    + split; [discriminate|]. intros H. exfalso.
      unfold first_number in Ez. now rewrite H in Ez.
    + split; [intros _; now apply Hn | reflexivity].
  - intros v Hv. destruct v; try reflexivity. now destruct (Hv s).
Qed.

Lemma parse_numeric_value_witness :
  parse_numeric_value (PStr (u "1,234万円")) = Some (Float.Finite 1234)
  /\ parse_numeric_value (PStr (u "12.5坪")) = Some (Float.Finite 12)
  /\ parse_numeric_value (PStr (u "価格応談")) = None
  /\ parse_numeric_value PNone = None.
Proof.
  destruct parse_numeric_value_first_number as (Hnum & _ & _ & _ & Hnone & Hother).
  split; [rewrite Hnum; vm_compute; reflexivity|].
  split; [rewrite Hnum; vm_compute; reflexivity|].
  split.
  - apply Hnone. repeat constructor.
  - apply Hother. discriminate.
Defined.

End RankingLaws.

Module DatabaseLaws.
Import Database DatabaseSpec DatabaseFacts DatabaseNotions.

(** *** Reconciliation *)

Lemma is_old_after now ids r :
  is_old ids (if is_old ids r then deactivated now r else r) = false.
Proof.
  destruct (is_old ids r) eqn:E; [|exact E].
  unfold is_old. rewrite is_active_deactivated.
  destruct ids; [reflexivity | apply andb_false_r].
Qed.

(** X7: reconciling a second time with the same observed ids
    deactivates nothing and leaves the store, the time stamps of the
    rows included, as the first reconciliation left it. *)
Theorem deactivate_old_properties_twice
        (self : PropertyDatabase) (now now' : datetime) (ids : list pystr) :
  deactivate_old_properties (deactivate_old_properties self now ids).2 now' ids
  = (0, (deactivate_old_properties self now ids).2).
Proof.
  set (self1 := (deactivate_old_properties self now ids).2).
  assert (forall r, r ∈ properties self1 -> is_old ids r = false) as Hold.
  { intros r Hr. subst self1. rewrite deactivate_rows in Hr.
    apply list_elem_of_fmap in Hr as (r0 & -> & _). apply is_old_after. }
  unfold deactivate_old_properties at 1. f_equal.
  - rewrite filter_none by exact Hold. reflexivity.
  - destruct self1 as [rows sq logs lsq]. cbn [properties properties_seq
      scraping_logs scraping_logs_seq] in *. f_equal.
    apply fmap_id_on. intros r Hr. now rewrite (Hold r Hr).
Qed.

(** *** Insertion of a new listing *)



Lemma find_no_id s rows :
  (forall r, r ∈ rows -> col r "property_id" ≠ VText s) ->
  List.find (fun r => sql_eq (col r "property_id") (VText s)) rows = None.
Proof.
  induction rows as [|r rows IH]; intros H; simpl; [reflexivity|].
  destruct (sql_eq _ _) eqn:E.
  - apply sql_eq_text in E. exfalso. apply (H r); [apply list_elem_of_here | exact E].
  - apply IH. intros r' Hr'. apply H. now apply list_elem_of_further.
Qed.

Lemma max_id_ge rows r n :
  r ∈ rows -> col r "id" = VInt n -> n <= max_id rows.
Proof.
  induction rows as [|r' rows IH]; intros Hr Hn.
  - apply elem_of_nil in Hr. contradiction.
  - simpl. apply elem_of_cons in Hr as [->|Hr].
    + rewrite Hn. lia.
    + specialize (IH Hr Hn). destruct (col r' "id"); lia.
Qed.

Lemma upsert_new_inv self now cts (d : pydict) s is_new pid d' self' :
  d !! "property_id" = Some (PStr s) ->
  (forall r, r ∈ properties self -> col r "property_id" ≠ VText s) ->
  upsert_property self now cts d = Ok (is_new, pid, d', self') ->
  exists sets r,
    prepare properties_columns (jsonify d) = Ok sets
    /\ r = (if is_null (col (assign (default_row cts) sets) "id")
            then <["id" := VInt (next_rowid (properties_seq self) (properties self))]>
                   (assign (default_row cts) sets)
            else assign (default_row cts) sets)
    /\ is_new = true /\ pid = PStr s /\ d' = jsonify d
    /\ properties self' = properties self ++ [r]
    /\ scraping_logs self' = scraping_logs self
    /\ scraping_logs_seq self' = scraping_logs_seq self
    /\ constraints_ok (properties self') = true.
Proof.
  intros Hid Hnew. unfold upsert_property, get. rewrite Hid. cbn [adapt rbind].
  rewrite (find_no_id s _ Hnew).
  assert (jsonify d ≠ ∅) as Hne.
  { intros E. apply (f_equal (fun m : pydict => m !! "property_id")) in E.
    rewrite jsonify_lookup_ne, Hid, lookup_empty in E by done. discriminate. }
  rewrite (bool_decide_eq_false_2 _ Hne).
  destruct (prepare properties_columns (jsonify d)) as [sets|] eqn:Hp;
    cbn [rbind]; [|discriminate].
  fold (default_row cts).
  match goal with
  | |- (if constraints_ok ?rows then _ else _) = _ -> _ =>
      destruct (constraints_ok rows) eqn:Hok; [|discriminate]
  end.
  intros H. injection H as <- <- <- <-.
  exists sets. eexists. split; [reflexivity|]. split; [reflexivity|].
  repeat split. exact Hok.
Qed.




(** *** Acceptance *)

Lemma distinct_on_snoc c l r :
  distinct_on c (l ++ [r])
  = distinct_on c l && List.forallb (fun r0 => negb (sql_eq (col r0 c) (col r c))) l.
Proof.
  induction l as [|a l IH]; simpl; [reflexivity|].
  rewrite IH, List.existsb_app. simpl. rewrite orb_false_r, negb_orb.
  destruct (negb (List.existsb _ l)), (negb (sql_eq (col a c) (col r c))),
    (distinct_on c l); reflexivity.
Qed.

Lemma constraints_ok_snoc l r :
  constraints_ok (l ++ [r])
  = constraints_ok l && row_ok r
    && List.forallb (fun r0 => negb (sql_eq (col r0 "id") (col r "id"))) l
    && List.forallb (fun r0 => negb (sql_eq (col r0 "property_id") (col r "property_id"))) l.
Proof.
  unfold constraints_ok. rewrite List.forallb_app, !distinct_on_snoc. simpl.
  rewrite andb_true_r.
  destruct (List.forallb row_ok l), (row_ok r), (distinct_on "id" l),
    (distinct_on "property_id" l),
    (List.forallb (fun r0 => negb (sql_eq (col r0 "id") (col r "id"))) l),
    (List.forallb (fun r0 => negb (sql_eq (col r0 "property_id") (col r "property_id"))) l);
    reflexivity.
Qed.

Lemma constraints_row_ok rows r :
  constraints_ok rows = true -> r ∈ rows -> row_ok r = true.
Proof.
  unfold constraints_ok. intros H Hr.
  apply andb_true_iff in H as [H _]. apply andb_true_iff in H as [H _].
  rewrite List.forallb_forall in H. apply H. now apply list_elem_of_In.
Qed.

Lemma row_ok_id r : row_ok r = true -> exists n, col r "id" = VInt n.
Proof.
  unfold row_ok. intros H. apply andb_true_iff in H as [_ H].
  destruct (col r "id"); try discriminate. eauto.
Qed.

Lemma jsonify_raw_data (d : pydict) v :
  (forall x, v <> Some (PDict x)) -> d !! "raw_data" = v -> jsonify d !! "raw_data" = v.
Proof.
  intros Hv H. unfold jsonify.
  match goal with
  | |- match ?m !! "raw_data" with _ => _ end !! _ = _ => set (d1 := m)
  end.
  assert (d1 !! "raw_data" = v) as H1.
  { subst d1. destruct (d !! "image_urls") as [[]|];
      rewrite ?lookup_insert_ne by done; exact H. }
  rewrite H1. destruct v as [[]|]; try exact H1. now destruct (Hv d0).
Qed.

Lemma jsonify_lookup_str (d : pydict) k x :
  d !! k = Some (PStr x) -> jsonify d !! k = Some (PStr x).
Proof.
  intros H. destruct (decide (k = "image_urls")) as [->|K1].
  - rewrite jsonify_lookup_ne_raw, H. exact H.
  - destruct (decide (k = "raw_data")) as [->|K2].
    + now apply jsonify_raw_data.
    + now rewrite jsonify_lookup_ne.
Qed.

Lemma jsonify_lookup_none (d : pydict) k : d !! k = None -> jsonify d !! k = None.
Proof.
  intros H. destruct (decide (k = "image_urls")) as [->|K1].
  - rewrite jsonify_lookup_ne_raw, H. exact H.
  - destruct (decide (k = "raw_data")) as [->|K2].
    + now apply jsonify_raw_data.
    + now rewrite jsonify_lookup_ne.
Qed.

(** X9: a consistent store accepts every record that has a text
    id, url and title, no [id] of its own, only column names as keys
    and only values that can be bound: [upsert_property] returns, the
    store stays consistent, and the listing is reported as new exactly
    when no row had its id, in which case the table grows by one row;
    otherwise the number of rows is unchanged. *)
Theorem upsert_property_accepts
        (self : PropertyDatabase) (now : datetime) (cts : pystr) (d : pydict)
        (s url title : pystr) :
  consistent self ->
  d !! "property_id" = Some (PStr s) ->
  d !! "url" = Some (PStr url) -> d !! "title" = Some (PStr title) ->
  d !! "id" = None ->
  (forall k v, jsonify d !! k = Some v ->
               k ∈ properties_columns /\ exists v', adapt v = Ok v') ->
  exists is_new self',
    upsert_property self now cts d = Ok (is_new, PStr s, jsonify d, self')
    /\ consistent self'
    /\ (is_new = true <->
        forall r, r ∈ properties self -> col r "property_id" ≠ VText s)
    /\ length (properties self')
       = (length (properties self) + if is_new then 1 else 0)%nat.
Proof.
  intros Hcons Hid Hurl Htitle Hnoid Hbind. unfold consistent in *.
  destruct (List.find (fun r => sql_eq (col r "property_id") (VText s)) (properties self))
    as [r0|] eqn:Ef.
  - apply List.find_some in Ef as [Hr0 Hc0].
    apply list_elem_of_In in Hr0. apply sql_eq_text in Hc0.
    set (fields := delete "property_id" (jsonify d)).
    destruct (RunFacts.prepare_total properties_columns fields) as [sets Hp].
    { intros k v Hk. subst fields. apply lookup_delete_Some in Hk as [_ Hk].
      now apply Hbind. }
    destruct (prepare_spec _ _ _ Hp) as (Hnd & Hnone & Hsome).
    set (f := fun r : row =>
                if sql_eq (col r "property_id") (VText s)
                then <["updated_at" := VText (adapt_datetime now)]> (assign r sets)
                else r).
    assert (forall r k, fields !! k = None -> k ≠ "updated_at" -> col (f r) k = col r k)
      as Hkeep.
    { intros r k Hk Hne. subst f. cbv beta. destruct (sql_eq _ _); [|reflexivity].
      unfold col. rewrite lookup_insert_ne by congruence.
      rewrite assign_lookup_notin; [reflexivity | now apply Hnone]. }
    assert (forall r k x, fields !! k = Some (PStr x) -> k ≠ "updated_at" ->
                          is_null (col r k) = false -> is_null (col (f r) k) = false)
      as Hset.
    { intros r k x Hk Hne Hr. subst f. cbv beta. destruct (sql_eq _ _); [|exact Hr].
      unfold col. rewrite lookup_insert_ne by congruence.
      destruct (Hsome k _ Hk) as (v' & Hv' & Hin). cbn [adapt] in Hv'.
      injection Hv' as <-. rewrite (assign_lookup_in _ _ _ _ Hnd Hin). reflexivity. }
    assert (fields !! "property_id" = None) as F1 by apply lookup_delete_eq.
    assert (fields !! "id" = None) as F2.
    { subst fields. rewrite lookup_delete_ne by done. now apply jsonify_lookup_none. }
    assert (fields !! "url" = Some (PStr url)) as F3.
    { subst fields. rewrite lookup_delete_ne by done. now apply jsonify_lookup_str. }
    assert (fields !! "title" = Some (PStr title)) as F4.
    { subst fields. rewrite lookup_delete_ne by done. now apply jsonify_lookup_str. }
    assert (constraints_ok (f <$> properties self) = true) as Hok.
    { unfold constraints_ok in *.
      apply andb_true_iff in Hcons as [Hcons H3].
      apply andb_true_iff in Hcons as [H1 H2].
      apply andb_true_iff. split; [apply andb_true_iff; split|].
      - apply List.forallb_forall. intros r' Hr'.
        apply list_elem_of_In, list_elem_of_fmap in Hr' as (r & -> & Hr).
        rewrite List.forallb_forall in H1.
        specialize (H1 r (proj1 (list_elem_of_In _ _) Hr)).
        unfold row_ok in *.
        rewrite (Hkeep r "property_id" F1), (Hkeep r "id" F2) by done.
        apply andb_true_iff in H1 as [H1 Hd]. apply andb_true_iff in H1 as [H1 Hc].
        apply andb_true_iff in H1 as [Ha Hb].
        rewrite Ha, Hd. apply negb_true_iff in Hb, Hc.
        rewrite (Hset r "url" url F3), (Hset r "title" title F4) by done.
        reflexivity.
      - rewrite (distinct_on_ext "id" _ (properties self)); [exact H2|].
        apply Forall2_fmap_l, Forall_Forall2_diag, Forall_forall.
        intros r _. now apply Hkeep.
      - rewrite (distinct_on_ext "property_id" _ (properties self)); [exact H3|].
        apply Forall2_fmap_l, Forall_Forall2_diag, Forall_forall.
        intros r _. now apply Hkeep. }
    exists false. eexists. split; [|split; [|split]].
    + eapply (upsert_existing_run self now cts d s sets r0); try eassumption.
      intros E. fold fields in E. rewrite E in F3. rewrite lookup_empty in F3.
      discriminate.
    + exact Hok.
    + split; [discriminate|]. intros H. exfalso. now apply (H r0).
    + cbn [properties]. rewrite length_fmap. lia.
  - assert (forall r, r ∈ properties self -> col r "property_id" ≠ VText s) as Hnew.
    { intros r Hr Hc. apply list_elem_of_In in Hr.
      pose proof (List.find_none _ _ Ef r Hr) as Hn. cbv beta in Hn.
      apply sql_eq_text in Hc. congruence. }
    destruct (RunFacts.prepare_total properties_columns (jsonify d) Hbind) as [sets Hp].
    destruct (prepare_spec _ _ _ Hp) as (Hnd & Hnone & Hsome).
    set (r0 := assign (default_row cts) sets).
    set (n := next_rowid (properties_seq self) (properties self)).
    assert (forall k x, d !! k = Some (PStr x) -> r0 !! k = Some (VText x)) as Hstr.
    { intros k x Hk. apply jsonify_lookup_str in Hk.
      destruct (Hsome k _ Hk) as (v' & Hv' & Hin). cbn [adapt] in Hv'.
      injection Hv' as <-. now apply assign_lookup_in. }
    assert (col r0 "id" = VNull) as Hnull.
    { unfold col. subst r0. rewrite assign_lookup_notin.
      - reflexivity.
      - apply Hnone. now apply jsonify_lookup_none. }
    set (r := <["id" := VInt n]> r0).
    assert (constraints_ok (properties self ++ [r]) = true) as Hok.
    { rewrite constraints_ok_snoc, Hcons. cbn [andb].
      assert (row_ok r = true) as ->.
      { unfold row_ok, r, col. rewrite lookup_insert_eq.
        rewrite !lookup_insert_ne by done.
        rewrite (Hstr _ _ Hid), (Hstr _ _ Hurl), (Hstr _ _ Htitle). reflexivity. }
      cbn [andb]. apply andb_true_iff. split.
      - apply List.forallb_forall. intros r1 Hr1. apply list_elem_of_In in Hr1.
        destruct (row_ok_id r1 (constraints_row_ok _ _ Hcons Hr1)) as [m Hm].
        pose proof (max_id_ge _ _ _ Hr1 Hm) as Hle.
        unfold r at 1. rewrite col_insert_eq, Hm. cbn [sql_eq].
        apply negb_true_iff, Z.eqb_neq. unfold n, next_rowid. lia.
      - apply List.forallb_forall. intros r1 Hr1. apply list_elem_of_In in Hr1.
        assert (col r "property_id" = VText s) as ->.
        { unfold col, r. rewrite lookup_insert_ne by done. now rewrite (Hstr _ _ Hid). }
        apply negb_true_iff. destruct (sql_eq _ _) eqn:E; [|reflexivity].
        apply sql_eq_text in E. now apply Hnew in E. }
    exists true. eexists. split; [|split; [|split]].
    + unfold upsert_property, get. rewrite Hid. cbn [adapt rbind].
      rewrite Ef.
      rewrite bool_decide_eq_false_2.
      2: { intros E. apply (f_equal (fun m : pydict => m !! "property_id")) in E.
           rewrite jsonify_lookup_ne, Hid, lookup_empty in E by done. discriminate. }
      rewrite Hp. cbn [rbind]. fold (default_row cts). fold r0.
      rewrite Hnull. cbn [is_null]. fold n. fold r. rewrite Hok. reflexivity.
    + exact Hok.
    + split; [intros _; exact Hnew | reflexivity].
    + cbn [properties]. rewrite length_app. reflexivity.
Qed.

Lemma upsert_property_accepts_witness :
  exists self',
    upsert_property store_day1 day2 (u "2025-01-02 00:00:00") (sighting day2)
    = Ok (false, PStr (u "athome_123"), sighting day2, self')
    /\ consistent self'.
Proof.
  destruct (upsert_property_accepts
              store_day1 day2 (u "2025-01-02 00:00:00") (sighting day2)
              (u "athome_123") (u "https://www.athome.co.jp/tochi/123/") (u "売土地"))
    as (is_new & self' & Hrun & Hcons & Hnew & _).
  - reflexivity.
  - reflexivity.
  - reflexivity.
  - reflexivity.
  - reflexivity.
  - intros k v Hk.
    change (jsonify (sighting day2)) with (sighting day2) in Hk. unfold sighting in Hk.
    repeat (apply lookup_insert_Some in Hk as [[<- <-]|[_ Hk]];
            [split; [unfold properties_columns;
                     repeat first [apply list_elem_of_here | apply list_elem_of_further]
                    | cbn [adapt]; eauto]|]).
    rewrite lookup_empty in Hk. discriminate.
  - destruct is_new.
    + exfalso. destruct Hnew as [Hnew _].
      apply (Hnew eq_refl row_day1); [apply list_elem_of_here | reflexivity].
    + exists self'. split; [exact Hrun | exact Hcons].
Defined.

(** *** The order of ORDER BY *)

Lemma text_compare_antisym a b : text_compare b a = CompOpp (text_compare a b).
Proof.
  revert b. induction a as [|x a IH]; intros [|y b]; simpl; try reflexivity.
  rewrite (N.compare_antisym x y). destruct (x ?= y)%N; simpl; auto.
Qed.

Lemma text_compare_eq a b : text_compare a b = Eq <-> a = b.
Proof.
  revert b. induction a as [|x a IH]; intros [|y b]; simpl;
    try (split; [discriminate | congruence]); [tauto|].
  destruct (x ?= y)%N eqn:E.
  - apply N.compare_eq_iff in E. subst y. rewrite IH. split; congruence.
  - split; [discriminate|]. intros [= -> _]. rewrite N.compare_refl in E. discriminate.
  - split; [discriminate|]. intros [= -> _]. rewrite N.compare_refl in E. discriminate.
Qed.

Lemma text_compare_gt_trans a b c :
  text_compare a b = Gt -> text_compare b c = Gt -> text_compare a c = Gt.
Proof.
  revert b c. induction a as [|x a IH]; intros [|y b] [|z c]; simpl;
    try discriminate; try reflexivity.
  destruct (x ?= y)%N eqn:E1; try discriminate;
    destruct (y ?= z)%N eqn:E2; try discriminate; intros H1 H2.
  - apply N.compare_eq_iff in E1, E2. subst. rewrite N.compare_refl. eauto.
  - apply N.compare_eq_iff in E1. subst. now rewrite E2.
  - apply N.compare_eq_iff in E2. subst. now rewrite E1.
  - assert ((x ?= z)%N = Gt) as ->; [|reflexivity].
    apply N.compare_gt_iff in E1, E2. apply N.compare_gt_iff. lia.
Qed.

Lemma Zcompare_inject x y : (x ?= y)%Z = (inject_Z x ?= inject_Z y)%Q.
Proof. unfold Qcompare. simpl. now rewrite !Z.mul_1_r. Qed.

Lemma Qcompare_gt_trans a b c :
  (a ?= b)%Q = Gt -> (b ?= c)%Q <> Lt -> (a ?= c)%Q = Gt.
Proof.
  intros H1 H2. apply Qgt_alt in H1. apply Qgt_alt.
  destruct (Qcompare_spec b c) as [E|L|G]; [|congruence|].
  - now rewrite <- E.
  - now apply Qlt_trans with b.
Qed.

Lemma Qcompare_eq_gt a b c :
  (a ?= b)%Q = Eq -> (b ?= c)%Q = Gt -> (a ?= c)%Q = Gt.
Proof.
  intros H1 H2. apply Qeq_alt in H1. now rewrite H1.
Qed.

Lemma Qcompare_eq_eq a b c :
  (a ?= b)%Q = Eq -> (b ?= c)%Q = Eq -> (a ?= c)%Q = Eq.
Proof.
  intros H1 H2. apply Qeq_alt in H1. now rewrite H1.
Qed.

Lemma Qcompare_flip a b : (b ?= a)%Q = CompOpp (a ?= b)%Q.
Proof. symmetry. apply Qcompare_antisym. Qed.

Ltac numeric :=
  cbn [sql_compare]; rewrite ?Zcompare_inject.

Lemma sql_compare_antisym a b : sql_compare b a = CompOpp (sql_compare a b).
Proof.
  destruct a, b; cbn [sql_compare CompOpp]; try reflexivity;
    first [apply Z.compare_antisym | apply Qcompare_flip | apply text_compare_antisym].
Qed.

Lemma sql_compare_gt_trans a b c :
  sql_compare a b = Gt -> sql_compare b c <> Lt -> sql_compare a c = Gt.
Proof.
  destruct a, b, c; numeric; try discriminate; try congruence; try reflexivity;
    try apply Qcompare_gt_trans.
  intros H1 H2. destruct (text_compare s0 s1) eqn:E; [|congruence|].
  - apply text_compare_eq in E. now subst.
  - now apply text_compare_gt_trans with s0.
Qed.

Lemma sql_compare_eq_gt a b c :
  sql_compare a b = Eq -> sql_compare b c = Gt -> sql_compare a c = Gt.
Proof.
  destruct a, b, c; numeric; try discriminate; try congruence; try reflexivity;
    try apply Qcompare_eq_gt.
  intros H1 H2. apply text_compare_eq in H1. now subst.
Qed.

Lemma sql_compare_eq_eq a b c :
  sql_compare a b = Eq -> sql_compare b c = Eq -> sql_compare a c = Eq.
Proof.
  destruct a, b, c; numeric; try discriminate; try congruence; try reflexivity;
    try apply Qcompare_eq_eq.
  intros H1 H2. apply text_compare_eq in H1. now subst.
Qed.

Lemma sql_compare_refl a : sql_compare a a = Eq.
Proof.
  destruct a; cbn [sql_compare]; try reflexivity.
  - apply Z.compare_refl.
  - apply Qeq_alt. reflexivity.
  - now apply text_compare_eq.
Qed.

Lemma desc_by_total columns r1 r2 :
  desc_by columns r1 r2 = false -> desc_by columns r2 r1 = true.
Proof.
  induction columns as [|c columns IH]; simpl; [discriminate|].
  rewrite (sql_compare_antisym (col r1 c) (col r2 c)).
  destruct (sql_compare (col r1 c) (col r2 c)); simpl; auto.
Qed.

Lemma desc_by_trans columns r1 r2 r3 :
  desc_by columns r1 r2 = true -> desc_by columns r2 r3 = true ->
  desc_by columns r1 r3 = true.
Proof.
  induction columns as [|c columns IH]; simpl; [reflexivity|].
  destruct (sql_compare (col r1 c) (col r2 c)) eqn:E1; try discriminate;
    destruct (sql_compare (col r2 c) (col r3 c)) eqn:E2; try discriminate;
    intros H1 H2.
  - rewrite (sql_compare_eq_eq _ _ _ E1 E2). auto.
  - now rewrite (sql_compare_eq_gt _ _ _ E1 E2).
  - rewrite (sql_compare_gt_trans _ _ _ E1); [reflexivity | congruence].
  - rewrite (sql_compare_gt_trans _ _ _ E1); [reflexivity | congruence].
Qed.

(** Insertion into an ordered list. *)
Lemma insert_row_perm before r l : Permutation (insert_row before r l) (r :: l).
Proof.
  induction l as [|r' l IH]; simpl; [reflexivity|].
  destruct (before r r'); [reflexivity|].
  rewrite IH. apply perm_swap.
Qed.

Lemma order_by_perm before l : Permutation (order_by before l) l.
Proof.
  induction l as [|r l IH]; simpl; [reflexivity|].
  rewrite insert_row_perm. now constructor.
Qed.

Lemma insert_row_sorted (before : row -> row -> bool) r l :
  (forall a b, before a b = false -> before b a = true) ->
  (forall a b c, before a b = true -> before b c = true -> before a c = true) ->
  StronglySorted (fun a b => before a b = true) l ->
  StronglySorted (fun a b => before a b = true) (insert_row before r l).
Proof.
  intros Htot Htrans. induction 1 as [|r' l Hs IH Hr']; simpl.
  - repeat constructor.
  - destruct (before r r') eqn:E.
    + constructor; [constructor; assumption|].
      constructor; [exact E|].
      rewrite List.Forall_forall in *. intros x Hx. eapply Htrans; eauto.
    + constructor; [exact IH|].
      rewrite List.Forall_forall in *. intros x Hx.
      apply (Permutation_in _ (insert_row_perm before r l)) in Hx.
      destruct Hx as [<-|Hx]; [now apply Htot | now apply Hr'].
Qed.

Lemma order_by_sorted (before : row -> row -> bool) l :
  (forall a b, before a b = false -> before b a = true) ->
  (forall a b c, before a b = true -> before b c = true -> before a c = true) ->
  StronglySorted (fun a b => before a b = true) (order_by before l).
Proof.
  intros Htot Htrans. induction l as [|r l IH]; simpl; [constructor|].
  now apply insert_row_sorted.
Qed.

Lemma sorted_lookup {A} (R : A -> A -> Prop) l i j x y :
  StronglySorted R l -> (i < j)%nat -> l !! i = Some x -> l !! j = Some y -> R x y.
Proof.
  intros Hs. revert i j. induction Hs as [|a l Hs IH Ha]; intros i j Hij Hi Hj.
  - rewrite lookup_nil in Hi. discriminate.
  - destruct j as [|j]; [lia|]. cbn in Hj.
    destruct i as [|i].
    + cbn in Hi. injection Hi as <-. rewrite List.Forall_forall in Ha.
      apply Ha. apply list_elem_of_In. eapply list_elem_of_lookup_2. exact Hj.
    + cbn in Hi. apply (IH i j); [lia | assumption | assumption].
Qed.

Lemma order_by_desc_lookup columns rows i j r1 r2 :
  (i < j)%nat ->
  order_by (desc_by columns) rows !! i = Some r1 ->
  order_by (desc_by columns) rows !! j = Some r2 ->
  desc_by columns r1 r2 = true.
Proof.
  intros Hij Hi Hj.
  apply (sorted_lookup (fun a b => desc_by columns a b = true)
                       (order_by (desc_by columns) rows) i j r1 r2);
    try assumption.
  apply order_by_sorted; [apply desc_by_total | apply desc_by_trans].
Qed.

(** *** Reading a listing back *)

Section Decoding.
Context {J : Type}.
Variable loads : pystr -> option J.

Lemma list_to_map_keys {V} (g : string -> V) (l : list string) k :
  (list_to_map ((fun c => (c, g c)) <$> l) : gmap string V) !! k
  = if bool_decide (k ∈ l) then Some (g k) else None.
Proof.
  induction l as [|c l IH]; [reflexivity|].
  rewrite fmap_cons. change (list_to_map ((c, g c) :: ((fun c => (c, g c)) <$> l)) : gmap string V)
    with (<[c := g c]> (list_to_map ((fun c => (c, g c)) <$> l) : gmap string V)).
  destruct (decide (k = c)) as [->|Hne].
  - rewrite lookup_insert_eq. rewrite bool_decide_eq_true_2; [reflexivity | now left].
  - rewrite lookup_insert_ne by congruence. rewrite IH.
    destruct (decide (k ∈ l)) as [Hin|Hin].
    + rewrite (bool_decide_eq_true_2 _ Hin).
      rewrite bool_decide_eq_true_2; [reflexivity | now right].
    + rewrite (bool_decide_eq_false_2 _ Hin).
      rewrite bool_decide_eq_false_2; [reflexivity|].
      intros H. apply elem_of_cons in H as [H|H]; congruence.
Qed.

Lemma dict_of_row_lookup (r : row) k :
  dict_of_row (J := J) r !! k
  = if bool_decide (k ∈ properties_columns)
    then Some (Plain (to_python (col r k))) else None.
Proof.
  unfold dict_of_row.
  apply (list_to_map_keys (fun c => Plain (to_python (col r c)))).
Qed.

Lemma decode_json_ne key (data : gmap string (field (J := J))) k :
  k ≠ key -> decode_json loads key data !! k = data !! k.
Proof.
  intros Hne. unfold decode_json.
  destruct (data !! key) as [[[]|]|]; try reflexivity.
  destruct s; [reflexivity|]. destruct (loads _); [|reflexivity].
  now rewrite lookup_insert_ne by congruence.
Qed.

Lemma decode_json_eq key (data : gmap string (field (J := J))) :
  decode_json loads key data !! key
  = match data !! key with
    | Some (Plain (PStr (c :: s))) =>
        match loads (c :: s) with
        | Some j => Some (Decoded j)
        | None => Some (Plain (PStr (c :: s)))
        end
    | x => x
    end.
Proof.
  unfold decode_json.
  destruct (data !! key) as [[[]|]|] eqn:E; try exact E.
  destruct s; [exact E|]. destruct (loads _); [apply lookup_insert_eq | exact E].
Qed.

Lemma decoded_plain (r : row) k :
  k ≠ "image_urls" -> k ≠ "raw_data" ->
  decoded loads r !! k
  = if bool_decide (k ∈ properties_columns)
    then Some (Plain (to_python (col r k))) else None.
Proof.
  intros K1 K2. unfold decoded.
  rewrite !decode_json_ne by assumption. apply dict_of_row_lookup.
Qed.

Lemma decoded_json (r : row) k :
  k = "image_urls" \/ k = "raw_data" ->
  decoded loads r !! k
  = match col r k with
    | VText (c :: s) =>
        match loads (c :: s) with
        | Some j => Some (Decoded j)
        | None => Some (Plain (PStr (c :: s)))
        end
    | v => Some (Plain (to_python v))
    end.
Proof.
  intros [-> | ->]; unfold decoded.
  - rewrite decode_json_ne by done. rewrite decode_json_eq, dict_of_row_lookup.
    cbn [bool_decide]. 
    rewrite bool_decide_eq_true_2
      by (unfold properties_columns;
          repeat first [apply list_elem_of_here | apply list_elem_of_further]).
    destruct (col r "image_urls") as [| | |[|c s]]; reflexivity.
  - rewrite decode_json_eq, decode_json_ne by done. rewrite dict_of_row_lookup.
    rewrite bool_decide_eq_true_2
      by (unfold properties_columns;
          repeat first [apply list_elem_of_here | apply list_elem_of_further]).
    destruct (col r "raw_data") as [| | |[|c s]]; reflexivity.
Qed.

(** X10: [get_property] gives [None] exactly when no row has the id;
    otherwise it gives a dict with one key for every column of the
    table and no other: the two JSON columns hold what [json.loads]
    makes of their text, or the fetched value itself when the text is
    empty, not a text, or refused by [json.loads]; every other key
    holds the value of its column, so [property_id] is the id asked
    for. *)
Theorem get_property_fetches_the_row (self : PropertyDatabase) (s : pystr) :
  (get_property loads self (PStr s) = Ok None
   <-> forall r, r ∈ properties self -> col r "property_id" ≠ VText s)
  /\ (forall data,
        get_property loads self (PStr s) = Ok (Some data) ->
        exists r,
          r ∈ properties self /\ col r "property_id" = VText s
          /\ data !! "property_id" = Some (Plain (PStr s))
          /\ (forall k, data !! k = None <-> k ∉ properties_columns)
          /\ (forall k, k ∈ properties_columns ->
                        k ≠ "image_urls" -> k ≠ "raw_data" ->
                        data !! k = Some (Plain (to_python (col r k))))
          /\ (forall k, k = "image_urls" \/ k = "raw_data" ->
                        data !! k
                        = match col r k with
                          | VText (c :: t) =>
                              match loads (c :: t) with
                              | Some j => Some (Decoded j)
                              | None => Some (Plain (PStr (c :: t)))
                              end
                          | v => Some (Plain (to_python v))
                          end)).
Proof.
  unfold get_property. cbn [adapt rbind].
  destruct (List.find _ (properties self)) as [r|] eqn:Ef.
  - apply List.find_some in Ef as [Hr Hc].
    apply list_elem_of_In in Hr. apply sql_eq_text in Hc. split.
    + split; [discriminate|]. intros H. now apply H in Hc.
    + intros data [= <-]. exists r. split; [exact Hr|]. split; [exact Hc|].
      split; [|split; [|split]].
      * rewrite decoded_plain by done. now rewrite Hc.
      * intros k.
        assert ("image_urls" ∈ properties_columns /\ "raw_data" ∈ properties_columns)
          as [C1 C2]
            by (split; unfold properties_columns;
                repeat first [apply list_elem_of_here | apply list_elem_of_further]).
        destruct (decide (k = "image_urls")) as [->|K1].
        { rewrite decoded_json by auto. split; [|tauto].
          destruct (col r "image_urls") as [| | |[|c t]]; try discriminate.
          destruct (loads _); discriminate. }
        destruct (decide (k = "raw_data")) as [->|K2].
        { rewrite decoded_json by auto. split; [|tauto].
          destruct (col r "raw_data") as [| | |[|c t]]; try discriminate.
          destruct (loads _); discriminate. }
        rewrite decoded_plain by assumption.
        destruct (decide (k ∈ properties_columns)) as [Hin|Hin].
        { rewrite bool_decide_eq_true_2 by exact Hin. split; [discriminate | tauto]. }
        rewrite bool_decide_eq_false_2 by exact Hin. tauto.
      * intros k Hk K1 K2. rewrite decoded_plain by assumption.
        now rewrite bool_decide_eq_true_2.
      * intros k Hk. now apply decoded_json.
  - split; [|discriminate]. split; [|reflexivity]. intros _ r Hr Hc.
    apply list_elem_of_In in Hr. pose proof (List.find_none _ _ Ef r Hr) as Hn.
    cbv beta in Hn. apply sql_eq_text in Hc. congruence.
Qed.






Lemma decoded_fieldnames (r : row) :
  (fun k => decoded loads r !! k) <$> fieldnames
  = (fun k => Some (Plain (to_python (col r k)))) <$> fieldnames.
Proof.
  apply Forall_fmap_ext. unfold fieldnames.
  repeat (apply Forall_cons; split; [rewrite decoded_plain by done; reflexivity|]).
  apply Forall_nil_2.
Qed.

(** X12: [get_active_properties] returns the decoded rows that are
    active and, when a non-empty filter is given, whose grade is one
    of the filter: each such row once, a row with a greater score
    before one with a smaller score and, among equal scores, a later
    [scraped_at] first; NULL scores come last. An empty filter selects
    like no filter at all. *)
Theorem get_active_properties_selects_and_orders
        (self : PropertyDatabase) (rank_filter : option (list pystr)) :
  let rows := active_rows self rank_filter in
  get_active_properties loads self rank_filter = decoded loads <$> rows
  /\ Permutation rows
       (List.filter
          (fun r => is_active r
                    && match rank_filter with
                       | Some (g :: gs) => sql_in (col r "ranking_grade") (g :: gs)
                       | _ => true
                       end)
          (properties self))
  /\ (forall r,
        r ∈ rows ->
        r ∈ properties self /\ is_active r = true
        /\ forall g gs, rank_filter = Some (g :: gs) ->
                        exists x, col r "ranking_grade" = VText x /\ x ∈ g :: gs)
  /\ (forall i j r1 r2,
        (i < j)%nat -> rows !! i = Some r1 -> rows !! j = Some r2 ->
        sql_compare (col r1 "ranking_score") (col r2 "ranking_score") <> Lt
        /\ (sql_compare (col r1 "ranking_score") (col r2 "ranking_score") = Eq ->
            sql_compare (col r1 "scraped_at") (col r2 "scraped_at") <> Lt)
        /\ (col r1 "ranking_score" = VNull -> col r2 "ranking_score" = VNull))
  /\ active_rows self (Some []) = active_rows self None.
Proof.
  intros rows.
  assert (Permutation rows
            (List.filter
               (fun r => is_active r
                         && match rank_filter with
                            | Some (g :: gs) => sql_in (col r "ranking_grade") (g :: gs)
                            | _ => true
                            end)
               (properties self))) as Hperm.
  { subst rows. unfold active_rows. rewrite order_by_perm.
    destruct rank_filter as [[|g gs]|]; try reflexivity;
      rewrite (List.filter_ext (fun r => is_active r && true) is_active)
        by (intros r; apply andb_true_r);
      reflexivity. }
  split; [reflexivity|]. split; [exact Hperm|]. split; [|split; [|reflexivity]].
  - intros r Hr. apply list_elem_of_In in Hr.
    apply (Permutation_in _ Hperm) in Hr. apply List.filter_In in Hr as [Hin Hf].
    apply andb_true_iff in Hf as [Ha Hg].
    split; [now apply list_elem_of_In|]. split; [exact Ha|].
    intros g gs ->. unfold sql_in in Hg.
    destruct (col r "ranking_grade") as [| | |x]; try discriminate.
    exists x. split; [reflexivity|]. now apply bool_decide_eq_true in Hg.
  - intros i j r1 r2 Hij Hi Hj.
    pose proof (order_by_desc_lookup _ _ i j r1 r2 Hij Hi Hj) as H.
    cbn [desc_by] in H.
    destruct (sql_compare (col r1 "ranking_score") (col r2 "ranking_score")) eqn:E1;
      try discriminate.
    + split; [discriminate|]. split.
      * intros _. destruct (sql_compare (col r1 "scraped_at") (col r2 "scraped_at"));
          discriminate.
      * intros Hn. rewrite Hn in E1. destruct (col r2 "ranking_score"); now try discriminate.
    + split; [discriminate|]. split; [discriminate|].
      intros Hn. rewrite Hn in E1. destruct (col r2 "ranking_score"); discriminate.
Qed.

(** X13: [export_to_csv] writes nothing when no active listing
    passes the filter. Otherwise it hands the writer the sixteen field
    names and, for every listing that [get_active_properties] returns
    and in the same order, the values of these sixteen columns as they
    were fetched: no cell is left to the filler, and what
    [json.loads] makes of the two JSON columns is not exported. *)
Theorem export_to_csv_writes_the_columns
        (self : PropertyDatabase) (rank_filter : option (list pystr)) :
  (export_to_csv loads self rank_filter = None
   <-> get_active_properties loads self rank_filter = [])
  /\ (forall header lines,
        export_to_csv loads self rank_filter = Some (header, lines) ->
        header = fieldnames
        /\ lines = (fun r => (fun k => Some (Plain (to_python (col r k)))) <$> fieldnames)
                   <$> active_rows self rank_filter
        /\ length lines = length (get_active_properties loads self rank_filter)
        /\ Forall (fun line => length line = 16%nat) lines).
Proof.
  unfold export_to_csv, get_active_properties.
  destruct (active_rows self rank_filter) as [|r rows] eqn:E.
  - split; [split; reflexivity | discriminate].
  - rewrite fmap_cons. split; [split; discriminate|].
    intros header lines H. apply (inj Some) in H.
    apply pair_equal_spec in H as [Hh Hl]. subst header lines.
    split; [reflexivity|]. split; [|split].
    + rewrite <- !fmap_cons, <- list_fmap_compose.
      apply list_fmap_ext. intros i x _. cbn [compose]. apply decoded_fieldnames.
    + now rewrite !length_fmap.
    + rewrite <- !fmap_cons. apply Forall_fmap, Forall_forall. intros x _.
      cbn [compose]. now rewrite length_fmap.
Qed.

End Decoding.

Lemma get_property_witness :
  exists data,
    get_property (fun _ => @None unit) store_day1 (PStr (u "athome_123")) = Ok (Some data)
    /\ data !! "title" = Some (Plain (PStr (u "売土地")))
    /\ data !! "image_urls" = Some (Plain PNone).
Proof.
  destruct (get_property_fetches_the_row (fun _ => @None unit) store_day1 (u "athome_123"))
    as [Hnone Hsome].
  destruct (get_property (fun _ => None) store_day1 (PStr (u "athome_123")))
    as [[data|]|e] eqn:E.
  - exists data. split; [reflexivity|].
    destruct (Hsome data eq_refl) as (r & Hr & _ & _ & _ & Hplain & Hjson).
    apply list_elem_of_singleton in Hr. subst r. split.
    + rewrite (Hplain "title"); [reflexivity | | done | done].
      unfold properties_columns.
      repeat first [apply list_elem_of_here | apply list_elem_of_further].
    + rewrite (Hjson "image_urls") by auto. reflexivity.
  - exfalso. apply (proj1 Hnone eq_refl row_day1); [apply list_elem_of_here | reflexivity].
  - exfalso. unfold get_property in E. cbn [adapt rbind] in E.
    destruct (List.find _ _); discriminate.
Defined.


Lemma get_active_properties_witness :
  length (active_rows store_graded (Some [u "S"; u "A"])) = 2%nat
  /\ forall r1 r2,
      active_rows store_graded (Some [u "S"; u "A"]) !! 0%nat = Some r1 ->
      active_rows store_graded (Some [u "S"; u "A"]) !! 1%nat = Some r2 ->
      sql_compare (col r1 "ranking_score") (col r2 "ranking_score") <> Lt.
Proof.
  destruct (get_active_properties_selects_and_orders
              (fun _ => @None unit) store_graded (Some [u "S"; u "A"]))
    as (_ & _ & _ & Hord & _).
  split; [vm_compute; reflexivity|].
  intros r1 r2 H1 H2. now apply (Hord 0%nat 1%nat r1 r2 (le_n 1) H1 H2).
Defined.

Lemma export_to_csv_witness :
  export_to_csv (fun _ => @None unit) empty_store None = None
  /\ exists lines,
      export_to_csv (fun _ => @None unit) store_graded (Some [u "S"]) 
      = Some (fieldnames, lines)
      /\ length lines = 1%nat.
Proof.
  destruct (export_to_csv_writes_the_columns (fun _ => @None unit) empty_store None)
    as [Hnone _].
  destruct (export_to_csv_writes_the_columns
              (fun _ => @None unit) store_graded (Some [u "S"])) as [Hn Hsome].
  split; [apply Hnone; reflexivity|].
  destruct (export_to_csv (fun _ => None) store_graded (Some [u "S"]))
    as [[header lines]|] eqn:E.
  - destruct (Hsome header lines eq_refl) as (-> & -> & _ & _).
    eexists. split; [reflexivity|]. vm_compute. reflexivity.
  - exfalso. pose proof (proj1 Hn eq_refl) as E'.
    apply (f_equal length) in E'. unfold get_active_properties in E'.
    rewrite length_fmap in E'. vm_compute in E'. discriminate.
Defined.

(** *** The statistics *)

Lemma same_group_spec a b : same_group a b = true <-> sql_compare a b = Eq.
Proof. unfold same_group. destruct (sql_compare a b); split; congruence. Qed.

Lemma same_group_sym a b : same_group a b = same_group b a.
Proof.
  unfold same_group. rewrite (sql_compare_antisym a b).
  destruct (sql_compare a b); reflexivity.
Qed.

Lemma same_group_trans a b c :
  same_group a b = true -> same_group b c = true -> same_group a c = true.
Proof. rewrite !same_group_spec. apply sql_compare_eq_eq. Qed.

Lemma same_group_false a b c :
  same_group a b = true -> same_group a c = false -> same_group b c = false.
Proof.
  intros H1 H2. destruct (same_group b c) eqn:E; [|reflexivity].
  rewrite (same_group_trans a b c H1 E) in H2. discriminate.
Qed.

Lemma count_in_group_total key groups :
  total_count (count_in_group key groups) = total_count groups + 1.
Proof.
  induction groups as [|[k n] groups IH]; simpl; [reflexivity|].
  destruct (same_group k key); simpl; lia.
Qed.

Lemma count_in_group_count key' key groups :
  count_of key (count_in_group key' groups)
  = count_of key groups + if same_group key' key then 1 else 0.
Proof.
  unfold count_of. induction groups as [|[k n] groups IH]; simpl.
  - destruct (same_group key' key); reflexivity.
  - destruct (same_group k key') eqn:E1; simpl.
    + destruct (same_group k key) eqn:E2; simpl.
      * rewrite same_group_sym in E1. now rewrite (same_group_trans key' k key E1 E2).
      * now rewrite (same_group_false k key' key E1 E2), Z.add_0_r.
    + destruct (same_group k key) eqn:E2; simpl; [|exact IH].
      assert (same_group key' key = false) as ->; [|lia].
      destruct (same_group key' key) eqn:E3; [|reflexivity].
      rewrite same_group_sym in E3.
      rewrite (same_group_trans k key key' E2 E3) in E1. discriminate.
Qed.

Lemma forallb_count_in_group (P : sqlval -> bool) key groups :
  P key = true ->
  List.forallb (fun kn => P kn.1) groups = true ->
  List.forallb (fun kn : sqlval * Z => P kn.1) (count_in_group key groups) = true.
Proof.
  intros Hkey. induction groups as [|[k n] groups IH]; simpl.
  - intros _. now rewrite Hkey.
  - intros H. apply andb_true_iff in H as [H1 H2].
    destruct (same_group k key); simpl; rewrite H1; [exact H2 | now apply IH].
Qed.

Lemma count_in_group_apart key groups :
  apart groups = true -> apart (count_in_group key groups) = true.
Proof.
  induction groups as [|[k n] groups IH]; simpl; [reflexivity|].
  intros H. apply andb_true_iff in H as [H1 H2].
  destruct (same_group k key) eqn:E; simpl.
  - now rewrite H1, H2.
  - rewrite (IH H2), andb_true_r.
    apply (forallb_count_in_group (fun x => negb (same_group k x))); [|exact H1].
    now rewrite E.
Qed.

Lemma group_fold c rows acc :
  let groups := List.fold_left (fun g r => count_in_group (col r c) g) rows acc in
  total_count groups = total_count acc + Z.of_nat (length rows)
  /\ (apart acc = true -> apart groups = true)
  /\ forall key,
      count_of key groups
      = count_of key acc
        + Z.of_nat (length (List.filter (fun r => same_group (col r c) key) rows)).
Proof.
  revert acc. induction rows as [|r rows IH]; intros acc; cbn [List.fold_left].
  - cbn [List.filter length]. repeat split; try lia. auto.
  - destruct (IH (count_in_group (col r c) acc)) as (H1 & H2 & H3). cbv zeta in *.
    split; [|split].
    + rewrite H1, count_in_group_total. cbn [length]. lia.
    + intros Ha. apply H2. now apply count_in_group_apart.
    + intros key. rewrite H3, count_in_group_count. cbn [List.filter].
      destruct (same_group (col r c) key); cbn [length]; lia.
Qed.

Lemma total_count_fmap {A B} (f : A -> B) (groups : list (A * Z)) :
  total_count ((fun kn => (f kn.1, kn.2)) <$> groups) = total_count groups.
Proof.
  induction groups as [|[k n] groups IH]; [reflexivity|].
  unfold total_count in *. rewrite fmap_cons. simpl. simpl in IH. now rewrite IH.
Qed.

Lemma order_by_head columns rows r rest :
  order_by (desc_by columns) rows = r :: rest ->
  r ∈ rows /\ forall r', r' ∈ rows -> desc_by columns r r' = true.
Proof.
  intros E.
  pose proof (order_by_perm (desc_by columns) rows) as Hperm. rewrite E in Hperm.
  pose proof (order_by_sorted (desc_by columns) rows
                (desc_by_total columns) (desc_by_trans columns)) as Hs.
  rewrite E in Hs. apply StronglySorted_inv in Hs as [_ Hall].
  rewrite List.Forall_forall in Hall. split.
  - apply list_elem_of_In. apply (Permutation_in _ Hperm). now left.
  - intros r' Hr'. apply list_elem_of_In in Hr'.
    apply (Permutation_in _ (Permutation_sym Hperm)) in Hr'.
    destruct Hr' as [<-|Hr']; [|now apply Hall].
    clear. induction columns as [|c columns IH]; [reflexivity|].
    cbn [desc_by]. now rewrite sql_compare_refl.
Qed.

(** X14: in the statistics the number of active listings is the
    number of rows whose [is_active] is 1, and it is the sum of the
    counts by grade; every grade (the missing grade, NULL, is one of
    them) has one count, the number of active rows of that grade. The
    last run is missing exactly when the run log is empty and is
    otherwise taken from an entry whose [execution_time] no other
    entry exceeds. The high-rank list has at most ten entries; they
    are the first ten of the active rows graded S or A, a greater
    score before a smaller one. *)
Theorem get_statistics_counts_and_top (self : PropertyDatabase) :
  let st := get_statistics self in
  let active := List.filter is_active (properties self) in
  total_active_properties st = Z.of_nat (length active)
  /\ total_count (properties_by_rank st) = total_active_properties st
  /\ (exists groups,
        properties_by_rank st = (fun kn => (to_python kn.1, kn.2)) <$> groups
        /\ apart groups = true
        /\ forall key,
            count_of key groups
            = Z.of_nat (length (List.filter
                                  (fun r => same_group (col r "ranking_grade") key)
                                  active)))
  /\ (last_scraping st = None <-> scraping_logs self = [])
  /\ (forall d,
        last_scraping st = Some d ->
        exists r,
          r ∈ scraping_logs self
          /\ d !! "time" = Some (to_python (col r "execution_time"))
          /\ d !! "new_properties" = Some (to_python (col r "new_properties"))
          /\ d !! "total_properties" = Some (to_python (col r "total_properties"))
          /\ forall r', r' ∈ scraping_logs self ->
                        sql_compare (col r "execution_time") (col r' "execution_time")
                        <> Lt)
  /\ (length (high_rank_properties st) <= 10)%nat
  /\ exists top,
      Permutation top
        (List.filter (fun r => is_active r
                               && sql_in (col r "ranking_grade") [u "S"; u "A"])
                     (properties self))
      /\ (forall i j r1 r2,
            (i < j)%nat -> top !! i = Some r1 -> top !! j = Some r2 ->
            sql_compare (col r1 "ranking_score") (col r2 "ranking_score") <> Lt)
      /\ length (high_rank_properties st) = length (take 10 top)
      /\ forall i d,
          high_rank_properties st !! i = Some d ->
          exists r,
            take 10 top !! i = Some r
            /\ d !! "property_id" = Some (to_python (col r "property_id"))
            /\ d !! "title" = Some (to_python (col r "title"))
            /\ d !! "price" = Some (to_python (col r "price"))
            /\ d !! "address" = Some (to_python (col r "address"))
            /\ d !! "ranking_grade" = Some (to_python (col r "ranking_grade"))
            /\ d !! "ranking_score" = Some (to_python (col r "ranking_score")).
Proof.
  intros st active.
  destruct (group_fold "ranking_grade" active []) as (G1 & G2 & G3). cbv zeta in *.
  split; [reflexivity|]. split; [|split; [|split; [|split; [|split]]]].
  - subst st. cbn [get_statistics properties_by_rank total_active_properties].
    rewrite total_count_fmap. unfold group_count. fold active. rewrite G1. reflexivity.
  - exists (group_count "ranking_grade" active). split; [reflexivity|].
    split; [now apply G2|]. intros key. unfold group_count. rewrite G3. reflexivity.
  - subst st. cbn [get_statistics last_scraping].
    destruct (order_by _ (scraping_logs self)) as [|r rest] eqn:E.
    + split; [|reflexivity]. intros _.
      pose proof (order_by_perm (desc_by ["execution_time"%string]) (scraping_logs self))
        as Hperm.
      rewrite E in Hperm. now apply Permutation_nil in Hperm.
    + split; [discriminate|]. intros H. rewrite H in E. discriminate.
  - intros d. subst st. cbn [get_statistics last_scraping].
    destruct (order_by _ (scraping_logs self)) as [|r rest] eqn:E; [discriminate|].
    intros H. apply (inj Some) in H. subst d.
    destruct (order_by_head _ _ _ _ E) as [Hr Hmax].
    exists r. split; [exact Hr|]. split; [reflexivity|]. split; [reflexivity|].
    split; [reflexivity|]. intros r' Hr'. specialize (Hmax r' Hr').
    cbn [desc_by] in Hmax. destruct (sql_compare _ _); discriminate.
  - subst st. cbn [get_statistics high_rank_properties].
    rewrite length_fmap, length_take. lia.
  - eexists. split; [apply order_by_perm|]. split; [|split].
    + intros i j r1 r2 Hij Hi Hj.
      pose proof (order_by_desc_lookup ["ranking_score"%string] _ i j r1 r2 Hij Hi Hj)
        as H.
      cbn [desc_by] in H. destruct (sql_compare _ _); discriminate.
    + subst st. cbn [get_statistics high_rank_properties]. now rewrite length_fmap.
    + intros i d. subst st. cbn [get_statistics high_rank_properties].
      rewrite list_lookup_fmap.
      destruct (take 10 _ !! i) as [r|]; [|discriminate].
      intros H. apply (inj Some) in H. subst d. exists r.
      repeat split; reflexivity.
Qed.

Lemma get_statistics_witness :
  total_active_properties (get_statistics store_graded) = 3
  /\ total_count (properties_by_rank (get_statistics store_graded)) = 3
  /\ last_scraping (get_statistics store_graded) = None.
Proof.
  pose proof (get_statistics_counts_and_top store_graded) as H. cbv zeta in H.
  destruct H as (H1 & H2 & _ & H3 & _).
  split; [exact H1|]. split; [rewrite H2; exact H1|]. apply H3. reflexivity.
Defined.

(** *** The run log *)



End DatabaseLaws.

Module ScraperLaws.
Import Re Scraper ScraperSpec ScraperFacts ScraperNotions.

Ltac in_list := repeat first [apply list_elem_of_here | apply list_elem_of_further].
Ltac not_in_list :=
  let H := fresh "H" in
  intros H; repeat (apply elem_of_cons in H as [H|H]; [discriminate|]);
  apply elem_of_nil in H; exact H.

(** *** The listing pages *)

Lemma collect_links_acc w cfg hrefs acc :
  collect_links w cfg hrefs acc
  = (acc ++ (collect_links w cfg hrefs []).1, (collect_links w cfg hrefs []).2).
Proof.
  revert acc. induction hrefs as [|href hrefs IH]; intros acc; cbn [collect_links].
  - cbn [fst snd]. now rewrite app_nil_r.
  - destruct href as [[|c h]|]; try apply IH.
    destruct (urljoin w (base_url cfg) (c :: h)) as [full_url|e].
    + destruct (_ || _); [|apply IH].
      rewrite IH. rewrite (IH ([] ++ [full_url])). cbn [fst snd app].
      now rewrite <- app_assoc.
    + cbn [fst snd]. now rewrite app_nil_r.
Qed.

Lemma collect_links_ext w w' cfg hrefs acc :
  urljoin w' = urljoin w -> collect_links w' cfg hrefs acc = collect_links w cfg hrefs acc.
Proof.
  intros Hjoin. revert acc.
  induction hrefs as [|href hrefs IH]; intros acc; cbn [collect_links]; [reflexivity|].
  destruct href as [[|c h]|]; try apply IH.
  rewrite Hjoin. destruct (urljoin w (base_url cfg) (c :: h)); [apply IH | reflexivity].
Qed.

Lemma collect_links_elem w cfg hrefs acc url :
  url ∈ (collect_links w cfg hrefs acc).1 ->
  url ∈ acc
  \/ ((Str.contains (u "/detail/") url || Str.contains (u "/bukken/") url = true)
      /\ exists href, Some href ∈ hrefs /\ href <> []
                      /\ urljoin w (base_url cfg) href = Ok url).
Proof.
  revert acc. induction hrefs as [|href hrefs IH]; intros acc; cbn [collect_links].
  - auto.
  - assert (forall acc', url ∈ (collect_links w cfg hrefs acc').1 ->
                         url ∈ acc'
                         \/ ((Str.contains (u "/detail/") url
                              || Str.contains (u "/bukken/") url = true)
                             /\ exists href0, Some href0 ∈ href :: hrefs /\ href0 <> []
                                              /\ urljoin w (base_url cfg) href0 = Ok url))
      as IH'.
    { intros acc' H. apply IH in H as [H|(Hc & href0 & Hin & Hne & Hj)]; [auto|].
      right. split; [exact Hc|]. exists href0. split; [now apply list_elem_of_further|].
      auto. }
    destruct href as [[|c h]|]; try apply IH'.
    destruct (urljoin w (base_url cfg) (c :: h)) as [full_url|e] eqn:Ej; [|auto].
    intros H. apply IH' in H as [H|H]; [|auto].
    destruct (Str.contains (u "/detail/") full_url
              || Str.contains (u "/bukken/") full_url) eqn:Ec; [|auto].
    apply elem_of_app in H as [H|H]; [auto|].
    apply list_elem_of_singleton in H. subst url. right. split; [exact Ec|].
    exists (c :: h). split; [apply list_elem_of_here|]. split; [discriminate | exact Ej].
Qed.

Lemma collect_links_joins w cfg hrefs acc :
  (collect_links w cfg hrefs acc).2 = false
  <-> forall href, Some href ∈ hrefs -> href <> [] ->
                   exists url, urljoin w (base_url cfg) href = Ok url.
Proof.
  revert acc. induction hrefs as [|href hrefs IH]; intros acc; cbn [collect_links].
  - split; [|reflexivity]. intros _ href H. apply elem_of_nil in H. contradiction.
  - assert (forall acc',
               (forall href0, Some href0 ∈ href :: hrefs -> href0 <> [] ->
                              exists url, urljoin w (base_url cfg) href0 = Ok url)
               -> (collect_links w cfg hrefs acc').2 = false) as Hback.
    { intros acc' H. apply IH. intros href0 Hin. apply H. now apply list_elem_of_further. }
    destruct href as [[|c h]|].
    + split; [|apply Hback]. intros H href0 Hin Hne.
      apply elem_of_cons in Hin as [Heq|Hin]; [congruence|].
      now apply (proj1 (IH acc) H).
    + destruct (urljoin w (base_url cfg) (c :: h)) as [full_url|e] eqn:Ej.
      * split; [|apply Hback]. intros H href0 Hin Hne.
        apply elem_of_cons in Hin as [Heq|Hin]; [injection Heq as ->; eauto|].
        now apply (proj1 (IH _) H).
      * cbn [snd]. split; [discriminate|]. intros H.
        destruct (H (c :: h)) as [url Hu]; [apply list_elem_of_here | discriminate|].
        congruence.
    + split; [|apply Hback]. intros H href0 Hin Hne.
      apply elem_of_cons in Hin as [Heq|Hin]; [discriminate|].
      now apply (proj1 (IH acc) H).
Qed.

Lemma listing_loop_elem w cfg pages page acc url :
  url ∈ listing_loop w cfg pages page acc ->
  url ∈ acc \/ exists lp, Ok lp ∈ pages /\ url ∈ page_links w cfg (Ok lp).
Proof.
  revert page acc. induction pages as [|p pages IH]; intros page acc; cbn [listing_loop].
  - auto.
  - destruct p as [lp|e]; [|auto].
    destruct (link_hrefs lp) as [|h hs] eqn:El; [auto|].
    assert (forall x, x ∈ (collect_links w cfg (h :: hs) acc).1 ->
                      x ∈ acc \/ exists lp', Ok lp' ∈ Ok lp :: pages
                                             /\ x ∈ page_links w cfg (Ok lp')) as Hhere.
    { intros x H. rewrite collect_links_acc in H. cbn [fst] in H.
      apply elem_of_app in H as [H|H]; [auto|].
      right. exists lp. split; [apply list_elem_of_here|].
      cbn [page_links]. now rewrite El. }
    destruct (collect_links w cfg (h :: hs) acc) as [property_urls raised] eqn:Ec.
    cbn [fst] in Hhere.
    destruct raised; [apply Hhere|].
    destruct (negb (has_next lp) || page_cap_reached cfg page); [apply Hhere|].
    intros H. apply IH in H as [H|(lp' & Hin & H)]; [now apply Hhere|].
    right. exists lp'. split; [now apply list_elem_of_further | exact H].
Qed.

Lemma listing_loop_cap w w' cfg m k pages pages' page acc :
  max_pages cfg = Some (S m) -> urljoin w' = urljoin w ->
  (page + k = S (S m))%nat -> (1 <= k)%nat -> take k pages' = take k pages ->
  listing_loop w' cfg pages' page acc = listing_loop w cfg pages page acc.
Proof.
  intros Hcap Hjoin. revert pages' page acc k.
  induction pages as [|p pages IH]; intros pages' page acc k Hk Hk1 Ht.
  - destruct k as [|k]; [lia|]. destruct pages' as [|p' pages']; [reflexivity|].
    discriminate.
  - destruct k as [|k]; [lia|]. destruct pages' as [|p' pages']; [discriminate|].
    cbn [take] in Ht. injection Ht as -> Ht. cbn [listing_loop].
    destruct p as [lp|e]; [|reflexivity].
    destruct (link_hrefs lp) as [|h hs] eqn:El; [reflexivity|].
    rewrite (collect_links_ext w w' cfg _ _ Hjoin).
    destruct (collect_links w cfg (h :: hs) acc) as [property_urls raised].
    destruct raised; [reflexivity|].
    destruct (negb (has_next lp)) eqn:En; cbn [orb]; [reflexivity|].
    unfold page_cap_reached. rewrite Hcap.
    destruct (S m <=? page)%nat eqn:Ec; [reflexivity|].
    apply Nat.leb_gt in Ec. apply (IH pages' (S page) _ k); [lia | lia | exact Ht].
Qed.

Lemma listing_loop_refused w cfg lp rest page acc :
  link_hrefs lp <> [] -> ~ joins w cfg (Ok lp) ->
  listing_loop w cfg (Ok lp :: rest) page acc = acc ++ page_links w cfg (Ok lp).
Proof.
  intros Hl Hj. cbn [listing_loop page_links]. unfold joins in Hj.
  destruct (link_hrefs lp) as [|h hs] eqn:El; [contradiction|].
  rewrite collect_links_acc.
  destruct (collect_links w cfg (h :: hs) []) as [links raised]. cbn [fst snd] in *.
  destruct raised; [reflexivity | contradiction].
Qed.

Lemma listing_loop_uncapped w cfg pages rest page acc :
  max_pages cfg = Some 0%nat \/ max_pages cfg = None ->
  Forall goes_on pages -> Forall (joins w cfg) pages ->
  listing_loop w cfg (pages ++ rest) page acc
  = listing_loop w cfg rest (page + length pages)
                 (acc ++ List.concat (page_links w cfg <$> pages)).
Proof.
  intros Hcap H. revert page acc.
  induction H as [|p pages (lp & -> & Hl & Hn) HF IH]; intros page acc Hj.
  - cbn. now rewrite app_nil_r, Nat.add_0_r.
  - apply Forall_cons in Hj as [Hj1 Hj]. cbn [app listing_loop].
    unfold joins in Hj1.
    destruct (link_hrefs lp) as [|h hs] eqn:El; [contradiction|].
    rewrite collect_links_acc.
    destruct (collect_links w cfg (h :: hs) []) as [links raised] eqn:Ec.
    cbn [fst snd] in *. subst raised.
    rewrite Hn. cbn [negb orb].
    assert (page_cap_reached cfg page = false) as ->.
    { unfold page_cap_reached. destruct Hcap as [-> | ->]; reflexivity. }
    rewrite IH by exact Hj. rewrite fmap_cons. cbn [List.concat page_links length].
    rewrite El, Ec. cbn [fst]. rewrite app_assoc. f_equal. lia.
Qed.

(** X16: the URLs that [_get_property_urls] returns are pairwise
    different; each of them contains "/detail/" or "/bukken/" and is
    what [urljoin] makes of the base URL and a non-empty [href] of a
    listing page that was fetched. With a page cap of n >= 1 nothing
    beyond the first n listing pages is looked at. A cap of 0, like no
    cap, is no limit: as long as the pages have links and a next page
    and [urljoin] accepts their links, all of them are read. An [href]
    that [urljoin] refuses ends the enumeration: the links before it
    are kept, and neither the rest of its page nor a later page is
    read. *)
Theorem get_property_urls_distinct_and_capped (w : world) (cfg : settings) :
  NoDup (_get_property_urls w cfg)
  /\ (forall url,
        url ∈ _get_property_urls w cfg ->
        (Str.contains (u "/detail/") url || Str.contains (u "/bukken/") url = true)
        /\ exists lp href,
            Ok lp ∈ listing_pages w /\ Some href ∈ link_hrefs lp /\ href <> []
            /\ urljoin w (base_url cfg) href = Ok url)
  /\ (forall m w',
        max_pages cfg = Some (S m) -> urljoin w' = urljoin w ->
        take (S m) (listing_pages w') = take (S m) (listing_pages w) ->
        _get_property_urls w' cfg = _get_property_urls w cfg)
  /\ (forall lp,
        joins w cfg (Ok lp)
        <-> forall href, Some href ∈ link_hrefs lp -> href <> [] ->
                         exists url, urljoin w (base_url cfg) href = Ok url)
  /\ (max_pages cfg = Some 0%nat \/ max_pages cfg = None ->
      Forall goes_on (listing_pages w) -> Forall (joins w cfg) (listing_pages w) ->
      forall url,
        url ∈ _get_property_urls w cfg
        <-> url ∈ List.concat (page_links w cfg <$> listing_pages w))
  /\ (max_pages cfg = Some 0%nat \/ max_pages cfg = None ->
      forall before lp after,
        listing_pages w = before ++ Ok lp :: after ->
        Forall goes_on before -> Forall (joins w cfg) before ->
        link_hrefs lp <> [] -> ~ joins w cfg (Ok lp) ->
        forall url,
          url ∈ _get_property_urls w cfg
          <-> url ∈ List.concat (page_links w cfg <$> before ++ [Ok lp])).
Proof.
  unfold _get_property_urls. split; [apply NoDup_remove_dups|].
  split; [|split; [|split; [|split]]].
  - intros url Hurl. apply (proj1 (elem_of_remove_dups _ _)) in Hurl.
    apply listing_loop_elem in Hurl as [Hurl|(lp & Hlp & Hurl)].
    { apply elem_of_nil in Hurl. contradiction. }
    cbn [page_links] in Hurl.
    apply collect_links_elem in Hurl as [Hurl|(Hc & href & Hin & Hne & Hj)].
    { apply elem_of_nil in Hurl. contradiction. }
    split; [exact Hc|]. now exists lp, href.
  - intros m w' Hcap Hjoin Ht. f_equal.
    apply (listing_loop_cap w w' cfg m (S m)); try assumption; lia.
  - intros lp. apply collect_links_joins.
  - intros Hcap Hall Hjoins url. rewrite elem_of_remove_dups.
    rewrite <- (app_nil_r (listing_pages w)) at 1.
    rewrite (listing_loop_uncapped w cfg _ [] 1%nat [] Hcap Hall Hjoins).
    reflexivity.
  - intros Hcap before lp after Hpages Hall Hjoins Hl Hj url.
    rewrite elem_of_remove_dups, Hpages.
    rewrite (listing_loop_uncapped w cfg _ _ 1%nat [] Hcap Hall Hjoins).
    rewrite (listing_loop_refused w cfg lp after _ _ Hl Hj).
    rewrite fmap_app, concat_app. cbn [fmap list_fmap List.concat app].
    now rewrite app_nil_r.
Qed.

Lemma get_property_urls_witness :
  _get_property_urls (site site_pages) (capped 2)
  = _get_property_urls (site (take 2 site_pages)) (capped 2)
  /\ (u "https://www.athome.co.jp/detail/3/" ∈ _get_property_urls (site site_pages) (capped 0))
  /\ (u "https://www.athome.co.jp/detail/1/"
        ∈ _get_property_urls (picky_site broken_pages) (capped 0))
  /\ (u "https://www.athome.co.jp/detail/2/"
        ∉ _get_property_urls (picky_site broken_pages) (capped 0)).
Proof.
  destruct (get_property_urls_distinct_and_capped (site (take 2 site_pages)) (capped 2))
    as (_ & _ & Hcap & _).
  destruct (get_property_urls_distinct_and_capped (site site_pages) (capped 0))
    as (_ & _ & _ & _ & Hall & _).
  destruct (get_property_urls_distinct_and_capped (picky_site broken_pages) (capped 0))
    as (_ & _ & _ & _ & _ & Hstop).
  assert (forall url,
             url ∈ _get_property_urls (picky_site broken_pages) (capped 0)
             <-> url ∈ [u "https://www.athome.co.jp/detail/1/"]) as Hbroken.
  { apply (Hstop (or_introl eq_refl) []
                 (Listing [Some (u "/detail/1/"); Some (u "//[/detail/9/");
                           Some (u "/detail/2/")] true)
                 [Ok (Listing [Some (u "/detail/3/")] true)]).
    - reflexivity.
    - constructor.
    - constructor.
    - discriminate.
    - vm_compute. discriminate. }
  split; [|split; [|split]].
  - apply (Hcap 1%nat (site site_pages)); reflexivity.
  - apply Hall.
    + now left.
    + repeat constructor; eexists; (split; [reflexivity|]); split;
        try discriminate; reflexivity.
    + repeat constructor.
    + vm_compute. in_list.
  - apply Hbroken. in_list.
  - intros H. apply Hbroken in H. apply list_elem_of_singleton in H.
    vm_compute in H. discriminate.
Defined.

(** *** The shape of a scraped record *)

Local Open Scope result_scope.

Lemma scraped_empty : scraped ∅.
Proof. intros k v H. rewrite lookup_empty in H. discriminate. Qed.

Lemma scraped_insert (d : pydict) k v :
  scraped_value k v -> scraped d -> scraped (<[k := v]> d).
Proof.
  intros Hv Hd k' v' H. apply lookup_insert_Some in H as [[<- <-]|[_ H]]; auto.
Qed.

Ltac shape :=
  split; [unfold Database.properties_columns; in_list
         | split; [not_in_list | first [exact I | now left | now right | reflexivity]]].

Lemma parse_price_scraped data elem data' :
  scraped data -> parse_price data elem = Ok data' -> scraped data'.
Proof.
  intros Hd. unfold parse_price. destruct elem as [t|]; [|now intros [= <-]].
  destruct (search price_re t) as [m|].
  - destruct (group1_without_commas m) as [g|]; cbn [rbind]; [|discriminate].
    destruct (Parse.int g) as [n|]; cbn [rbind]; [|discriminate].
    intros [= <-]. repeat (apply scraped_insert; [shape|]). exact Hd.
  - intros [= <-]. apply scraped_insert; [shape | exact Hd].
Qed.

Lemma parse_area_scraped data elem data' :
  scraped data -> parse_area data elem = Ok data' -> scraped data'.
Proof.
  intros Hd. unfold parse_area. destruct elem as [t|]; [|now intros [= <-]].
  assert (scraped (<["land_area" := PStr t]> data)) as Hd1
      by (apply scraped_insert; [shape | exact Hd]).
  destruct (search m2_re t) as [m|].
  - destruct (group1_without_commas m) as [g|]; cbn [rbind]; [|discriminate].
    destruct (Parse.float g) as [x|]; cbn [rbind]; [|discriminate].
    destruct (search tsubo_re t) as [m'|].
    + destruct (group1_without_commas m') as [g'|]; cbn [rbind]; [|discriminate].
      destruct (Parse.float g') as [x'|]; cbn [rbind]; [|discriminate].
      intros [= <-]. repeat (apply scraped_insert; [shape|]). assumption.
    + intros [= <-]. repeat (apply scraped_insert; [shape|]). assumption.
  - cbn [rbind]. destruct (search tsubo_re t) as [m'|].
    + destruct (group1_without_commas m') as [g'|]; cbn [rbind]; [|discriminate].
      destruct (Parse.float g') as [x'|]; cbn [rbind]; [|discriminate].
      intros [= <-]. repeat (apply scraped_insert; [shape|]). assumption.
    + intros [= <-]. exact Hd1.
Qed.

Lemma parse_station_scraped data elem data' :
  scraped data -> parse_station data elem = Ok data' -> scraped data'.
Proof.
  intros Hd. unfold parse_station. destruct elem as [t|]; [|now intros [= <-]].
  destruct (search walk_re t) as [m|].
  - destruct (group1_int m) as [n|]; cbn [rbind]; [|discriminate].
    intros [= <-]. repeat (apply scraped_insert; [shape|]). exact Hd.
  - intros [= <-]. apply scraped_insert; [shape | exact Hd].
Qed.

Lemma parse_percent_scraped key data elem data' :
  key = "building_coverage"%string \/ key = "floor_area_ratio"%string ->
  scraped data -> parse_percent key data elem = Ok data' -> scraped data'.
Proof.
  intros Hk Hd. unfold parse_percent. destruct elem as [t|]; [|now intros [= <-]].
  destruct (search percent_re t) as [m|]; [|now intros [= <-]].
  destruct (group1_float m) as [x|]; cbn [rbind]; [|discriminate].
  intros [= <-]. destruct Hk as [-> | ->]; (apply scraped_insert; [shape | exact Hd]).
Qed.

Lemma extract_fields_scraped base urljoin strict url now soup d :
  extract_fields base urljoin strict url now soup = Ok d -> scraped d.
Proof.
  unfold extract_fields. cbv zeta.
  destruct (_extract_property_id strict url) as [pid|]; cbn [rbind]; [|discriminate].
  match goal with
  | |- rbind (parse_price ?d0 _) _ = _ -> _ =>
      assert (scraped d0) as H0
          by (repeat (apply scraped_insert; [shape|]); apply scraped_empty);
      destruct (parse_price d0 (price_elem soup)) as [d1|] eqn:E1; cbn [rbind];
      [apply (parse_price_scraped _ _ _ H0) in E1 | discriminate]
  end.
  match goal with
  | |- rbind (parse_area ?d0 _) _ = _ -> _ =>
      assert (scraped d0) as H1 by (apply scraped_insert; [shape | exact E1]);
      destruct (parse_area d0 (area_elem soup)) as [d2|] eqn:E2; cbn [rbind];
      [apply (parse_area_scraped _ _ _ H1) in E2 | discriminate]
  end.
  destruct (parse_station d2 (station_elem soup)) as [d3|] eqn:E3; cbn [rbind];
    [apply (parse_station_scraped _ _ _ E2) in E3 | discriminate].
  destruct (parse_percent "building_coverage" d3 (coverage_elem soup)) as [d4|] eqn:E4;
    cbn [rbind];
    [apply (parse_percent_scraped _ _ _ _ (or_introl eq_refl) E3) in E4 | discriminate].
  destruct (parse_percent "floor_area_ratio" d4 (ratio_elem soup)) as [d5|] eqn:E5;
    cbn [rbind];
    [apply (parse_percent_scraped _ _ _ _ (or_intror eq_refl) E4) in E5 | discriminate].
  destruct (join_images base urljoin (image_elems soup)) as [image_urls|];
    cbn [rbind]; [|discriminate].
  intros [= <-].
  apply scraped_insert; [shape|].
  apply scraped_insert.
  { split; [unfold Database.properties_columns; in_list|]. split; [not_in_list|].
    split; [reflexivity|]. rewrite length_take. lia. }
  apply scraped_insert; [shape | exact E5].
Qed.

Lemma extract_fields_images base urljoin strict url now soup d :
  extract_fields base urljoin strict url now soup = Ok d ->
  exists l, d !! "image_urls" = Some (PList l) /\ (length l <= 5)%nat.
Proof.
  unfold extract_fields. cbv zeta.
  destruct (_extract_property_id strict url) as [pid|]; cbn [rbind]; [|discriminate].
  destruct (parse_price _ (price_elem soup)) as [d1|]; cbn [rbind]; [|discriminate].
  destruct (parse_area _ (area_elem soup)) as [d2|]; cbn [rbind]; [|discriminate].
  destruct (parse_station _ (station_elem soup)) as [d3|]; cbn [rbind]; [|discriminate].
  destruct (parse_percent _ _ (coverage_elem soup)) as [d4|]; cbn [rbind]; [|discriminate].
  destruct (parse_percent _ _ (ratio_elem soup)) as [d5|]; cbn [rbind]; [|discriminate].
  destruct (join_images base urljoin (image_elems soup)) as [image_urls|];
    cbn [rbind]; [|discriminate].
  intros [= <-]. rewrite lookup_insert_ne by done. rewrite lookup_insert_eq.
  eexists. split; [reflexivity|]. rewrite length_take. lia.
Qed.

Lemma calculate_rank_scraped self d : scraped (Ranking.calculate_rank self d).
Proof.
  unfold Ranking.calculate_rank. cbv zeta.
  repeat (apply scraped_insert; [shape|]). apply scraped_empty.
Qed.

Lemma scraped_union (d1 d2 : pydict) : scraped d1 -> scraped d2 -> scraped (d1 ∪ d2).
Proof.
  intros H1 H2 k v H. apply lookup_union_Some_raw in H as [H|[_ H]]; eauto.
Qed.

Lemma scraped_no_key (d : pydict) k :
  scraped d -> k ∈ ["id"; "is_active"; "updated_at"]%string -> d !! k = None.
Proof.
  intros Hd Hk. destruct (d !! k) as [v|] eqn:E; [|reflexivity].
  destruct (Hd k v E) as (_ & Hn & _). contradiction.
Qed.

Lemma jsonify_lookup_inv (d : pydict) k v :
  Database.jsonify d !! k = Some v ->
  exists v0, d !! k = Some v0 /\ (v = v0 \/ exists x, v = PStr x).
Proof.
  intros H. destruct (decide (k = "image_urls")) as [->|K1].
  - rewrite DatabaseFacts.jsonify_lookup_ne_raw in H.
    destruct (d !! "image_urls") as [v0|] eqn:E; [|rewrite E in H; discriminate].
    exists v0. split; [reflexivity|].
    destruct v0; try (rewrite E in H; injection H as <-; now left).
    rewrite lookup_insert_eq in H. injection H as <-. eauto.
  - destruct (decide (k = "raw_data")) as [->|K2].
    + unfold Database.jsonify in H.
      match type of H with
      | match ?m !! "raw_data" with _ => _ end !! _ = _ =>
          assert (m !! "raw_data" = d !! "raw_data") as Hm
              by (destruct (d !! "image_urls") as [[]|];
                  rewrite ?lookup_insert_ne by done; reflexivity);
          rewrite Hm in H;
          destruct (d !! "raw_data") as [v0|] eqn:E;
          [|rewrite Hm in H; discriminate]
      end.
      exists v0. split; [reflexivity|].
      destruct v0; try (rewrite Hm in H; injection H as <-; now left).
      rewrite lookup_insert_eq in H. injection H as <-. eauto.
    + rewrite DatabaseFacts.jsonify_lookup_ne in H by assumption. eauto.
Qed.

Lemma scraped_jsonify (d : pydict) k v :
  scraped d -> Database.jsonify d !! k = Some v ->
  k ∈ Database.properties_columns
  /\ (k ∉ ["id"; "is_active"; "updated_at"]%string)
  /\ match v with
     | PStr _ | PFloat _ => True
     | PInt _ => k = "price_numeric"%string \/ k = "walk_minutes"%string
     | _ => False
     end.
Proof.
  intros Hd H. destruct (jsonify_lookup_inv d k v H) as (v0 & E & Hv).
  destruct (Hd k v0 E) as (C & N & S). split; [exact C|]. split; [exact N|].
  destruct Hv as [->|[x ->]]; [|exact I].
  destruct v0 as [|b|z|q|s0|dt|l|dd]; try exact S.
  - destruct S as [-> _]. now apply DatabaseFacts.jsonify_no_list in H.
  - subst k. now apply DatabaseFacts.jsonify_no_dict in H.
Qed.

Lemma scraped_response base urljoin strict url now response d :
  _scrape_property_detail base urljoin strict url now response = Some d ->
  exists soup, response = Ok soup /\ extract_fields base urljoin strict url now soup = Ok d.
Proof.
  intros H. unfold _scrape_property_detail in H.
  destruct response as [soup|e]; cbn [rbind] in H; [|discriminate].
  exists soup. split; [reflexivity|].
  destruct (extract_fields base urljoin strict url now soup); congruence.
Qed.

Lemma scraped_record_shape base urljoin strict url now response d self :
  _scrape_property_detail base urljoin strict url now response = Some d ->
  (exists property_id,
      _extract_property_id strict url = Ok property_id
      /\ (Ranking.calculate_rank self d ∪ d) !! "property_id" = Some (PStr property_id))
  /\ (Ranking.calculate_rank self d ∪ d) !! "is_active" = None.
Proof.
  intros H.
  destruct (scraped_response _ _ _ _ _ _ _ H) as (soup & -> & Hd).
  pose proof (extract_fields_scraped _ _ _ _ _ _ _ Hd) as Sd.
  destruct (extract_fields_record base urljoin strict url now soup d Hd)
    as (_ & _ & _ & _ & _ & _ & (pid & Hpid & Hl) & _).
  split.
  - exists pid. split; [exact Hpid|]. rewrite lookup_union_r; [exact Hl|].
    unfold Ranking.calculate_rank. cbv zeta.
    rewrite !lookup_insert_ne by done. apply lookup_empty.
  - apply scraped_no_key; [|in_list].
    apply scraped_union; [apply calculate_rank_scraped | exact Sd].
Qed.

(** X17: every record that [_scrape_property_detail] returns, once
    the ranking is merged into it as [scrape_all] does, fits the table:
    each key names a column, none of them is [id], [is_active] or
    [updated_at], the id, URL and title are texts, at most five image
    links are kept, and after the two JSON conversions every value can
    be bound to a statement, the two integers [price_numeric] and
    [walk_minutes] apart, which can be too large for SQLite. *)
Theorem scraped_record_fits_the_table
        (base : pystr) (urljoin : pystr -> pystr -> result pystr)
        (strict : pystr -> bool) (url : pystr)
        (now : datetime) (response : result page) (d : pydict)
        (self : Ranking.PropertyRanker) :
  _scrape_property_detail base urljoin strict url now response = Some d ->
  let record := Ranking.calculate_rank self d ∪ d in
  (forall k, is_Some (record !! k) -> k ∈ Database.properties_columns)
  /\ record !! "id" = None /\ record !! "is_active" = None
  /\ record !! "updated_at" = None
  /\ (exists property_id,
        _extract_property_id strict url = Ok property_id
        /\ record !! "property_id" = Some (PStr property_id))
  /\ record !! "url" = Some (PStr url)
  /\ (exists t, record !! "title" = Some (PStr t))
  /\ (exists l, record !! "image_urls" = Some (PList l) /\ (length l <= 5)%nat)
  /\ (forall k v,
        Database.jsonify record !! k = Some v ->
        (exists v', Database.adapt v = Ok v')
        \/ (exists n, v = PInt n
                      /\ (k = "price_numeric"%string \/ k = "walk_minutes"%string)
                      /\ ~ RunSpec.int64 n)).
Proof.
  intros H record.
  destruct (scraped_response _ _ _ _ _ _ _ H) as (soup & -> & Hd).
  pose proof (extract_fields_scraped _ _ _ _ _ _ _ Hd) as Sd.
  assert (scraped record) as Sr
      by (apply scraped_union; [apply calculate_rank_scraped | exact Sd]).
  destruct (extract_fields_record base urljoin strict url now soup d Hd)
    as (_ & _ & _ & _ & _ & _ & (pid & Hpid & Hl) & Hurl & _ & Htitle & _).
  assert (forall k, k ∉ ["ranking_score"; "ranking_grade"; "price_evaluation";
                         "location_evaluation"; "area_evaluation";
                         "investment_evaluation"]%string ->
                    record !! k = d !! k) as Hold.
  { intros k Hk. subst record. apply lookup_union_r.
    unfold Ranking.calculate_rank. cbv zeta.
    rewrite !lookup_insert_ne; [apply lookup_empty|..];
      intros <-; apply Hk; in_list. }
  split; [|split; [|split; [|split; [|split; [|split; [|split; [|split]]]]]]].
  - intros k [v Hv]. now destruct (Sr k v Hv).
  - apply scraped_no_key; [exact Sr | in_list].
  - apply scraped_no_key; [exact Sr | in_list].
  - apply scraped_no_key; [exact Sr | in_list].
  - exists pid. split; [exact Hpid|]. rewrite Hold by not_in_list. exact Hl.
  - rewrite Hold by not_in_list. exact Hurl.
  - rewrite Hold by not_in_list. eauto.
  - rewrite Hold by not_in_list. exact (extract_fields_images _ _ _ _ _ _ _ Hd).
  - intros k v Hk. destruct (scraped_jsonify _ _ _ Sr Hk) as (_ & _ & S).
    destruct v; try contradiction; try (left; cbn [Database.adapt]; eauto; fail).
    cbn [Database.adapt].
    destruct ((- 2 ^ 63 <=? z) && (z <? 2 ^ 63)) eqn:E; [left; eauto|].
    right. exists z. split; [reflexivity|]. split; [exact S|].
    unfold RunSpec.int64. intros [H1 H2].
    apply andb_false_iff in E as [E|E]; [apply Z.leb_gt in E | apply Z.ltb_ge in E]; lia.
Qed.

Lemma scraped_record_witness :
  exists d,
    _scrape_property_detail base join_urls lenient detail_url stamp
                            (Ok (plain_page "1,000万円" "100坪")) = Some d
    /\ (Ranking.calculate_rank Config.config d ∪ d) !! "is_active" = None.
Proof.
  destruct (_scrape_property_detail base join_urls lenient detail_url stamp
                                    (Ok (plain_page "1,000万円" "100坪")))
    as [d|] eqn:E.
  - exists d. split; [reflexivity|].
    now destruct (scraped_record_fits_the_table _ _ _ _ _ _ d Config.config E)
      as (_ & _ & H & _).
  - exfalso. unfold _scrape_property_detail in E. cbn [rbind] in E.
    pose proof (extract_fields_raises base join_urls lenient detail_url stamp
                  (plain_page "1,000万円" "100坪")) as Hr.
    destruct (extract_fields base join_urls lenient detail_url stamp
                             (plain_page "1,000万円" "100坪")); [discriminate|].
    vm_compute in Hr. discriminate.
Defined.

End ScraperLaws.

Module RunLaws.
Import Database DatabaseSpec DatabaseFacts DatabaseLaws.
Import Scraper ScraperNotions ScraperLaws RunSpec RunFacts RunNotions.

(** *** What the calls of the crawl do to the store *)

Lemma upsert_scraped_effect self now cts (d : pydict) s is_new pid d' self' :
  d !! "property_id" = Some (PStr s) -> d !! "is_active" = None ->
  Database.upsert_property self now cts d = Ok (is_new, pid, d', self') ->
  scraping_logs self' = scraping_logs self
  /\ (length (properties self) <= length (properties self')
      <= length (properties self) + 1)%nat
  /\ forall X, stays_inactive X self -> stays_inactive X self'.
Proof.
  intros Hid Hact H.
  destruct (List.find (fun r => sql_eq (col r "property_id") (VText s)) (properties self))
    as [r0|] eqn:Ef.
  - apply List.find_some in Ef as [Hr0 Hc0].
    apply list_elem_of_In in Hr0. apply sql_eq_text in Hc0.
    destruct (upsert_existing_inv _ _ _ _ _ _ _ _ _ Hid (ex_intro _ r0 (conj Hr0 Hc0)) H)
      as (sets & Hp & Hne & -> & -> & -> & -> & Hok).
    set (t := VText (adapt_datetime now)).
    assert (forall r k, k ≠ "updated_at" ->
                        delete "property_id" (jsonify d) !! k = None ->
                        col (if sql_eq (col r "property_id") (VText s)
                             then <["updated_at" := t]> (assign r sets) else r) k
                        = col r k) as Hkeep.
    { intros r k K1 K2. destruct (sql_eq _ _); [|reflexivity].
      destruct (updated_row_spec _ _ _ r t Hp) as (_ & _ & Hn).
      unfold col. now rewrite Hn. }
    assert (delete "property_id" (jsonify d) !! "property_id" = None) as F1
        by apply lookup_delete_eq.
    assert (delete "property_id" (jsonify d) !! "is_active" = None) as F2.
    { rewrite lookup_delete_ne by done. now apply jsonify_lookup_none. }
    cbn [properties scraping_logs]. split; [reflexivity|]. split.
    { rewrite length_fmap. lia. }
    intros X [(rx & Hrx & Hcx) Hall]. split.
    + eexists. split; [apply list_elem_of_fmap; exists rx; split; [reflexivity | exact Hrx]|].
      cbv beta. now rewrite Hkeep.
    + intros r' Hr' Hc'. apply list_elem_of_fmap in Hr' as (r & -> & Hr).
      rewrite Hkeep in Hc' by done. unfold is_active.
      rewrite Hkeep by done. now apply Hall.
  - assert (forall r, r ∈ properties self -> col r "property_id" ≠ VText s) as Hnew.
    { intros r Hr Hc. apply list_elem_of_In in Hr.
      pose proof (List.find_none _ _ Ef r Hr) as Hn. cbv beta in Hn.
      apply sql_eq_text in Hc. congruence. }
    destruct (upsert_new_inv _ _ _ _ _ _ _ _ _ Hid Hnew H)
      as (sets & r & Hp & Hr & -> & -> & -> & Hrows & Hlogs & _ & Hok).
    split; [exact Hlogs|]. split.
    { rewrite Hrows, length_app. cbn [length]. lia. }
    intros X [(rx & Hrx & Hcx) Hall]. unfold stays_inactive. rewrite Hrows. split.
    + exists rx. split; [apply elem_of_app; now left | exact Hcx].
    + intros r' Hr' Hc'. apply elem_of_app in Hr' as [Hr'|Hr']; [now apply Hall|].
      apply list_elem_of_singleton in Hr'. subst r'. exfalso.
      assert (col r "property_id" = VText s) as Hrs.
      { destruct (prepare_spec _ _ _ Hp) as (Hnd & Hnone & Hsome).
        destruct (Hsome "property_id" (PStr s)) as (v' & Hv' & Hin).
        { now rewrite jsonify_lookup_ne. }
        cbn [adapt] in Hv'. injection Hv' as <-. unfold col. rewrite Hr.
        destruct (is_null _); rewrite ?lookup_insert_ne by done;
          now rewrite (assign_lookup_in _ _ _ _ Hnd Hin). }
      rewrite Hrs in Hc'. injection Hc' as ->. now apply (Hnew rx).
Qed.

Lemma deactivate_effect self now ids :
  scraping_logs (Database.deactivate_old_properties self now ids).2 = scraping_logs self
  /\ length (properties (Database.deactivate_old_properties self now ids).2)
     = length (properties self)
  /\ 0 <= (Database.deactivate_old_properties self now ids).1
     <= Z.of_nat (length (properties self))
  /\ forall X, stays_inactive X self ->
               stays_inactive X (Database.deactivate_old_properties self now ids).2.
Proof.
  split; [reflexivity|]. split; [now rewrite deactivate_rows, length_fmap|]. split.
  - rewrite deactivate_count. pose proof (List.filter_length_le (is_old ids) (properties self)).
    lia.
  - intros X [(rx & Hrx & Hcx) Hall]. unfold stays_inactive. rewrite deactivate_rows.
    assert (forall r, col (if is_old ids r then deactivated now r else r) "property_id"
                      = col r "property_id") as Hkeep.
    { intros r. destruct (is_old ids r); [|reflexivity].
      unfold deactivated. now rewrite !col_insert_ne by done. }
    split.
    + eexists. split; [apply list_elem_of_fmap; exists rx; split; [reflexivity | exact Hrx]|].
      cbv beta. now rewrite Hkeep.
    + intros r' Hr' Hc'. apply list_elem_of_fmap in Hr' as (r & -> & Hr).
      rewrite Hkeep in Hc'. destruct (is_old ids r); [apply is_active_deactivated|].
      now apply Hall.
Qed.

Lemma log_scraping_properties self cts d self' :
  Database.log_scraping self cts d = Ok self' -> properties self' = properties self.
Proof.
  unfold Database.log_scraping.
  destruct (bool_decide (d = ∅)); [discriminate|].
  destruct (prepare scraping_logs_columns d) as [sets|]; cbn [rbind]; [|discriminate].
  destruct (col _ "id"); try discriminate.
  - intros H. injection H as <-. reflexivity.
  - destruct (List.existsb _ _); [discriminate|]. intros H. injection H as <-. reflexivity.
Qed.

(** *** One turn of the loop *)

Lemma counted_refl st : counted st st 0 0.
Proof. unfold counted. repeat split; lia. Qed.

Lemma counted_error st : counted st (count_error st) 0 1.
Proof. unfold counted, count_error. cbn. repeat split; lia. Qed.

Lemma counted_listing st is_new : counted st (count_listing is_new st) 1 0.
Proof. unfold counted, count_listing. destruct is_new; cbn; repeat split; lia. Qed.

Lemma counted_trans st1 st2 st3 a b c d :
  counted st1 st2 a b -> counted st2 st3 c d -> counted st1 st3 (a + c) (b + d).
Proof.
  unfold counted. intros (?&?&?&?&?&?&?) (?&?&?&?&?&?&?).
  repeat split; try lia; congruence.
Qed.

Ltac unchanged :=
  rewrite app_nil_r; split; [reflexivity|]; cbn [db length Z.of_nat];
  split; [first [apply counted_refl | apply counted_error]|];
  do 2 (split; [lia|]); split; [reflexivity|]; split; [lia|]; auto.

Lemma process_url_spec w cfg url ids s :
  exists added s' failed,
    process_url w cfg url ids s = (Ok (ids ++ added), s')
    /\ counted (stats s) (stats s') (Z.of_nat (length added)) failed
    /\ 0 <= failed /\ Z.of_nat (length added) + failed <= 1
    /\ scraping_logs (db s') = scraping_logs (db s)
    /\ (length (properties (db s)) <= length (properties (db s'))
        <= length (properties (db s)) + length added)%nat
    /\ forall X, stays_inactive X (db s) -> stays_inactive X (db s').
Proof.
  unfold process_url, try_except, bind, tick. cbn [fst snd].
  destruct (_scrape_property_detail (base_url cfg) (urljoin w) (strict w) url
                                    (clock w (steps s)) (detail_page w url))
    as [d|] eqn:Ed.
  2: { unfold ret. exists [], (Self (db s) (stats s) (S (steps s))), 0. unchanged. }
  destruct (bool_decide (d = ∅)).
  { unfold ret. exists [], (Self (db s) (stats s) (S (steps s))), 0. unchanged. }
  destruct (scraped_record_shape (base_url cfg) (urljoin w) (strict w) url
                                 (clock w (steps s)) (detail_page w url) d (ranker cfg) Ed)
    as ((property_id & _ & Hid) & Hact).
  set (record := Ranking.calculate_rank (ranker cfg) d ∪ d) in *.
  unfold Scraper.upsert_property, db_call, bind, tick, set_stats, ret. cbn [db stats steps].
  destruct (db_fault w (S (steps s))) as [e|].
  { exists [], (Self (db s) (count_error (stats s)) (S (S (steps s)))), 1. unchanged. }
  destruct (Database.upsert_property (db s) (clock w (S (steps s)))
                                     (current_timestamp w (S (steps s))) record)
    as [[[[is_new pid] d'] db']|e] eqn:Eu.
  - destruct (upsert_scraped_effect _ _ _ _ _ _ _ _ _ Hid Hact Eu) as (H1 & H2 & H3).
    cbn [db stats steps fst snd].
    eexists [_], _, 0. split; [reflexivity|]. split; [apply counted_listing|].
    cbn [db length Z.of_nat]. do 2 (split; [lia|]).
    split; [exact H1|]. split; [exact H2 | exact H3].
  - exists [], (Self (db s) (count_error (stats s)) (S (S (steps s)))), 1. unchanged.
Qed.

Lemma process_all_spec w cfg urls ids s :
  exists added s' failed,
    process_all w cfg urls ids s = (Ok (ids ++ added), s')
    /\ counted (stats s) (stats s') (Z.of_nat (length added)) failed
    /\ 0 <= failed /\ Z.of_nat (length added) + failed <= Z.of_nat (length urls)
    /\ scraping_logs (db s') = scraping_logs (db s)
    /\ (length (properties (db s)) <= length (properties (db s'))
        <= length (properties (db s)) + length added)%nat
    /\ forall X, stays_inactive X (db s) -> stays_inactive X (db s').
Proof.
  revert ids s. induction urls as [|url urls IH]; intros ids s; cbn [process_all].
  - exists [], s, 0. unfold ret. rewrite app_nil_r. split; [reflexivity|].
    split; [apply counted_refl|]. cbn [length Z.of_nat].
    do 2 (split; [lia|]). split; [reflexivity|]. split; [lia | auto].
  - destruct (process_url_spec w cfg url ids s)
      as (a1 & s1 & f1 & E1 & C1 & P1 & P2 & G1 & N1 & I1).
    destruct (IH (ids ++ a1) s1)
      as (a2 & s2 & f2 & E2 & C2 & Q1 & Q2 & G2 & N2 & I2).
    exists (a1 ++ a2), s2, (f1 + f2). unfold bind. rewrite E1, E2, app_assoc.
    split; [reflexivity|]. rewrite length_app, Nat2Z.inj_add.
    split; [now apply counted_trans with (stats s1)|].
    cbn [length]. do 2 (split; [lia|]). split; [congruence|]. split; [lia | auto].
Qed.

(** X18: the loop of [scrape_all] over the listing URLs never raises,
    whatever the pages hold and whenever the database refuses a call:
    it ends with the list of ids it was given followed by one id for
    every listing it stored. The total count grows by the number of
    these ids, the counts of new and of updated listings grow and
    together grow by as much, the error count grows by the number of
    URLs whose storing failed, and the URLs counted one way or the
    other are no more than the URLs given. The run log is not written,
    and the table of listings grows by no more rows than listings were
    stored. *)
Theorem process_all_never_raises_and_counts w cfg urls ids s :
  exists added s',
    process_all w cfg urls ids s = (Ok (ids ++ added), s')
    /\ total_properties (stats s') = total_properties (stats s) + Z.of_nat (length added)
    /\ new_properties (stats s') + updated_properties (stats s')
       = new_properties (stats s) + updated_properties (stats s)
         + Z.of_nat (length added)
    /\ new_properties (stats s) <= new_properties (stats s')
    /\ updated_properties (stats s) <= updated_properties (stats s')
    /\ errors (stats s) <= errors (stats s')
    /\ Z.of_nat (length added) + (errors (stats s') - errors (stats s))
       <= Z.of_nat (length urls)
    /\ start_time (stats s') = start_time (stats s)
    /\ scraping_logs (db s') = scraping_logs (db s)
    /\ (length (properties (db s)) <= length (properties (db s'))
        <= length (properties (db s)) + length added)%nat.
Proof.
  destruct (process_all_spec w cfg urls ids s)
    as (added & s' & failed & E & (C1 & C2 & C3 & C4 & C5 & C6 & C7) & P1 & P2 & G & N & _).
  exists added, s'. split; [exact E|].
  do 2 (split; [assumption|]). do 2 (split; [assumption|]).
  split; [lia|]. split; [lia|]. split; [assumption|]. split; [assumption|].
  exact N.
Qed.

(** *** The whole run *)

Section KeepsDb.
Variable P : PropertyDatabase -> Prop.

Lemma kdb_ret {A} (a : A) : keeps_db P (ret a).
Proof. intros s H. exact H. Qed.

Lemma kdb_raise {A} (e : exn) : keeps_db P (@raise A e).
Proof. intros s H. exact H. Qed.

Lemma kdb_bind {A B} (m : M A) (f : A -> M B) :
  keeps_db P m -> (forall a, keeps_db P (f a)) -> keeps_db P (bind m f).
Proof.
  intros Hm Hf s H. unfold bind. specialize (Hm s H).
  destruct (m s) as [[a|e] s']; cbn [snd] in *.
  - now apply Hf.
  - exact Hm.
Qed.

Lemma kdb_try {A} (m : M A) (h : exn -> M A) :
  keeps_db P m -> (forall e, keeps_db P (h e)) -> keeps_db P (try_except m h).
Proof.
  intros Hm Hh s H. unfold try_except. specialize (Hm s H).
  destruct (m s) as [[a|e] s']; cbn [snd] in *.
  - exact Hm.
  - now apply Hh.
Qed.

Lemma kdb_tick : keeps_db P tick.
Proof. intros s H. exact H. Qed.

Lemma kdb_get_stats : keeps_db P get_stats.
Proof. intros s H. exact H. Qed.

Lemma kdb_set_stats f : keeps_db P (set_stats f).
Proof. intros s H. exact H. Qed.

Lemma kdb_now w : keeps_db P (now w).
Proof. apply kdb_bind; [apply kdb_tick | intros; apply kdb_ret]. Qed.

Lemma kdb_duration st : keeps_db P (duration st).
Proof.
  unfold duration. destruct (end_time st), (start_time st);
    first [apply kdb_ret | apply kdb_raise].
Qed.

Lemma kdb_db_call {A} w
      (method : PropertyDatabase -> nat -> result (A * PropertyDatabase)) :
  (forall d n a d', method d n = Ok (a, d') -> P d -> P d') ->
  keeps_db P (db_call w method).
Proof.
  intros Hm. apply kdb_bind; [apply kdb_tick|]. intros n s H.
  destruct (db_fault w n); [exact H|].
  destruct (method (db s) n) as [[a d']|] eqn:E; [|exact H].
  cbn [snd db]. exact (Hm _ _ _ _ E H).
Qed.

End KeepsDb.

Lemma stays_inactive_rows X d d' :
  properties d' = properties d -> stays_inactive X d -> stays_inactive X d'.
Proof. unfold stays_inactive. intros ->. auto. Qed.

Lemma kdb_log_scraping w X log_data :
  keeps_db (stays_inactive X) (Scraper.log_scraping w log_data).
Proof.
  apply kdb_db_call. intros d n a d' E H.
  destruct (Database.log_scraping d (current_timestamp w n) log_data) as [d2|] eqn:El;
    [|discriminate].
  injection E as _ <-. exact (stays_inactive_rows _ _ _ (log_scraping_properties _ _ _ _ El) H).
Qed.

(** X19: a run of [scrape_all] never makes an inactive listing active
    again. If the table holds a listing with the id [X] and every row
    with that id is marked inactive, then so it is after the run,
    however the run ends, and also when the site shows the listing
    again and the run stores it as an update. *)
Theorem scrape_all_never_reactivates w cfg X s :
  stays_inactive X (db s) -> stays_inactive X (db (scrape_all w cfg s).2).
Proof.
  revert s. change (keeps_db (stays_inactive X) (scrape_all w cfg)).
  unfold scrape_all.
  apply kdb_bind; [apply kdb_now|]. intros t.
  apply kdb_bind; [apply kdb_set_stats|]. intros _.
  apply kdb_try.
  - unfold scrape_all_body.
    apply kdb_bind.
    { intros s H.
      destruct (process_all_spec w cfg (_get_property_urls w cfg) [] s)
        as (added & s' & failed & E & _ & _ & _ & _ & _ & I).
      rewrite E. now apply I. }
    intros ids. apply kdb_bind.
    { apply kdb_db_call. intros d n a d' E H.
      assert (Database.deactivate_old_properties d (clock w n) ids = (a, d')) as E'
          by congruence.
      pose proof (deactivate_effect d (clock w n) ids) as (_ & _ & _ & I).
      rewrite E' in I. now apply I. }
    intros k. apply kdb_bind; [apply kdb_now|]. intros t1.
    apply kdb_bind; [apply kdb_set_stats|]. intros _.
    apply kdb_bind; [apply kdb_get_stats|]. intros st.
    apply kdb_bind; [apply kdb_duration|]. intros d.
    apply kdb_bind; [apply kdb_log_scraping|]. intros _.
    apply kdb_get_stats.
  - intros e. unfold scrape_all_handler.
    apply kdb_bind; [apply kdb_now|]. intros t1.
    apply kdb_bind; [apply kdb_set_stats|]. intros _.
    apply kdb_bind; [apply kdb_get_stats|]. intros st.
    apply kdb_bind; [apply kdb_duration|]. intros d.
    apply kdb_bind; [apply kdb_log_scraping|]. intros _.
    apply kdb_raise.
Qed.

Lemma scrape_all_reactivation_witness :
  stays_inactive (u "athome_123") (db before_return)
  /\ stays_inactive (u "athome_123")
                    (db (scrape_all returning_site settings_x before_return).2)
  /\ updated_properties (stats (scrape_all returning_site settings_x before_return).2) = 1.
Proof.
  assert (stays_inactive (u "athome_123") (db before_return)) as H.
  { split.
    - exists delisted. split; [apply list_elem_of_here | reflexivity].
    - intros r Hr _. apply list_elem_of_singleton in Hr. subst r. reflexivity. }
  split; [exact H|]. split.
  - exact (scrape_all_never_reactivates returning_site settings_x _ before_return H).
  - vm_compute. reflexivity.
Defined.

Lemma completed_log_bindable st k d :
  int64 (total_properties st) -> int64 (new_properties st) ->
  int64 (updated_properties st) -> int64 k -> int64 (errors st) ->
  forall key v, completed_log st k d !! key = Some v ->
                key ∈ scraping_logs_columns /\ exists v', adapt v = Ok v'.
Proof.
  intros H1 H2 H3 H4 H5 key v H. unfold completed_log in H.
  repeat (apply lookup_insert_Some in H as [[<- <-]|[_ H]];
          [split; [unfold scraping_logs_columns;
                   repeat first [apply list_elem_of_here | apply list_elem_of_further]
                  | first [rewrite adapt_int by assumption; eauto | cbn [adapt]; eauto]]|]).
  rewrite lookup_empty in H. discriminate.
Qed.

Lemma completed_log_nonempty st k d : completed_log st k d ≠ ∅.
Proof.
  intros H. apply (f_equal (fun m : pydict => m !! "total_properties")) in H.
  unfold completed_log in H. rewrite lookup_empty, lookup_insert_eq in H. discriminate.
Qed.

Ltac logged Hrow key val :=
  let v' := fresh "v" in
  let Ha := fresh "Ha" in
  let Hr := fresh "Hr" in
  destruct (Hrow key val eq_refl) as (v' & Ha & Hr);
  first [rewrite adapt_int in Ha by assumption | cbn [adapt] in Ha];
  injection Ha as <-; exact Hr.

(** X20: when the database refuses no call, [scrape_all] ends normally
    and returns its statistics, with the start and the end time set. It
    appends exactly one row to the run log: the status "completed", the
    four counts of the statistics it returns, the count that the
    reconciliation returned, the duration between the two times and
    the message built from the total. The reconciliation is run with
    the ids that the loop over the listings collected, on the table as
    the loop left it; its count is the number of rows of that table
    that were active and not among these ids, and the table of the
    listings after the run is the one it left. The total grew by as
    much as the new and the updated counts together, and the listings
    stored and the failures together are no more than the URLs found.
    The counts are assumed small enough to stay within the 64-bit range
    of a column. *)
Theorem scrape_all_completed_run_is_logged w cfg s :
  (forall n, db_fault w n = None) ->
  room (length (_get_property_urls w cfg)) (total_properties (stats s)) ->
  room (length (_get_property_urls w cfg)) (new_properties (stats s)) ->
  room (length (_get_property_urls w cfg)) (updated_properties (stats s)) ->
  room (length (_get_property_urls w cfg)) (errors (stats s)) ->
  room (length (_get_property_urls w cfg)) (Z.of_nat (length (properties (db s)))) ->
  exists st s' r t1 ids s1,
    let reconciled :=
      Database.deactivate_old_properties (db s1) (clock w (steps s1)) ids in
    let k := reconciled.1 in
    scrape_all w cfg s = (Ok st, s') /\ stats s' = st
    /\ start_time st = Some (clock w (steps s)) /\ end_time st = Some t1
    /\ scraping_logs (db s') = scraping_logs (db s) ++ [r]
    /\ r !! "status" = Some (VText (u "completed"))
    /\ r !! "total_properties" = Some (VInt (total_properties st))
    /\ r !! "new_properties" = Some (VInt (new_properties st))
    /\ r !! "updated_properties" = Some (VInt (updated_properties st))
    /\ r !! "errors" = Some (VInt (errors st))
    /\ r !! "deactivated_properties" = Some (VInt k)
    /\ r !! "duration_seconds" = Some (VReal (total_seconds t1 (clock w (steps s))))
    /\ r !! "message"
       = Some (VText (u "正常終了: " ++ Show.int (total_properties st) ++ u "件処理"))
    /\ 0 <= k <= Z.of_nat (length (properties (db s')))
    /\ process_all w cfg (_get_property_urls w cfg) []
                   (Self (db s) (set_start (clock w (steps s)) (stats s)) (S (steps s)))
       = (Ok ids, s1)
    /\ k = Z.of_nat (length (List.filter (is_old ids) (properties (db s1))))
    /\ properties (db s') = properties reconciled.2
    /\ total_properties st - total_properties (stats s)
       = (new_properties st - new_properties (stats s))
         + (updated_properties st - updated_properties (stats s))
    /\ 0 <= total_properties st - total_properties (stats s)
    /\ 0 <= errors st - errors (stats s)
    /\ (total_properties st - total_properties (stats s))
       + (errors st - errors (stats s))
       <= Z.of_nat (length (_get_property_urls w cfg)).
Proof.
  intros Hf [R1 R1'] [R2 R2'] [R3 R3'] [R4 R4'] [R5 R5'].
  rewrite scrape_all_unfold. unfold try_except, scrape_all_body, bind.
  set (s0 := Self (db s) (set_start (clock w (steps s)) (stats s)) (S (steps s))).
  destruct (process_all_spec w cfg (_get_property_urls w cfg) [] s0)
    as (added & s1 & failed & E & (C1 & C2 & C3 & C4 & C5 & C6 & C7) & P1 & P2 & G & N & _).
  rewrite E. cbn [app] in *.
  cbn [s0 stats db set_start start_time end_time total_properties new_properties
       updated_properties errors] in C1, C2, C3, C4, C5, C6, C7, G, N.
  unfold Scraper.deactivate_old_properties, db_call, bind, tick. cbn [db stats steps].
  rewrite Hf.
  pose proof (deactivate_effect (db s1) (clock w (steps s1)) added) as (D1 & D2 & D3 & _).
  destruct (Database.deactivate_old_properties (db s1) (clock w (steps s1)) added)
    as [k db2] eqn:Ed.
  cbn [fst snd] in D1, D2, D3.
  unfold now, bind, tick, ret, set_stats, get_stats. cbn [db stats steps].
  set (t1 := clock w (S (steps s1))).
  set (st := set_end t1 (stats s1)).
  unfold duration. cbn [st set_end end_time start_time]. rewrite C1.
  unfold ret, Scraper.log_scraping, db_call, bind, tick. cbn [db stats steps].
  rewrite Hf.
  set (d := total_seconds t1 (clock w (steps s))).
  assert (int64 (total_properties st)) as J1
      by (unfold int64; cbn [st set_end total_properties]; lia).
  assert (int64 (new_properties st)) as J2
      by (unfold int64; cbn [st set_end new_properties]; lia).
  assert (int64 (updated_properties st)) as J3
      by (unfold int64; cbn [st set_end updated_properties]; lia).
  assert (int64 (errors st)) as J4
      by (unfold int64; cbn [st set_end errors]; lia).
  assert (int64 k) as J5 by (unfold int64; lia).
  destruct (log_scraping_accepts db2 (current_timestamp w (S (S (steps s1))))
                                 (completed_log st k d))
    as (r & Hlog & Hrow & _).
  { apply completed_log_nonempty. }
  { reflexivity. }
  { apply completed_log_bindable; assumption. }
  rewrite Hlog. eexists st, _, r, t1, added, s1. cbv zeta. rewrite Ed. cbn [fst snd].
  split; [reflexivity|]. split; [reflexivity|].
  split; [exact C1|]. split; [reflexivity|].
  split; [cbn [db scraping_logs]; now rewrite D1, G|].
  split; [logged Hrow "status" (PStr (u "completed"))|].
  split; [logged Hrow "total_properties" (PInt (total_properties st))|].
  split; [logged Hrow "new_properties" (PInt (new_properties st))|].
  split; [logged Hrow "updated_properties" (PInt (updated_properties st))|].
  split; [logged Hrow "errors" (PInt (errors st))|].
  split; [logged Hrow "deactivated_properties" (PInt k)|].
  split; [logged Hrow "duration_seconds" (PFloat d)|].
  split; [logged Hrow "message"
                 (PStr (u "正常終了: " ++ Show.int (total_properties st) ++ u "件処理"))|].
  cbn [db properties st set_end total_properties new_properties updated_properties errors].
  split; [lia|]. split; [reflexivity|].
  split.
  { pose proof (deactivate_count (db s1) (clock w (steps s1)) added) as Hc.
    rewrite Ed in Hc. exact Hc. }
  split; [reflexivity|].
  split; [lia|]. split; [lia|]. split; lia.
Qed.

Lemma scrape_all_completed_witness :
  exists st s' r,
    scrape_all returning_site settings_x before_return = (Ok st, s')
    /\ scraping_logs (db s') = [r]
    /\ r !! "status" = Some (VText (u "completed"))
    /\ r !! "total_properties" = Some (VInt (total_properties st))
    /\ total_properties st = new_properties st + updated_properties st.
Proof.
  destruct (scrape_all_completed_run_is_logged returning_site settings_x before_return)
    as (st & s' & r & t1 & ids & s1 & H1 & _ & _ & _ & H2 & H3 & H4 & _ & _ & _ & _ & _
        & _ & _ & _ & _ & _ & H5 & _).
  - intros n. reflexivity.
  - unfold room. vm_compute. split; [discriminate | reflexivity].
  - unfold room. vm_compute. split; [discriminate | reflexivity].
  - unfold room. vm_compute. split; [discriminate | reflexivity].
  - unfold room. vm_compute. split; [discriminate | reflexivity].
  - unfold room. vm_compute. split; [discriminate | reflexivity].
  - exists st, s', r. split; [exact H1|]. split; [exact H2|]. split; [exact H3|].
    split; [exact H4|]. cbn in H5. lia.
Defined.

End RunLaws.
